(** * SafetySnap: the rule-based PPE detection pipeline

    A shallow embedding of [backend/src/detection.js] (the module the upload
    route imports) and of the earlier detection module that the repository
    still carries next to it (the union-merging Merger, the per-class limiter,
    the filename fallback and the feature-vector scorers), followed by the
    code around them: the upload handler of [backend/src/routes/images.js]
    and what the Analytics and Result pages of the frontend compute from the
    detections.

    Number model.  Integers [Z] stand for pixel channels, image dimensions
    and loop counters.  A field of a detection (a confidence, a box
    coordinate) is a rational [Q]: the exact value of the double that the
    code holds, or the quotient of two integers that the code divides, whose
    double is the nearest one.  Where the code decides by a computed number
    (the overlap of two boxes, the weighted sums and the shape, colour and
    pattern measures of the window scorers of [detection.js], the helmet
    scorer of the earlier module, the digits of the detection hash) the
    arithmetic is IEEE 754 binary64, round to nearest even, through the
    module [Double].  Elsewhere (box coordinates, pixel shares, the
    remaining scorers of the earlier module) the arithmetic is the exact one
    on [Q], from which the doubles of the code differ in their last bits.
    Records that the code passes along unchanged are compared with Leibniz
    equality; numbers computed exactly with [==] on [Q]. *)

From Stdlib Require Import ZArith QArith Qround Qminmax Qabs Lqa Lia.
From Stdlib Require Import List String Ascii Bool DecimalString Sorted Permutation.
From Stdlib Require Import SpecFloat DecimalPos DecimalN.
From stdpp Require Import base decidable list gmap sets.
Import ListNotations.

Local Open Scope Q_scope.

(** Integers are used as numbers without ceremony, as in the source. *)
#[local] Coercion inject_Z : Z >-> Q.

(** ** JavaScript numeric primitives *)

Module Js.

(** [a < b] as the boolean the code branches on. *)
Definition ltb (a b : Q) : bool := negb (Qle_bool b a).
Definition leb (a b : Q) : bool := Qle_bool a b.

(** [Math.floor] and [Math.round] (halves round up). *)
Definition floor (q : Q) : Z := Qfloor q.
Definition round (q : Q) : Z := Qfloor (q + (1 # 2)).

(** [for (let v = start; v < stop; v += step)]: the values [v] takes. *)
Definition forRange (start stop step : Z) : list Z :=
  if (stop <=? start)%Z then []
  else List.map (fun k => (start + Z.of_nat k * step)%Z)
                (seq 0 (Z.to_nat ((stop - start + step - 1) / step))).

(** [array[idx]] on the RGBA byte array, for an index inside the array. *)
Definition byteAt (data : list Z) (idx : Z) : Z := nth (Z.to_nat idx) data 0%Z.

(** [array.slice(start, end)] for integers [0 <= start]. *)
Definition slice {A : Type} (l : list A) (start stop : Z) : list A :=
  firstn (Z.to_nat (stop - start)) (skipn (Z.to_nat start) l).

(** [Math.min(...values)] and [Math.max(...values)] on a non-empty array. *)
Definition minOf (first : Q) (others : list Q) : Q := fold_left Qmin others first.
Definition maxOf (first : Q) (others : list Q) : Q := fold_left Qmax others first.

(** *** Strings (ASCII) *)

Definition lowerChar (c : ascii) : ascii :=
  let n := nat_of_ascii c in
  if (65 <=? n)%nat && (n <=? 90)%nat then ascii_of_nat (n + 32) else c.

(** [s.toLowerCase()]. *)
Fixpoint toLowerCase (s : string) : string :=
  match s with
  | EmptyString => EmptyString
  | String c rest => String (lowerChar c) (toLowerCase rest)
  end.

(** [s.includes(needle)]. *)
Fixpoint includes (s needle : string) : bool :=
  String.prefix needle s
  || match s with
     | EmptyString => false
     | String _ rest => includes rest needle
     end.

(** [parts.join(sep)]. *)
Fixpoint join (sep : string) (parts : list string) : string :=
  match parts with
  | [] => EmptyString
  | [part] => part
  | part :: others => (part ++ sep ++ join sep others)%string
  end.

Definition zeros (n : nat) : string := string_of_list_ascii (List.repeat "0"%char n).

(** *** [Number.prototype.toFixed] *)

(** The sign flag and the integer [n] for which [n / 10^digits] is closest
    to the magnitude of [q], the larger one on a tie. *)
Definition fixedParts (digits : nat) (q : Q) : bool * Z :=
  (ltb q 0, Qfloor (Qabs q * inject_Z (10 ^ Z.of_nat digits) + (1 # 2))).

(** The digits of [n], padded to at least [digits + 1] digits, with the
    decimal point before the last [digits] ones. *)
Definition renderFixed (digits : nat) (parts : bool * Z) : string :=
  let m := NilZero.string_of_uint (N.to_uint (Z.to_N (snd parts))) in
  let m := (zeros (S digits - String.length m) ++ m)%string in
  let k := String.length m in
  ((if fst parts then "-" else "")
   ++ substring 0 (k - digits) m
   ++ (if (digits =? 0)%nat then "" else ".")
   ++ substring (k - digits) digits m)%string.

(** [q.toFixed(digits)], for magnitudes below [10^21] (above, the source
    switches to exponent notation). *)
Definition toFixed (digits : nat) (q : Q) : string :=
  renderFixed digits (fixedParts digits q).

End Js.

(** ** IEEE 754 binary64 *)

Module Double.

(** The numbers of the code where rounding matters: binary64 values with
    the operations of IEEE 754, as [SpecFloat] defines them. *)
Definition t : Set := spec_float.

Definition prec : Z := 53.
Definition emax : Z := 1024.

(** The double nearest to a rational (ties to even): what a decimal literal
    denotes, and the quotient of two integers that are doubles. *)
Definition ofQ (q : Q) : t :=
  let nearest (negative : bool) (n : positive) :=
    let '(m, e, l) := SFdiv_core_binary prec emax (Zpos n) 0 (Zpos (Qden q)) 0 in
    binary_round_aux prec emax negative m e l in
  match Qnum q with
  | Z0 => S754_zero false
  | Zpos n => nearest false n
  | Zneg n => nearest true n
  end.

Definition ofZ (z : Z) : t := ofQ (inject_Z z).

(** The exact value of a finite double; 0 stands in for the infinities and
    NaN, which no caller of [toQ] meets. *)
Definition toQ (x : t) : Q :=
  match x with
  | S754_finite s m e =>
      let n := if s then Zneg m else Zpos m in
      match e with
      | Z0 => inject_Z n
      | Zpos k => inject_Z (n * 2 ^ Zpos k)
      | Zneg k => n # (2 ^ k)
      end
  | _ => 0
  end.

(** [x + y], [x - y], [x * y], [x / y] and [Math.sqrt(x)] on doubles. *)
Definition add' : t -> t -> t := SFadd prec emax.
Definition sub' : t -> t -> t := SFsub prec emax.
Definition mul' : t -> t -> t := SFmul prec emax.
Definition div' : t -> t -> t := SFdiv prec emax.
Definition sqrt' : t -> t := SFsqrt prec emax.

(** [x < y] and [x <= y]; false when an operand is NaN. *)
Definition ltb' (x y : t) : bool := SFltb x y.
Definition leb' (x y : t) : bool := SFleb x y.

(** [Math.max(x, y)] and [Math.min(x, y)]: NaN when an operand is NaN, and
    the zero of sign plus above the zero of sign minus. *)
Definition max' (x y : t) : t :=
  match SFcompare x y with
  | None => S754_nan
  | Some Lt => y
  | Some Gt => x
  | Some Eq => match x with S754_zero true => y | _ => x end
  end.

Definition min' (x y : t) : t :=
  match SFcompare x y with
  | None => S754_nan
  | Some Lt => x
  | Some Gt => y
  | Some Eq => match x with S754_zero false => y | _ => x end
  end.

(** [Math.floor(x)] of a finite double. *)
Definition floor' (x : t) : Z := Qfloor (toQ x).

(** The same operations on numbers held as rationals: the operands are
    taken to the nearest double, the result is the exact value of the double
    computed. *)
Definition round (q : Q) : Q := toQ (ofQ q).
Definition add (a b : Q) : Q := toQ (add' (ofQ a) (ofQ b)).
Definition sub (a b : Q) : Q := toQ (sub' (ofQ a) (ofQ b)).
Definition mul (a b : Q) : Q := toQ (mul' (ofQ a) (ofQ b)).
Definition div (a b : Q) : Q := toQ (div' (ofQ a) (ofQ b)).
Definition ltb (a b : Q) : bool := ltb' (ofQ a) (ofQ b).

End Double.

Arguments Double.ofQ : simpl never.
Arguments Double.toQ : simpl never.
Arguments Double.add' : simpl never.
Arguments Double.sub' : simpl never.
Arguments Double.mul' : simpl never.
Arguments Double.div' : simpl never.
Arguments Double.ltb' : simpl never.
Arguments Double.leb' : simpl never.
Arguments Double.max' : simpl never.
Arguments Double.min' : simpl never.

(** ** [crypto.createHash('md5')]: the MD5 digest of RFC 1321 *)

Module Md5.

Definition mask : Z := 0xffffffff.
Definition add32 (a b : Z) : Z := Z.land (a + b) mask.
Definition rotl32 (v : Z) (c : Z) : Z :=
  Z.land (Z.lor (Z.shiftl v c) (Z.shiftr v (32 - c))) mask.
Definition not32 (v : Z) : Z := Z.lxor v mask.

Definition shifts : list Z :=
  [7; 12; 17; 22; 7; 12; 17; 22; 7; 12; 17; 22; 7; 12; 17; 22;
   5; 9; 14; 20; 5; 9; 14; 20; 5; 9; 14; 20; 5; 9; 14; 20;
   4; 11; 16; 23; 4; 11; 16; 23; 4; 11; 16; 23; 4; 11; 16; 23;
   6; 10; 15; 21; 6; 10; 15; 21; 6; 10; 15; 21; 6; 10; 15; 21]%Z.

Definition sines : list Z :=
  [0xd76aa478; 0xe8c7b756; 0x242070db; 0xc1bdceee;
   0xf57c0faf; 0x4787c62a; 0xa8304613; 0xfd469501;
   0x698098d8; 0x8b44f7af; 0xffff5bb1; 0x895cd7be;
   0x6b901122; 0xfd987193; 0xa679438e; 0x49b40821;
   0xf61e2562; 0xc040b340; 0x265e5a51; 0xe9b6c7aa;
   0xd62f105d; 0x02441453; 0xd8a1e681; 0xe7d3fbc8;
   0x21e1cde6; 0xc33707d6; 0xf4d50d87; 0x455a14ed;
   0xa9e3e905; 0xfcefa3f8; 0x676f02d9; 0x8d2a4c8a;
   0xfffa3942; 0x8771f681; 0x6d9d6122; 0xfde5380c;
   0xa4beea44; 0x4bdecfa9; 0xf6bb4b60; 0xbebfbc70;
   0x289b7ec6; 0xeaa127fa; 0xd4ef3085; 0x04881d05;
   0xd9d4d039; 0xe6db99e5; 0x1fa27cf8; 0xc4ac5665;
   0xf4292244; 0x432aff97; 0xab9423a7; 0xfc93a039;
   0x655b59c3; 0x8f0ccc92; 0xffeff47d; 0x85845dd1;
   0x6fa87e4f; 0xfe2ce6e0; 0xa3014314; 0x4e0811a1;
   0xf7537e82; 0xbd3af235; 0x2ad7d2bb; 0xeb86d391]%Z.

Definition State : Set := (Z * Z * Z * Z)%type.

Definition initial : State := (0x67452301, 0xefcdab89, 0x98badcfe, 0x10325476)%Z.

(** One of the 64 operations on the working registers. *)
Definition step (words : list Z) (st : State) (i : nat) : State :=
  let '(a, b, c, d) := st in
  let '(f, g) :=
    if (i <? 16)%nat then (Z.lor (Z.land b c) (Z.land (not32 b) d), i)
    else if (i <? 32)%nat then (Z.lor (Z.land d b) (Z.land (not32 d) c), (5 * i + 1) mod 16)%nat
    else if (i <? 48)%nat then (Z.lxor (Z.lxor b c) d, (3 * i + 5) mod 16)%nat
    else (Z.lxor c (Z.lor b (not32 d)), (7 * i) mod 16)%nat in
  let f := add32 (add32 (add32 f a) (nth i sines 0%Z)) (nth g words 0%Z) in
  (d, add32 b (rotl32 f (nth i shifts 0%Z)), b, c).

(** Little-endian 32-bit words of a byte list. *)
Fixpoint wordsOf (n : nat) (bytes : list Z) : list Z :=
  match n, bytes with
  | S n', b0 :: b1 :: b2 :: b3 :: rest =>
      (b0 + 256 * b1 + 65536 * b2 + 16777216 * b3)%Z :: wordsOf n' rest
  | _, _ => []
  end.

Definition processBlock (st : State) (block : list Z) : State :=
  let '(a0, b0, c0, d0) := st in
  let '(a, b, c, d) := fold_left (step (wordsOf 16 block)) (seq 0 64) st in
  (add32 a0 a, add32 b0 b, add32 c0 c, add32 d0 d).

Fixpoint blocks (n : nat) (bytes : list Z) (st : State) : State :=
  match n with
  | O => st
  | S n' => blocks n' (skipn 64 bytes) (processBlock st (firstn 64 bytes))
  end.

Definition bytesLE (count : nat) (v : Z) : list Z :=
  List.map (fun k => Z.land (Z.shiftr v (8 * Z.of_nat k)) 255) (seq 0 count).

Definition pad (message : list Z) : list Z :=
  let len := Z.of_nat (List.length message) in
  let zerosCount := Z.to_nat ((55 - len) mod 64) in
  message ++ [128%Z] ++ List.repeat 0%Z zerosCount ++ bytesLE 8 (8 * len).

Definition digest (message : list Z) : State :=
  let padded := pad message in
  blocks (List.length padded / 64) padded initial.

Definition hexDigit (v : Z) : ascii :=
  nth (Z.to_nat (Z.land v 15)) (list_ascii_of_string "0123456789abcdef") "0"%char.

Definition hexByte (v : Z) (tail : string) : string :=
  String (hexDigit (Z.shiftr v 4)) (String (hexDigit v) tail).

Definition hexWord (w : Z) (tail : string) : string :=
  hexByte w (hexByte (Z.shiftr w 8) (hexByte (Z.shiftr w 16) (hexByte (Z.shiftr w 24) tail))).

(** [.digest('hex')]. *)
Definition hex (st : State) : string :=
  let '(a, b, c, d) := st in
  hexWord a (hexWord b (hexWord c (hexWord d EmptyString))).

Definition bytesOfString (s : string) : list Z :=
  List.map (fun c => Z.of_N (N_of_ascii c)) (list_ascii_of_string s).

(** [crypto.createHash('md5').update(s).digest('hex')]. *)
Definition md5hex (s : string) : string := hex (digest (bytesOfString s)).

End Md5.

(** ** Data model *)

(** The three labels the detectors write (string literals in the source). *)
Inductive Label : Set := person | helmet | vest.

#[global] Instance Label_eq_dec : EqDecision Label.
Proof. solve_decision. Defined.

Definition labelName (l : Label) : string :=
  match l with
  | person => "person"
  | helmet => "helmet"
  | vest => "vest"
  end.

Record BBox : Set := mkBBox {
  bbox_x : Q;
  bbox_y : Q;
  bbox_width : Q;
  bbox_height : Q
}.

(** A detection object.  [color] is present on the helmet and vest detections
    of the dedicated scans and absent on the others. *)
Record Detection : Set := mkDetection {
  label : Label;
  confidence : Q;
  color : option string;
  bbox : BBox
}.

(** An RGBA pixel object [{ r, g, b, a }] and an RGB colour [{ r, g, b }]. *)
Module Px.
Record t : Set := mk { r : Z; g : Z; b : Z; a : Z }.
End Px.

Module Rgb.
Record t : Set := mk { r : Z; g : Z; b : Z }.
End Rgb.

(** A colour range [{ r: [lo, hi], g: [lo, hi], b: [lo, hi] }]. *)
Record ColorRange : Set := mkColorRange {
  range_r : Z * Z;
  range_g : Z * Z;
  range_b : Z * Z
}.

(** The external image decoder (sharp's [metadata] and canvas's [loadImage],
    [drawImage], [getImageData]).  [None] stands for a thrown error. *)
Record PixelSource : Type := mkPixelSource {
  getImageInfo : string -> option (Z * Z);
  getImageData : string -> Z -> Z -> option (list Z)
}.

(** [array.sort((a, b) => b.confidence - a.confidence)]: a stable sort,
    descending by confidence; equal confidences keep their relative order. *)
Fixpoint insertByConfidence (d : Detection) (sorted : list Detection) : list Detection :=
  match sorted with
  | [] => [d]
  | e :: rest =>
      if Js.ltb (confidence d) (confidence e)
      then e :: insertByConfidence d rest
      else d :: e :: rest
  end.

Fixpoint sortByConfidence (ds : list Detection) : list Detection :=
  match ds with
  | [] => []
  | d :: rest => insertByConfidence d (sortByConfidence rest)
  end.

(** Number of detections carrying a given label. *)
Definition countLabel (l : Label) (ds : list Detection) : nat :=
  List.length (List.filter (fun d => bool_decide (label d = l)) ds).

(** [calculateOverlap]: intersection over union in double arithmetic, the
    same text in both detection modules.  The fields of the boxes are taken
    as the doubles they denote; the result is NaN when the division is of
    zero by zero. *)
Definition calculateOverlap (bbox1 bbox2 : BBox) : Double.t :=
  let x (b : BBox) := Double.ofQ (bbox_x b) in
  let y (b : BBox) := Double.ofQ (bbox_y b) in
  let width (b : BBox) := Double.ofQ (bbox_width b) in
  let height (b : BBox) := Double.ofQ (bbox_height b) in
  let x1 := Double.max' (x bbox1) (x bbox2) in
  let y1 := Double.max' (y bbox1) (y bbox2) in
  let x2 := Double.min' (Double.add' (x bbox1) (width bbox1))
                        (Double.add' (x bbox2) (width bbox2)) in
  let y2 := Double.min' (Double.add' (y bbox1) (height bbox1))
                        (Double.add' (y bbox2) (height bbox2)) in
  if Double.leb' x2 x1 || Double.leb' y2 y1 then Double.ofQ 0
  else
    let intersection := Double.mul' (Double.sub' x2 x1) (Double.sub' y2 y1) in
    let area1 := Double.mul' (width bbox1) (height bbox1) in
    let area2 := Double.mul' (width bbox2) (height bbox2) in
    let union := Double.sub' (Double.add' area1 area2) intersection in
    Double.div' intersection union.

(** The inner [for (j = i + 1; ...)] loop of [mergeOverlappingDetections]:
    [later] is the array from index [j] on and [current] is [detections[i]].
    Returns the candidates recorded in [overlapping] after the seed and the
    updated [used] set.  Both detection modules have this loop ([detection.js]
    pushes the detection, the earlier module pushes the index [j] and maps
    the indices to detections afterwards). *)
Fixpoint mergeInner (overlapThreshold : Q) (current : Detection) (j : nat)
    (later : list Detection) (used : gset nat) : list Detection * gset nat :=
  match later with
  | [] => ([], used)
  | dj :: later' =>
      if decide (j ∈ used) then mergeInner overlapThreshold current (S j) later' used
      else if Double.ltb' (Double.ofQ overlapThreshold)
                          (calculateOverlap (bbox current) (bbox dj))
              && bool_decide (label current = label dj)
      then
        let '(overlapping, used') :=
          mergeInner overlapThreshold current (S j) later' ({[j]} ∪ used) in
        (dj :: overlapping, used')
      else mergeInner overlapThreshold current (S j) later' used
  end.

(** [byLabel[detection.label].push(detection)] on an object used as a map
    from label to array, creating the entry at the end of the object's key
    order when it is missing ([Object.entries] and [Object.keys] enumerate
    the keys in that order). *)
Fixpoint byLabelPush (byLabel : list (Label * list Detection)) (detection : Detection)
    : list (Label * list Detection) :=
  match byLabel with
  | [] => [(label detection, [detection])]
  | (l, ds) :: others =>
      if decide (l = label detection) then (l, ds ++ [detection]) :: others
      else (l, ds) :: byLabelPush others detection
  end.

(** ** [backend/src/detection.js] *)

Module Current.

(** [PPE_COLORS.helmet], in the key order [Object.entries] enumerates. *)
Definition PPE_COLORS_helmet : list (string * ColorRange) :=
  [ ("green"%string, mkColorRange (20, 120)%Z (80, 180)%Z (20, 100)%Z);
    ("yellow"%string, mkColorRange (180, 255)%Z (180, 255)%Z (0, 100)%Z);
    ("darkBlue"%string, mkColorRange (0, 80)%Z (0, 80)%Z (80, 180)%Z);
    ("orange"%string, mkColorRange (200, 255)%Z (100, 180)%Z (0, 80)%Z) ].

Definition PPE_COLORS_helmet_darkBlue : ColorRange :=
  mkColorRange (0, 80)%Z (0, 80)%Z (80, 180)%Z.

Definition PPE_COLORS_vest_highVis : ColorRange :=
  mkColorRange (150, 255)%Z (150, 255)%Z (0, 120)%Z.

Definition isColorInRange (color : Rgb.t) (range : ColorRange) : bool :=
  (fst (range_r range) <=? Rgb.r color)%Z && (Rgb.r color <=? snd (range_r range))%Z
  && (fst (range_g range) <=? Rgb.g color)%Z && (Rgb.g color <=? snd (range_g range))%Z
  && (fst (range_b range) <=? Rgb.b color)%Z && (Rgb.b color <=? snd (range_b range))%Z.

(** [extractImageRegion]: the pixels of the window, row by row, clipped to
    the image; called with [0 <= x] and [0 <= y]. *)
Definition extractImageRegion (data : list Z) (width height x y w h : Z) : list Px.t :=
  let endX := Z.min (x + w) width in
  let endY := Z.min (y + h) height in
  flat_map (fun py =>
    flat_map (fun px =>
      let idx := ((py * width + px) * 4)%Z in
      if (idx + 3 <? Z.of_nat (List.length data))%Z
      then [Px.mk (Js.byteAt data idx) (Js.byteAt data (idx + 1))
                  (Js.byteAt data (idx + 2)) (Js.byteAt data (idx + 3))]
      else [])
      (Js.forRange x endX 1))
    (Js.forRange y endY 1).

(** [for (const pixel of pixels) total += f(pixel)], on integers and on
    doubles. *)
Definition totalOver (f : Px.t -> Z) (pixels : list Px.t) : Z :=
  fold_left (fun acc pixel => (acc + f pixel)%Z) pixels 0%Z.

Definition sumOver (f : Px.t -> Double.t) (pixels : list Px.t) : Double.t :=
  fold_left (fun acc pixel => Double.add' acc (f pixel)) pixels (Double.ofZ 0).

Definition channelSum (pixel : Px.t) : Z := (Px.r pixel + Px.g pixel + Px.b pixel)%Z.

(** [(pixel.r + pixel.g + pixel.b) / 3]. *)
Definition pixelBrightness (pixel : Px.t) : Double.t :=
  Double.div' (Double.ofZ (channelSum pixel)) (Double.ofZ 3).

Record ColorAnalysis : Set := mkColorAnalysis {
  dominant : Rgb.t;
  brightness : Double.t
}.

(** [analyzeColors].  The channel totals are integers, which the code adds
    without rounding; [Math.round(total / count)] is taken of the exact
    quotient, from which the double quotient differs by less than the
    distance of a quotient of that denominator to the next half.  The
    brightness is accumulated and divided in doubles. *)
Definition analyzeColors (pixels : list Px.t) : ColorAnalysis :=
  match pixels with
  | [] => mkColorAnalysis (Rgb.mk 0 0 0) (Double.ofZ 0)
  | _ :: _ =>
      let totalR := totalOver Px.r pixels in
      let totalG := totalOver Px.g pixels in
      let totalB := totalOver Px.b pixels in
      let brightness := sumOver pixelBrightness pixels in
      let count : Z := Z.of_nat (List.length pixels) in
      mkColorAnalysis
        (Rgb.mk (Js.round (totalR / count)) (Js.round (totalG / count))
                (Js.round (totalB / count)))
        (Double.div' (Double.div' brightness (Double.ofZ count)) (Double.ofZ 255))
  end.

Record ShapeAnalysis : Set := mkShapeAnalysis {
  roundness : Double.t;
  uniformity : Double.t;
  edgeDensity : Double.t
}.

(** [analyzeShape], called on a non-empty region.  When [centerPixels] is
    empty the source divides zero by zero and the comparison with the
    resulting NaN is false. *)
Definition analyzeShape (pixels : list Px.t) (blockSize : Z) : ShapeAnalysis :=
  let nonZero (ps : list Px.t) : Z :=
    Z.of_nat (List.length (List.filter (fun p => (30 <? channelSum p)%Z) ps)) in
  let n : Z := Z.of_nat (List.length pixels) in
  let coverage := Double.div' (Double.ofZ (nonZero pixels)) (Double.ofZ n) in
  let centerPixels :=
    Js.slice pixels (Double.floor' (Double.mul' (Double.ofZ n) (Double.ofQ 0.3)))
                    (Double.floor' (Double.mul' (Double.ofZ n) (Double.ofQ 0.7))) in
  let centerCoverage :=
    Double.div' (Double.ofZ (nonZero centerPixels))
                (Double.ofZ (Z.of_nat (List.length centerPixels))) in
  mkShapeAnalysis
    (if Double.ltb' (Double.mul' coverage (Double.ofQ 0.8)) centerCoverage
     then Double.ofQ 0.8 else Double.ofQ 0.4)
    coverage
    (if Double.ltb' (Double.ofQ 0.6) coverage then Double.ofQ 0.7 else Double.ofQ 0.3).

(** The rows of [analyzePattern]: the loop
    [for (i = 0; i < pixels.length; i += pixelsPerRow)] with the double
    [pixelsPerRow = Math.sqrt(pixels.length)], every turn pushing the mean
    brightness of [pixels.slice(i, i + pixelsPerRow)] ([slice] truncates its
    arguments).  The step is at least 1, so the loop makes at most
    [pixels.length] turns. *)
Fixpoint rowsFrom (turns : nat) (pixels : list Px.t) (pixelsPerRow i : Double.t)
    : list Double.t :=
  match turns with
  | O => []
  | S turns' =>
      if Double.ltb' i (Double.ofZ (Z.of_nat (List.length pixels))) then
        let next := Double.add' i pixelsPerRow in
        let row := Js.slice pixels (Double.floor' i) (Double.floor' next) in
        Double.div' (sumOver pixelBrightness row)
                    (Double.ofZ (Z.of_nat (List.length row)))
        :: rowsFrom turns' pixels pixelsPerRow next
      else []
  end.

Definition patternRows (pixels : list Px.t) : list Double.t :=
  rowsFrom (List.length pixels) pixels
           (Double.sqrt' (Double.ofZ (Z.of_nat (List.length pixels)))) (Double.ofZ 0).

(** The rows [rows[i]], [1 <= i < rows.length - 1], brighter than both
    neighbours by more than 50. *)
Fixpoint countStripes (rows : list Double.t) : nat :=
  match rows with
  | previous :: ((row :: next :: _) as tail) =>
      ((if Double.ltb' (Double.add' previous (Double.ofZ 50)) row
           && Double.ltb' (Double.add' next (Double.ofZ 50)) row then 1 else 0)
       + countStripes tail)%nat
  | _ => 0%nat
  end.

Record PatternAnalysis : Set := mkPatternAnalysis {
  hasReflectiveStripes : bool;
  hasHorizontalStripes : bool;
  stripeCount : nat
}.

Definition analyzePattern (pixels : list Px.t) (blockSize : Z) : PatternAnalysis :=
  let stripePatterns := countStripes (patternRows pixels) in
  mkPatternAnalysis (2 <=? stripePatterns)%nat (1 <=? stripePatterns)%nat stripePatterns.

Record HelmetAnalysis : Set := mkHelmetAnalysis {
  isHelmet : bool;
  helmetConfidence : Double.t;
  helmetColor : option string
}.

(** The first colour of [PPE_COLORS.helmet] whose range holds [color]. *)
Definition matchHelmetColor (color : Rgb.t) : option string :=
  option_map fst (List.find (fun entry => isColorInRange color (snd entry)) PPE_COLORS_helmet).

Definition analyzeHelmetRegion (regionPixels : list Px.t) (blockSize : Z) : HelmetAnalysis :=
  match regionPixels with
  | [] => mkHelmetAnalysis false (Double.ofZ 0) None
  | _ :: _ =>
      let colorAnalysis := analyzeColors regionPixels in
      let shapeAnalysis := analyzeShape regionPixels blockSize in
      let matched := matchHelmetColor (dominant colorAnalysis) in
      let confidence := Double.ofZ 0 in
      let confidence :=
        match matched with
        | Some _ => Double.add' confidence (Double.ofQ 0.4)
        | None => confidence
        end in
      let detectedColor := default "unknown"%string matched in
      let confidence :=
        if Double.ltb' (Double.ofQ 0.6) (roundness shapeAnalysis)
        then Double.add' confidence (Double.ofQ 0.3) else confidence in
      let confidence :=
        if Double.ltb' (Double.ofQ 0.7) (uniformity shapeAnalysis)
        then Double.add' confidence (Double.ofQ 0.2) else confidence in
      let confidence :=
        if Double.ltb' (Double.ofQ 0.5) (edgeDensity shapeAnalysis)
        then Double.add' confidence (Double.ofQ 0.1) else confidence in
      mkHelmetAnalysis (Double.ltb' (Double.ofQ 0.7) confidence)
                       (Double.min' confidence (Double.ofQ 0.95)) (Some detectedColor)
  end.

Record VestAnalysis : Set := mkVestAnalysis {
  isVest : bool;
  vestConfidence : Double.t;
  vestColor : option string
}.

Definition analyzeVestRegion (regionPixels : list Px.t) (blockSize : Z) : VestAnalysis :=
  match regionPixels with
  | [] => mkVestAnalysis false (Double.ofZ 0) None
  | _ :: _ =>
      let colorAnalysis := analyzeColors regionPixels in
      let patternAnalysis := analyzePattern regionPixels blockSize in
      let isHighVis := isColorInRange (dominant colorAnalysis) PPE_COLORS_vest_highVis in
      let confidence := Double.ofZ 0 in
      let confidence :=
        if isHighVis then Double.add' confidence (Double.ofQ 0.4) else confidence in
      let detectedColor := (if isHighVis then "high-vis" else "unknown")%string in
      let confidence :=
        if hasReflectiveStripes patternAnalysis
        then Double.add' confidence (Double.ofQ 0.3) else confidence in
      let confidence :=
        if hasHorizontalStripes patternAnalysis
        then Double.add' confidence (Double.ofQ 0.2) else confidence in
      let confidence :=
        if Double.ltb' (Double.ofQ 0.6) (brightness colorAnalysis)
        then Double.add' confidence (Double.ofQ 0.1) else confidence in
      mkVestAnalysis (Double.ltb' (Double.ofQ 0.65) confidence)
                     (Double.min' confidence (Double.ofQ 0.95)) (Some detectedColor)
  end.

(** [analyzeSkinTone]: the share of skin-toned pixels. *)
Definition isSkinPixel (pixel : Px.t) : bool :=
  (95 <? Px.r pixel)%Z && (40 <? Px.g pixel)%Z && (20 <? Px.b pixel)%Z
  && (Px.g pixel <? Px.r pixel)%Z && (Px.b pixel <? Px.r pixel)%Z
  && (15 <? Px.r pixel - Px.g pixel)%Z.

Definition analyzeSkinTone (pixels : list Px.t) : Q :=
  match pixels with
  | [] => 0
  | _ :: _ =>
      let skinPixels := Z.of_nat (List.length (List.filter isSkinPixel pixels)) in
      skinPixels / Z.of_nat (List.length pixels)
  end.

(** A scanned window with its score: [{ x, y, width, height, confidence }]. *)
Record Region : Set := mkRegion {
  region_x : Z;
  region_y : Z;
  region_width : Z;
  region_height : Z;
  region_confidence : Q
}.

Definition findPersonRegions (data : list Z) (width height : Z) : list Region :=
  let blockSize := 64%Z in
  let stride := 32%Z in
  flat_map (fun y =>
    flat_map (fun x =>
      let region := extractImageRegion data width height x y blockSize blockSize in
      let skinToneScore := analyzeSkinTone region in
      if Js.ltb 0.6 skinToneScore
      then [mkRegion x y blockSize blockSize skinToneScore]
      else [])
      (Js.forRange 0 (width - blockSize) stride))
    (Js.forRange 0 (height - blockSize) stride).

Record Uniformity : Set := mkUniformity {
  score : Q;
  uniformityColor : Rgb.t
}.

Definition analyzeUniformity (pixels : list Px.t) : Uniformity :=
  match pixels with
  | [] => mkUniformity 0 (Rgb.mk 0 0 0)
  | _ :: _ =>
      let avgColor := dominant (analyzeColors pixels) in
      let variance :=
        totalOver (fun pixel =>
          (Z.abs (Px.r pixel - Rgb.r avgColor) + Z.abs (Px.g pixel - Rgb.g avgColor)
           + Z.abs (Px.b pixel - Rgb.b avgColor))%Z) pixels in
      let avgVariance := variance / Z.of_nat (List.length pixels) in
      let uniformityScore := Qmax 0 (1 - avgVariance / 150) in
      mkUniformity uniformityScore avgColor
  end.

(** A full-body candidate of [findFullBodyPPE]. *)
Record FullBodyRegion : Set := mkFullBodyRegion {
  full_x : Z;
  full_y : Z;
  full_width : Z;
  full_height : Z;
  full_confidence : Q;
  hasHeadCovering : bool;
  hasBodyCovering : bool;
  headConfidence : Q;
  bodyConfidence : Q;
  headBbox : BBox;
  bodyBbox : BBox
}.

Definition findFullBodyPPE (data : list Z) (width height : Z) : list FullBodyRegion :=
  let largeBlockSize := 96%Z in
  let stride := 48%Z in
  flat_map (fun y : Z =>
    flat_map (fun x : Z =>
      let region := extractImageRegion data width height x y largeBlockSize largeBlockSize in
      let uniformity := analyzeUniformity region in
      if Js.ltb 0.7 (score uniformity) then
        let c := uniformityColor uniformity in
        let isDarkBlue := isColorInRange c PPE_COLORS_helmet_darkBlue in
        let isLightBlue :=
          (Rgb.r c <? Rgb.b c)%Z && (Rgb.g c <? Rgb.b c)%Z && (100 <? Rgb.b c)%Z in
        if isDarkBlue || isLightBlue then
          [mkFullBodyRegion x y largeBlockSize largeBlockSize (score uniformity)
             (Js.ltb y (height * 0.3))
             (Js.ltb (height * 0.2) y)
             (if Js.ltb y (height * 0.3) then 0.8 else 0.3)
             (if Js.ltb (height * 0.2) y then 0.8 else 0.3)
             (mkBBox (x / width) (y / height) (largeBlockSize / width)
                     ((largeBlockSize * 0.3) / height))
             (mkBBox (x / width) ((y + largeBlockSize * 0.3) / height)
                     (largeBlockSize / width) ((largeBlockSize * 0.7) / height))]
        else []
      else [])
      (Js.forRange 0 (width - largeBlockSize) stride))
    (Js.forRange 0 (height - largeBlockSize) stride).

(** [refineHelmetBounds] and [refineVestBounds]: a rectangle in pixels. *)
Definition refineHelmetBounds (data : list Z) (width height x y blockSize : Z) : BBox :=
  let expandedSize : Z := Js.floor (blockSize * 1.5) in
  let startX := Qmax 0 (x - blockSize * 0.25) in
  let startY := Qmax 0 (y - blockSize * 0.25) in
  mkBBox startX startY
         (Qmin expandedSize (width - startX))
         (Qmin expandedSize (height - startY)).

Definition refineVestBounds (data : list Z) (width height x y blockSize : Z) : BBox :=
  let expandedWidth : Z := Js.floor (blockSize * 1.8) in
  let expandedHeight : Z := Js.floor (blockSize * 1.2) in
  let startX := Qmax 0 (x - blockSize * 0.4) in
  let startY := Qmax 0 (y - blockSize * 0.1) in
  mkBBox startX startY
         (Qmin expandedWidth (width - startX))
         (Qmin expandedHeight (height - startY)).

(** [overlapping.reduce((best, det) => det.confidence > best.confidence ? det : best)]
    on the array [current :: overlapping]. *)
Definition bestDetection (current : Detection) (overlapping : list Detection) : Detection :=
  fold_left (fun best det => if Js.ltb (confidence best) (confidence det) then det else best)
            overlapping current.

(** The outer [for (i = 0; ...)] loop: [rest] is the array from index [i] on. *)
Fixpoint mergeLoop (overlapThreshold : Q) (i : nat) (rest : list Detection)
    (used : gset nat) : list Detection :=
  match rest with
  | [] => []
  | current :: rest' =>
      if decide (i ∈ used) then mergeLoop overlapThreshold (S i) rest' used
      else
        let '(overlapping, used') :=
          mergeInner overlapThreshold current (S i) rest' ({[i]} ∪ used) in
        (match overlapping with
         | [] => current
         | _ :: _ => bestDetection current overlapping
         end) :: mergeLoop overlapThreshold (S i) rest' used'
  end.

Definition mergeOverlappingDetections (detections : list Detection)
    (overlapThreshold : Q) : list Detection :=
  if (List.length detections <=? 1)%nat then detections
  else mergeLoop overlapThreshold 0 detections ∅.

(** The same walk, returning the [overlapping] array of every iteration
    (seed first): the overlap clusters. *)
Fixpoint clustersLoop (overlapThreshold : Q) (i : nat) (rest : list Detection)
    (used : gset nat) : list (list Detection) :=
  match rest with
  | [] => []
  | current :: rest' =>
      if decide (i ∈ used) then clustersLoop overlapThreshold (S i) rest' used
      else
        let '(overlapping, used') :=
          mergeInner overlapThreshold current (S i) rest' ({[i]} ∪ used) in
        (current :: overlapping) :: clustersLoop overlapThreshold (S i) rest' used'
  end.

Definition clusters (detections : list Detection) (overlapThreshold : Q)
    : list (list Detection) :=
  clustersLoop overlapThreshold 0 detections ∅.

(** What the loop body pushes to [merged] for one [overlapping] array. *)
Definition representative (cluster : list Detection) : option Detection :=
  match cluster with
  | [] => None
  | current :: overlapping => Some (bestDetection current overlapping)
  end.

Definition filterAndMergeDetections (detections : list Detection) : list Detection :=
  let filtered := List.filter (fun d => Js.ltb 0.6 (confidence d)) detections in
  let byLabel := fold_left byLabelPush filtered [] in
  let merged :=
    List.concat (List.map (fun entry => mergeOverlappingDetections (snd entry) 0.3) byLabel) in
  sortByConfidence merged.

Definition detectPerson (data : list Z) (width height : Z) : list Detection :=
  flat_map (fun region =>
    if Js.ltb 0.6 (region_confidence region)
    then [mkDetection person (region_confidence region) None
            (mkBBox (region_x region / width) (region_y region / height)
                    (region_width region / width) (region_height region / height))]
    else [])
    (findPersonRegions data width height).

Definition detectHelmets (data : list Z) (width height : Z) : list Detection :=
  let searchHeight := Js.floor (height * 0.5) in
  let blockSize := 32%Z in
  let stride := 16%Z in
  let detections :=
    flat_map (fun y =>
      flat_map (fun x =>
        let region := extractImageRegion data width height x y blockSize blockSize in
        let helmetAnalysis := analyzeHelmetRegion region blockSize in
        if isHelmet helmetAnalysis
           && Double.ltb' (Double.ofQ 0.7) (helmetConfidence helmetAnalysis) then
          let refinedBounds := refineHelmetBounds data width height x y blockSize in
          [mkDetection helmet (Double.toQ (helmetConfidence helmetAnalysis))
             (helmetColor helmetAnalysis)
             (mkBBox (bbox_x refinedBounds / width) (bbox_y refinedBounds / height)
                     (bbox_width refinedBounds / width) (bbox_height refinedBounds / height))]
        else [])
        (Js.forRange 0 (width - blockSize) stride))
      (Js.forRange 0 searchHeight stride) in
  mergeOverlappingDetections detections 0.3.

Definition detectVests (data : list Z) (width height : Z) : list Detection :=
  let searchStartY := Js.floor (height * 0.2) in
  let searchHeight := Js.floor (height * 0.6) in
  let blockSize := 48%Z in
  let stride := 24%Z in
  let detections :=
    flat_map (fun y =>
      flat_map (fun x =>
        let region := extractImageRegion data width height x y blockSize blockSize in
        let vestAnalysis := analyzeVestRegion region blockSize in
        if isVest vestAnalysis
           && Double.ltb' (Double.ofQ 0.65) (vestConfidence vestAnalysis) then
          let refinedBounds := refineVestBounds data width height x y blockSize in
          [mkDetection vest (Double.toQ (vestConfidence vestAnalysis))
             (vestColor vestAnalysis)
             (mkBBox (bbox_x refinedBounds / width) (bbox_y refinedBounds / height)
                     (bbox_width refinedBounds / width) (bbox_height refinedBounds / height))]
        else [])
        (Js.forRange 0 (width - blockSize) stride))
      (Js.forRange searchStartY (searchStartY + searchHeight) stride) in
  mergeOverlappingDetections detections 0.4.

Definition detectFullPPE (data : list Z) (width height : Z) : list Detection :=
  flat_map (fun region =>
    if Js.ltb 0.7 (full_confidence region)
       && (hasHeadCovering region && hasBodyCovering region)
    then [mkDetection helmet (headConfidence region) None (headBbox region);
          mkDetection vest (bodyConfidence region) None (bodyBbox region)]
    else [])
    (findFullBodyPPE data width height).

(** The body of [detectPPEObjects] once the pixels are read: the four
    detectors in turn, pushed to one array, then the final assembly. *)
Definition detectFromPixels (data : list Z) (width height : Z) : list Detection :=
  filterAndMergeDetections
    (detectPerson data width height ++ detectHelmets data width height
     ++ detectVests data width height ++ detectFullPPE data width height).

(** [detectPPEObjects]: any error of the decoder is caught and the empty
    array returned. *)
Definition detectPPEObjects (source : PixelSource) (imagePath : string)
    (width height : Z) : list Detection :=
  match getImageData source imagePath width height with
  | None => []
  | Some data => detectFromPixels data width height
  end.

Record Analysis : Set := mkAnalysis {
  hasHelmet : bool;
  hasHighVisVest : bool;
  hasFullPPE : bool;
  hasPerson : bool;
  detections : list Detection;
  confidenceHelmet : Q;
  confidenceVest : Q;
  confidencePerson : Q;
  analysisWidth : Z;
  analysisHeight : Z
}.

(** [has ? Math.max(...detections.filter(label).map(confidence)) : 0]. *)
Definition maxConfidence (l : Label) (ds : list Detection) : Q :=
  match List.map confidence (List.filter (fun d => bool_decide (label d = l)) ds) with
  | [] => 0
  | c :: cs => Js.maxOf c cs
  end.

Definition analyzeImageForPPE (source : PixelSource) (imagePath : string) : Analysis :=
  match getImageInfo source imagePath with
  | None => mkAnalysis false false false false [] 0 0 0 800 600
  | Some (width, height) =>
      let detections := detectPPEObjects source imagePath width height in
      let has (l : Label) := existsb (fun d => bool_decide (label d = l)) detections in
      mkAnalysis (has helmet) (has vest) (has helmet && has vest) (has person) detections
        (maxConfidence helmet detections) (maxConfidence vest detections)
        (maxConfidence person detections) width height
  end.

Definition detectPPE (source : PixelSource) (imagePath : string) : list Detection :=
  detections (analyzeImageForPPE source imagePath).

(** The object [generateDetectionHash] maps a detection to: [toFixed] reads
    the doubles that the fields of the detection denote. *)
Record HashData : Set := mkHashData {
  hash_label : string;
  hash_confidence : string;
  hash_x : string;
  hash_y : string;
  hash_width : string;
  hash_height : string
}.

Definition hashData (d : Detection) : HashData :=
  mkHashData (labelName (label d)) (Js.toFixed 2 (Double.round (confidence d)))
    (Js.toFixed 3 (Double.round (bbox_x (bbox d))))
    (Js.toFixed 3 (Double.round (bbox_y (bbox d))))
    (Js.toFixed 3 (Double.round (bbox_width (bbox d))))
    (Js.toFixed 3 (Double.round (bbox_height (bbox d)))).

Definition quote : string := String "034"%char EmptyString.

(** [JSON.stringify] of a string without characters that need escaping
    (label names and [toFixed] results have none). *)
Definition jsonString (s : string) : string := (quote ++ s ++ quote)%string.

Definition jsonMember (key value : string) : string :=
  (jsonString key ++ ":" ++ value)%string.

Definition jsonHashData (h : HashData) : string :=
  ("{" ++ jsonMember "label" (jsonString (hash_label h))
   ++ "," ++ jsonMember "confidence" (jsonString (hash_confidence h))
   ++ "," ++ jsonMember "bbox"
        ("{" ++ jsonMember "x" (jsonString (hash_x h))
         ++ "," ++ jsonMember "y" (jsonString (hash_y h))
         ++ "," ++ jsonMember "width" (jsonString (hash_width h))
         ++ "," ++ jsonMember "height" (jsonString (hash_height h)) ++ "}")
   ++ "}")%string.

(** [JSON.stringify(hashData)] for the array of objects. *)
Definition jsonStringify (hs : list HashData) : string :=
  ("[" ++ Js.join "," (List.map jsonHashData hs) ++ "]")%string.

Definition generateDetectionHash (detections : list Detection) : string :=
  Md5.md5hex (jsonStringify (List.map hashData detections)).

End Current.

(** ** The earlier detection module *)

Module Legacy.

(** [createMergedDetection(boxes)], [boxes] being [best] followed by
    [others]: the union box of the cluster and a raised confidence. *)
Definition createMergedDetection (best : Detection) (others : list Detection) : Detection :=
  let right (d : Detection) := bbox_x (bbox d) + bbox_width (bbox d) in
  let bottom (d : Detection) := bbox_y (bbox d) + bbox_height (bbox d) in
  let minX := Js.minOf (bbox_x (bbox best)) (List.map (fun d => bbox_x (bbox d)) others) in
  let minY := Js.minOf (bbox_y (bbox best)) (List.map (fun d => bbox_y (bbox d)) others) in
  let maxX := Js.maxOf (right best) (List.map right others) in
  let maxY := Js.maxOf (bottom best) (List.map bottom others) in
  mkDetection (label best) (Qmin 0.98 (confidence best + 0.02)) None
    (mkBBox minX minY (maxX - minX) (maxY - minY)).

Fixpoint mergeLoop (threshold : Q) (i : nat) (rest : list Detection)
    (used : gset nat) : list Detection :=
  match rest with
  | [] => []
  | current :: rest' =>
      if decide (i ∈ used) then mergeLoop threshold (S i) rest' used
      else
        let '(overlapping, used') :=
          mergeInner threshold current (S i) rest' ({[i]} ∪ used) in
        (match overlapping with
         | [] => current
         | _ :: _ => createMergedDetection current overlapping
         end) :: mergeLoop threshold (S i) rest' used'
  end.

(** [mergeOverlappingDetections]: sorts the array (in place) and walks it. *)
Definition mergeOverlappingDetections (detections : list Detection) (threshold : Q)
    : list Detection :=
  match detections with
  | [] => []
  | _ :: _ => mergeLoop threshold 0 (sortByConfidence detections) ∅
  end.

(** [maxPerClass]; the source's [|| 3] serves labels outside the table, of
    which [Label] has none. *)
Definition maxPerClass (l : Label) : nat :=
  match l with
  | helmet => 2
  | vest => 2
  | person => 1
  end.

Definition limitDetectionsPerClass (detections : list Detection) : list Detection :=
  let grouped := fold_left byLabelPush detections [] in
  List.concat
    (List.map (fun entry =>
                 firstn (maxPerClass (fst entry)) (sortByConfidence (snd entry)))
              grouped).

(** [fallbackDetection]: boxes in pixels of the [width] x [height] image. *)
Definition fallbackDetection (imagePath : string) (width height : Z) : list Detection :=
  let filename := Js.toLowerCase imagePath in
  (if Js.includes filename "helmet"
   then [mkDetection helmet 0.75 None
           (mkBBox (width * 0.2) (height * 0.1) (width * 0.6) (height * 0.4))]
   else [])
  ++
  (if Js.includes filename "vest"
   then [mkDetection vest 0.75 None
           (mkBBox (width * 0.1) (height * 0.3) (width * 0.8) (height * 0.5))]
   else []).

(** The end of the earlier [detectPPEObjects].  The repository's copy lacks
    the beginning of its [try] block, whose outcome is the parameter
    [scanned]: the detections collected, or [None] when it throws. *)
Definition detectPPEObjects (scanned : option (list Detection)) (imagePath : string)
    (width height : Z) : list Detection :=
  match scanned with
  | Some detections => detections
  | None => fallbackDetection imagePath width height
  end.

(** The earlier [detectPPE], from the fields [detections], [width] and
    [height] of the record [analyzeImageForPPE] returns: limit per class,
    then divide the boxes by the image size. *)
Definition normalize (width height : Z) (detection : Detection) : Detection :=
  mkDetection (label detection) (confidence detection) (color detection)
    (mkBBox (bbox_x (bbox detection) / width) (bbox_y (bbox detection) / height)
            (bbox_width (bbox detection) / width) (bbox_height (bbox detection) / height)).

Definition detectPPE (detections : list Detection) (width height : Z) : list Detection :=
  List.map (normalize width height) (limitDetectionsPerClass detections).

(** The region record of [extractRegion], as far as the helmet scorer
    reads it. *)
Record RegionData : Set := mkRegionData {
  pixels : list Rgb.t;
  avgColor : Rgb.t;
  colorVariance : Q;
  edgeIntensity : Q;
  roundness : Q;
  centerY : Q;
  imageHeight : Z
}.

Definition isValidHelmetColor (color : Rgb.t) : bool :=
  let r := Rgb.r color in
  let g := Rgb.g color in
  let b := Rgb.b color in
  if (200 <? r)%Z && (200 <? g)%Z && (200 <? b)%Z then true
  else if (200 <? r)%Z && (180 <? g)%Z && (b <? 120)%Z then true
  else if (220 <? r)%Z && (140 <? g)%Z && (g <? 200)%Z && (b <? 100)%Z then true
  else if (150 <? b)%Z && (r + 40 <? b)%Z && (g + 40 <? b)%Z then true
  else if (180 <? r)%Z && (g + 60 <? r)%Z && (b + 60 <? r)%Z then true
  else if (150 <? g)%Z && (r + 40 <? g)%Z && (b + 40 <? g)%Z then true
  else false.

(** [analyzeHelmetRegion(regionData)]; [None] is the [null] that
    [extractRegion] returns for an empty window.  The measures of the region
    are taken as the doubles they denote and the score is summed in
    doubles. *)
Definition analyzeHelmetRegion (regionData : option RegionData) : bool * Double.t :=
  match regionData with
  | None => (false, Double.ofZ 0)
  | Some region =>
      match pixels region with
      | [] => (false, Double.ofZ 0)
      | _ :: _ =>
          let confidence := Double.ofZ 0 in
          let isHelmetColor := isValidHelmetColor (avgColor region) in
          let confidence :=
            if isHelmetColor then Double.add' confidence (Double.ofQ 0.4) else confidence in
          let isUniform := Double.ltb (colorVariance region) 0.3 in
          let confidence :=
            if isUniform then Double.add' confidence (Double.ofQ 0.3) else confidence in
          let confidence :=
            if Double.ltb 0.6 (roundness region)
            then Double.add' confidence (Double.ofQ 0.25) else confidence in
          let confidence :=
            if Double.ltb 0.3 (edgeIntensity region) && Double.ltb (edgeIntensity region) 0.8
            then Double.add' confidence (Double.ofQ 0.15) else confidence in
          let isTopRegion :=
            Double.ltb' (Double.ofQ (centerY region))
                        (Double.mul' (Double.ofZ (imageHeight region)) (Double.ofQ 0.4)) in
          let confidence :=
            if isTopRegion then Double.add' confidence (Double.ofQ 0.1) else confidence in
          (Double.ltb' (Double.ofQ 0.7) confidence, Double.min' (Double.ofQ 0.98) confidence)
      end
  end.

(** The earlier [generateDetectionHash]. *)
Definition generateDetectionHash (detections : list Detection) : string :=
  Md5.md5hex
    (Js.join "|"
       (List.map (fun d =>
            (labelName (label d) ++ "-" ++ Js.toFixed 2 (confidence d)
             ++ "-" ++ Js.toFixed 2 (bbox_x (bbox d))
             ++ "-" ++ Js.toFixed 2 (bbox_y (bbox d)))%string)
          detections)).

End Legacy.

(** ** The region scorers of the earlier module *)

Module LegacyRegion.

(** The record that [extractRegion] returns. *)
Record t : Set := mk {
  pixels : list Rgb.t;
  avgColor : Rgb.t;
  colorVariance : Q;
  edgeIntensity : Q;
  stripeProbability : Q;
  reflectiveElements : Q;
  roundness : Q;
  centerX : Q;
  centerY : Q;
  width : Z;
  height : Z;
  imageWidth : Z;
  imageHeight : Z
}.

Definition isValidVestColor (color : Rgb.t) : bool :=
  let r := Rgb.r color in
  let g := Rgb.g color in
  let b := Rgb.b color in
  if (200 <? r)%Z && (120 <? g)%Z && (g <? 180)%Z && (b <? 120)%Z then true
  else if (180 <? r)%Z && (180 <? g)%Z && (b <? 140)%Z then true
  else if (200 <? g)%Z && (r <? 150)%Z && (b <? 150)%Z then true
  else false.

(** [analyzeVestRegion(regionData)]; [None] is the [null] that
    [extractRegion] returns for an empty window.  For a region of height 0
    the source's [aspectRatio] is infinite or NaN and fails the test on it;
    so does the quotient 0 that the rational division gives. *)
Definition analyzeVestRegion (regionData : option t) : bool * Q :=
  match regionData with
  | None => (false, 0)
  | Some region =>
      match pixels region with
      | [] => (false, 0)
      | _ :: _ =>
          let confidence : Q := 0 in
          let isHighVisColor := isValidVestColor (avgColor region) in
          let confidence := if isHighVisColor then confidence + 0.4 else confidence in
          let confidence :=
            if Js.ltb 0.5 (stripeProbability region) then confidence + 0.35 else confidence in
          let confidence :=
            if Js.ltb 0.3 (reflectiveElements region) then confidence + 0.25 else confidence in
          let isTorsoRegion :=
            Js.ltb (imageHeight region * 0.25) (centerY region)
            && Js.ltb (centerY region) (imageHeight region * 0.75) in
          let confidence := if isTorsoRegion then confidence + 0.15 else confidence in
          let aspectRatio : Q := width region / height region in
          let confidence :=
            if Js.ltb 0.6 aspectRatio && Js.ltb aspectRatio 2
            then confidence + 0.1 else confidence in
          let confidence :=
            if Js.ltb (colorVariance region) 0.1 && Js.ltb (stripeProbability region) 0.2
            then confidence * 0.6 else confidence in
          (Js.ltb 0.7 confidence, Qmin 0.96 confidence)
      end
  end.

(** [findObjectBounds]: a box in pixels around the seed point; the size 100
    is the source's default for an object type other than helmet and vest. *)
Definition findObjectBounds (width height seedX seedY : Z) (objectType : Label) : BBox :=
  let regionSize : Q :=
    match objectType with
    | helmet => 80
    | vest => 120
    | person => 100
    end in
  mkBBox (Qmax 0 (seedX - regionSize / 2)) (Qmax 0 (seedY - regionSize / 2))
         (Qmin regionSize (width - seedX + regionSize / 2))
         (Qmin regionSize (height - seedY + regionSize / 2)).

(** The pixels that [analyzeFullImage] reads off the byte array, four bytes
    at a time; [None] is a pixel with an [undefined] channel, which the last
    one is when one or two bytes are left over. *)
Fixpoint rgbPixels (imageData : list Z) : list (option Rgb.t) :=
  match imageData with
  | [] => []
  | r :: g :: b :: _ :: rest => Some (Rgb.mk r g b) :: rgbPixels rest
  | [r; g; b] => [Some (Rgb.mk r g b)]
  | _ => [None]
  end.

Definition pixelBrightness (pixel : Rgb.t) : Q :=
  (Rgb.r pixel + Rgb.g pixel + Rgb.b pixel)%Z / 3.

(** [avgBrightness]; [None] is NaN: the sum over a pixel with an undefined
    channel, or the quotient of an empty image.  The running total is kept
    in lowest terms, which does not change its value. *)
Definition averageBrightness (pixels : list (option Rgb.t)) : option Q :=
  let total :=
    fold_left (fun sum pixel =>
                 match sum, pixel with
                 | Some s, Some p => Some (Qred (s + pixelBrightness p))
                 | _, _ => None
                 end) pixels (Some 0) in
  match pixels, total with
  | _ :: _, Some s => Some (s / Z.of_nat (List.length pixels))
  | _, _ => None
  end.

Record FullImage : Set := mkFullImage {
  hasSkinTones : bool;
  hasClothingColors : bool;
  sceneComplexity : Q;
  colorUniformity : Q;
  distinctRegions : Z
}.

(** [analyzeFullImage]; every comparison with NaN is false. *)
Definition analyzeFullImage (imageData : list Z) (width height : Z) : FullImage :=
  let pixels := rgbPixels imageData in
  let avgBrightness := averageBrightness pixels in
  let hasVariation :=
    match avgBrightness with
    | None => false
    | Some avg =>
        existsb (fun pixel =>
                   match pixel with
                   | Some p => Js.ltb 50 (Qabs (pixelBrightness p - avg))
                   | None => false
                   end) pixels
    end in
  mkFullImage
    (match avgBrightness with
     | None => false
     | Some avg => Js.ltb 80 avg && Js.ltb avg 200
     end)
    hasVariation
    (if hasVariation then 0.6 else 0.3)
    (if hasVariation then 0.4 else 0.8)
    3.

Definition analyzeForPersonPresence (imageData : list Z) (width height : Z) : bool * Q :=
  let analysis := analyzeFullImage imageData width height in
  let confidence : Q := 0.2 in
  let confidence := if hasSkinTones analysis then confidence + 0.25 else confidence in
  let confidence := if hasClothingColors analysis then confidence + 0.2 else confidence in
  let confidence :=
    if Js.ltb 0.4 (sceneComplexity analysis) then confidence + 0.2 else confidence in
  let confidence := if Js.ltb (width * 1.2) height then confidence + 0.1 else confidence in
  let confidence := if (2 <? distinctRegions analysis)%Z then confidence + 0.15 else confidence in
  let confidence :=
    if Js.ltb 0.8 (colorUniformity analysis) then confidence * 0.4 else confidence in
  (Js.ltb 0.5 confidence, Qmin 0.92 confidence).

(** The earlier [detectPerson]: one box over the middle of the image, in
    pixels. *)
Definition detectPerson (imageData : list Z) (width height : Z) : list Detection :=
  let personScore := analyzeForPersonPresence imageData width height in
  if fst personScore
  then [mkDetection person (snd personScore) None
          (mkBBox (Js.floor (width * 0.1)) (Js.floor (height * 0.1))
                  (Js.floor (width * 0.8)) (Js.floor (height * 0.8)))]
  else [].

End LegacyRegion.

(** ** [frontend/src/pages] *)

(** [detections.some(d => d.label === l)]. *)
Definition someLabel (l : Label) (detections : list Detection) : bool :=
  existsb (fun d => bool_decide (label d = l)) detections.

Module Analytics.

Record Stats : Set := mkStats {
  totalImages : nat;
  helmetDetections : nat;
  vestDetections : nat;
  personDetections : nat;
  safeImages : nat;
  unsafeImages : nat
}.

(** The counters of [fetchAnalytics]: [helmetCount], [vestCount],
    [personCount], [safeCount] and [unsafeCount]. *)
Record Counters : Set := mkCounters {
  helmetCount : nat;
  vestCount : nat;
  personCount : nat;
  safeCount : nat;
  unsafeCount : nat
}.

(** The body of the loop, for the detections fetched for one image. *)
Definition countImage (counters : Counters) (detections : list Detection) : Counters :=
  let hasHelmet := someLabel helmet detections in
  let hasVest := someLabel vest detections in
  let hasPerson := someLabel person detections in
  mkCounters
    (if hasHelmet then S (helmetCount counters) else helmetCount counters)
    (if hasVest then S (vestCount counters) else vestCount counters)
    (if hasPerson then S (personCount counters) else personCount counters)
    (if hasHelmet && hasVest then S (safeCount counters) else safeCount counters)
    (if hasHelmet && hasVest then unsafeCount counters else S (unsafeCount counters)).

(** [fetchAnalytics] when every request succeeds: [images] holds, image by
    image, the detections that the server returns. *)
Definition fetchAnalytics (images : list (list Detection)) : Stats :=
  let counters := fold_left countImage images (mkCounters 0 0 0 0 0) in
  mkStats (List.length images) (helmetCount counters) (vestCount counters)
          (personCount counters) (safeCount counters) (unsafeCount counters).

End Analytics.

Module Result.

(** What [drawDetections] draws for one detection on an image of
    [imgWidth] x [imgHeight] pixels: the stroked rectangle, the top of the
    label background and the baseline of the label text. *)
Record Drawing : Set := mkDrawing {
  strokeColor : string;
  strokeRect : BBox;
  labelBgY : Q;
  labelY : Q
}.

Definition labelColor (l : Label) : string :=
  match l with
  | helmet => "#48bb78"
  | vest => "#ed8936"
  | person => "#4299e1"
  end.

Definition drawDetection (imgWidth imgHeight : Z) (detection : Detection) : Drawing :=
  let x := bbox_x (bbox detection) * imgWidth in
  let y := bbox_y (bbox detection) * imgHeight in
  let width := bbox_width (bbox detection) * imgWidth in
  let height := bbox_height (bbox detection) * imgHeight in
  let textHeight : Q := 25 in
  mkDrawing (labelColor (label detection)) (mkBBox x y width height)
    (if Js.ltb textHeight y then y - textHeight else y)
    (if Js.ltb textHeight y then y - 5 else y + textHeight).

Definition safetyCompliant (detections : list Detection) : bool :=
  someLabel helmet detections && someLabel vest detections.

End Result.

(** ** [backend/src/routes/images.js]: the upload handler *)

Module Upload.

(** A row of the table [images] and a row of the table [detections], with
    the columns that the handler writes and reads. *)
Record ImageRow : Set := mkImageRow {
  row_id : string;
  row_filename : string;
  row_filepath : string;
  row_detections_hash : string;
  row_file_hash : string;
  row_idempotency_key : option string
}.

Record DetectionRow : Set := mkDetectionRow {
  row_image_id : string;
  row_label : Label;
  row_confidence : Q;
  row_bbox : BBox
}.

(** The two tables, in insertion order. *)
Record Store : Set := mkStore {
  images : list ImageRow;
  detections : list DetectionRow
}.

(** [req.file] as the upload middleware leaves it, and the request. *)
Record File : Set := mkFile {
  filename : string;
  filepath : string
}.

Record Request : Set := mkRequest {
  file : option File;
  idempotencyKey : option string
}.

(** What the handler takes from its surroundings: the image decoder, the
    bytes of the files on disk and the identifier that [uuidv4()] returns. *)
Record World : Type := mkWorld {
  source : PixelSource;
  readFile : string -> list Z;
  uuid : string
}.

(** A detection as the response reports it. *)
Record Reported : Set := mkReported {
  reported_label : Label;
  reported_confidence : string;
  reported_bbox : BBox
}.

Inductive Response : Set :=
| FieldRequired
| Answer (status : Z) (id filename detections_hash : string)
         (detections : list Reported) (message : string).

Definition generateFileHash (world : World) (filePath : string) : string :=
  Md5.hex (Md5.digest (readFile world filePath)).

(** [db.get('SELECT * FROM images WHERE ... = ?')]: the first matching row. *)
Definition imageByKey (store : Store) (key : string) : option ImageRow :=
  List.find (fun row => bool_decide (row_idempotency_key row = Some key)) (images store).

Definition imageByFileHash (store : Store) (fileHash : string) : option ImageRow :=
  List.find (fun row => bool_decide (row_file_hash row = fileHash)) (images store).

(** [db.all('SELECT * FROM detections WHERE image_id = ?')]. *)
Definition detectionsOf (store : Store) (imageId : string) : list DetectionRow :=
  List.filter (fun row => bool_decide (row_image_id row = imageId)) (detections store).

Definition reportRow (row : DetectionRow) : Reported :=
  mkReported (row_label row) (Js.toFixed 2 (row_confidence row)) (row_bbox row).

Definition reportDetection (detection : Detection) : Reported :=
  mkReported (label detection) (Js.toFixed 2 (confidence detection)) (bbox detection).

Definition existingAnswer (store : Store) (existing : ImageRow) (message : string)
    : Response :=
  Answer 200 (row_id existing) (row_filename existing) (row_detections_hash existing)
    (List.map reportRow (detectionsOf store (row_id existing))) message.

(** [if (idempotencyKey)]: a header that is present and not empty. *)
Definition givenKey (request : Request) : option string :=
  match idempotencyKey request with
  | Some EmptyString => None
  | key => key
  end.

(** The handler of [POST /api/images] when the database and the file
    system raise no error: the response, the tables afterwards and the file
    that the handler deletes. *)
Definition post (world : World) (store : Store) (request : Request)
    : Response * Store * option string :=
  match file request with
  | None => (FieldRequired, store, None)
  | Some upload =>
      let fileHash := generateFileHash world (filepath upload) in
      match
        match givenKey request with
        | Some key => imageByKey store key
        | None => None
        end
      with
      | Some existingRequest =>
          (existingAnswer store existingRequest
             "Idempotent request - returning existing results",
           store, Some (filepath upload))
      | None =>
          match imageByFileHash store fileHash with
          | Some existingImage =>
              (existingAnswer store existingImage
                 "Duplicate file detected, returning existing results",
               store, Some (filepath upload))
          | None =>
              let imageId := uuid world in
              let detected := Current.detectPPE (source world) (filepath upload) in
              let detectionsHash := Current.generateDetectionHash detected in
              (Answer 201 imageId (filename upload) detectionsHash
                 (List.map reportDetection detected)
                 "Image uploaded and processed successfully",
               mkStore
                 (images store
                  ++ [mkImageRow imageId (filename upload) (filepath upload)
                        detectionsHash fileHash (idempotencyKey request)])
                 (detections store
                  ++ List.map (fun detection =>
                                 mkDetectionRow imageId (label detection)
                                   (confidence detection) (bbox detection)) detected),
               None)
          end
      end
  end.

End Upload.

(** ** Specification vocabulary *)

(** The candidates of [rest] (the array from index [i] on) whose index is not
    in [used]: those the walk has not consumed yet. *)
Fixpoint unusedFrom (i : nat) (rest : list Detection) (used : gset nat) : list Detection :=
  match rest with
  | [] => []
  | d :: rest' =>
      if decide (i ∈ used) then unusedFrom (S i) rest' used
      else d :: unusedFrom (S i) rest' used
  end.

(** The test that lets a candidate join the cluster of a seed: a computed
    overlap above the threshold and the seed's label. *)
Definition joins (threshold : Q) (seed candidate : Detection) : bool :=
  Double.ltb' (Double.ofQ threshold) (calculateOverlap (bbox seed) (bbox candidate))
  && bool_decide (label seed = label candidate).

(** The overlap clusters of a list of candidates, as the specification
    describes greedy suppression: the first candidate seeds a cluster, which
    takes every later candidate that joins it; the candidates left over are
    clustered in the same way.  Every round takes at least the seed, so as
    many rounds as there are candidates cluster them all. *)
Fixpoint clustersOf (rounds : nat) (threshold : Q) (pending : list Detection)
    : list (list Detection) :=
  match rounds, pending with
  | S rounds', seed :: later =>
      (seed :: List.filter (joins threshold seed) later)
      :: clustersOf rounds' threshold
           (List.filter (fun candidate => negb (joins threshold seed candidate)) later)
  | _, _ => []
  end.

Definition overlapClusters (threshold : Q) (detections : list Detection)
    : list (list Detection) :=
  clustersOf (List.length detections) threshold detections.

(** The intersection over union of two boxes as a ratio of exact areas: the
    number that [calculateOverlap] computes in doubles. *)
Definition intersectionOverUnion (bbox1 bbox2 : BBox) : Q :=
  let x1 := Qmax (bbox_x bbox1) (bbox_x bbox2) in
  let y1 := Qmax (bbox_y bbox1) (bbox_y bbox2) in
  let x2 := Qmin (bbox_x bbox1 + bbox_width bbox1) (bbox_x bbox2 + bbox_width bbox2) in
  let y2 := Qmin (bbox_y bbox1 + bbox_height bbox1) (bbox_y bbox2 + bbox_height bbox2) in
  if Js.leb x2 x1 || Js.leb y2 y1 then 0
  else
    let intersection := (x2 - x1) * (y2 - y1) in
    intersection
    / (bbox_width bbox1 * bbox_height bbox1 + bbox_width bbox2 * bbox_height bbox2
       - intersection).

(** Descending confidence order, element to element. *)
Definition descending (ds : list Detection) : Prop :=
  Sorted (fun a b => confidence b <= confidence a) ds.

(** Every label keys at most one group, and a group holds detections of its
    key only. *)
Definition wellGrouped (byLabel : list (Label * list Detection)) : Prop :=
  NoDup (List.map fst byLabel)
  /\ Forall (fun entry => Forall (fun d => label d = fst entry) (snd entry)) byLabel.

(** What [limitDetectionsPerClass] keeps of one group: the [maxCount] first
    detections of the sorted group. *)
Definition limited (entry : Label * list Detection) : list Detection :=
  firstn (Legacy.maxPerClass (fst entry)) (sortByConfidence (snd entry)).

(** A failure of the decoder on a file: the metadata cannot be read, or the
    pixels cannot. *)
Definition decodeFails (source : PixelSource) (imagePath : string) : Prop :=
  match getImageInfo source imagePath with
  | None => True
  | Some (width, height) => getImageData source imagePath width height = None
  end.

(** A sum of gate weights: the weights of the gates that hold, added in
    doubles from 0 in the order of the list, as the code adds them, and
    their sum as an exact number. *)
Definition weightedSum (gates : list (bool * Q)) : Double.t :=
  fold_left (fun (total : Double.t) (gate : bool * Q) =>
               if fst gate then Double.add' total (Double.ofQ (snd gate)) else total)
            gates (Double.ofZ 0).

Definition exactSum (gates : list (bool * Q)) : Q :=
  fold_left (fun (total : Q) (gate : bool * Q) =>
               if fst gate then total + snd gate else total)
            gates 0.

(** The gates of the helmet scorer of [detection.js] with their weights,
    and its score as a sum of gate weights. *)
Definition helmetGatesOfShape (inHelmetColorRange : bool)
    (shape : Current.ShapeAnalysis) : list (bool * Q) :=
  [ (inHelmetColorRange, 0.4);
    (Double.ltb' (Double.ofQ 0.6) (Current.roundness shape), 0.3);
    (Double.ltb' (Double.ofQ 0.7) (Current.uniformity shape), 0.2);
    (Double.ltb' (Double.ofQ 0.5) (Current.edgeDensity shape), 0.1) ].

Definition helmetScoreOfShape (inHelmetColorRange : bool)
    (shape : Current.ShapeAnalysis) : bool * Double.t :=
  let total := weightedSum (helmetGatesOfShape inHelmetColorRange shape) in
  (Double.ltb' (Double.ofQ 0.7) total, Double.min' total (Double.ofQ 0.95)).

(** The helmet score as the specification words it: five gates with their
    weights; the confidence is the sum of the weights of the gates that
    hold, capped at 0.98, and the region is accepted when the confidence
    exceeds 0.7. *)
Definition helmetGatesReference (inSafetyColorRange : bool)
    (colorVariance roundness edgeIntensity : Q) (inTopOfImage : bool) : list (bool * Q) :=
  [ (inSafetyColorRange, 0.4);
    (Double.ltb colorVariance 0.3, 0.3);
    (Double.ltb 0.6 roundness, 0.25);
    (Double.ltb 0.3 edgeIntensity && Double.ltb edgeIntensity 0.8, 0.15);
    (inTopOfImage, 0.1) ].

Definition helmetScoreReference (inSafetyColorRange : bool)
    (colorVariance roundness edgeIntensity : Q) (inTopOfImage : bool) : bool * Double.t :=
  let confidence :=
    Double.min' (weightedSum (helmetGatesReference inSafetyColorRange colorVariance
                                roundness edgeIntensity inTopOfImage))
                (Double.ofQ 0.98) in
  (Double.ltb' (Double.ofQ 0.7) confidence, confidence).

(** The rounded canonical form of a detection: its label, its confidence in
    hundredths and its box fields in thousandths (sign and integer), each
    the rounding of the double that the field denotes. *)
Definition canonicalForm (d : Detection)
    : Label * (bool * Z) * (bool * Z) * (bool * Z) * (bool * Z) * (bool * Z) :=
  (label d, Js.fixedParts 2 (Double.round (confidence d)),
   Js.fixedParts 3 (Double.round (bbox_x (bbox d))),
   Js.fixedParts 3 (Double.round (bbox_y (bbox d))),
   Js.fixedParts 3 (Double.round (bbox_width (bbox d))),
   Js.fixedParts 3 (Double.round (bbox_height (bbox d)))).

(** A decimal string with exactly [digits] digits after the point. *)
Definition hasPlaces (digits : nat) (s : string) : Prop :=
  exists whole fraction,
    s = (whole ++ "." ++ fraction)%string /\ String.length fraction = digits.

Definition isHexChar (c : ascii) : Prop :=
  In c (list_ascii_of_string "0123456789abcdef").

(** *** Reading the text of the hash back *)

(** Strings without the character [c]. *)
Fixpoint without (c : ascii) (s : string) : Prop :=
  match s with
  | EmptyString => True
  | String a rest => a <> c /\ without c rest
  end.

Definition isDigit (a : ascii) : Prop := In a (list_ascii_of_string "0123456789").

(** The padded digits of [renderFixed]. *)
Definition padded (digits : nat) (n : Z) : string :=
  let m := NilZero.string_of_uint (N.to_uint (Z.to_N n)) in
  (Js.zeros (S digits - String.length m) ++ m)%string.

(** The number that a string of digits writes. *)
Definition digitsValue (s : string) : N :=
  match NilEmpty.uint_of_string s with
  | Some d => N.of_uint d
  | None => 0%N
  end.

(** Reading a [toFixed] string back: the sign is the occurrence of a minus,
    the number is written by the digits. *)
Fixpoint contains (c : ascii) (s : string) : bool :=
  match s with
  | EmptyString => false
  | String a rest => Ascii.eqb a c || contains c rest
  end.

Fixpoint strip (c : ascii) (s : string) : string :=
  match s with
  | EmptyString => EmptyString
  | String a rest => if Ascii.eqb a c then strip c rest else String a (strip c rest)
  end.

Definition readFixed (s : string) : bool * Z :=
  (contains "-" s, Z.of_N (digitsValue (strip "." (strip "-" s)))).

(** A string that writes the number [q] rounded to [digits] decimal places:
    so many digits after the point, the sign of [q], and the multiple of
    [10^-digits] nearest to the magnitude of [q]. *)
Definition writesRounded (digits : nat) (s : string) (q : Q) : Prop :=
  hasPlaces digits s
  /\ fst (readFixed s) = Js.ltb q 0
  /\ Qabs (inject_Z (snd (readFixed s)) / inject_Z (10 ^ Z.of_nat digits) - Qabs q)
     <= 1 / (2 * inject_Z (10 ^ Z.of_nat digits)).

(** The fields of [hashData] hold no double quote. *)
Definition plain (h : Current.HashData) : Prop :=
  without "034" (Current.hash_label h) /\ without "034" (Current.hash_confidence h)
  /\ without "034" (Current.hash_x h) /\ without "034" (Current.hash_y h)
  /\ without "034" (Current.hash_width h) /\ without "034" (Current.hash_height h).

(** What follows an object in the text of the array. *)
Definition afterItem (others : list Current.HashData) : string :=
  match others with
  | [] => "]"
  | _ :: _ => ("," ++ Js.join "," (List.map Current.jsonHashData others) ++ "]")%string
  end.

(** Two pixel buffers with the same bytes. *)
Definition bitIdentical (data1 data2 : list Z) : Prop :=
  List.length data1 = List.length data2
  /\ forall i, (i < List.length data1)%nat -> nth i data1 0%Z = nth i data2 0%Z.

(** Two pixel buffers with the same colours: the same length, and the same
    red, green and blue byte in every group of four. *)
Definition sameColours (data1 data2 : list Z) : Prop :=
  List.length data1 = List.length data2
  /\ forall pixel channel : nat,
       (channel < 3)%nat ->
       nth (4 * pixel + channel) data1 0%Z = nth (4 * pixel + channel) data2 0%Z.

(** The colour of a pixel object: what is left when its alpha is dropped. *)
Definition colourOf (pixel : Px.t) : Z * Z * Z := (Px.r pixel, Px.g pixel, Px.b pixel).

(** The loop of [analyzePattern] on [n] pixels leaves within [turns] turns. *)
Fixpoint loopEnds (turns : nat) (n pixelsPerRow i : Double.t) : bool :=
  match turns with
  | O => negb (Double.ltb' i n)
  | S turns' =>
      if Double.ltb' i n then loopEnds turns' n pixelsPerRow (Double.add' i pixelsPerRow)
      else true
  end.

(** The range invariant of a detection. *)
Definition inUnitRange (d : Detection) : Prop :=
  (0 <= confidence d /\ confidence d <= 1)
  /\ (0 <= bbox_x (bbox d) /\ bbox_x (bbox d) <= 1)
  /\ (0 <= bbox_y (bbox d) /\ bbox_y (bbox d) <= 1)
  /\ (0 <= bbox_width (bbox d) /\ bbox_width (bbox d) <= 1)
  /\ (0 <= bbox_height (bbox d) /\ bbox_height (bbox d) <= 1)
  /\ bbox_x (bbox d) + bbox_width (bbox d) <= 1.001
  /\ bbox_y (bbox d) + bbox_height (bbox d) <= 1.001.

(** The summary of an analysis, by label: the flag [hasHelmet],
    [hasHighVisVest] or [hasPerson], and the field of [confidence]. *)
Definition summaryFlag (analysis : Current.Analysis) (l : Label) : bool :=
  match l with
  | helmet => Current.hasHelmet analysis
  | vest => Current.hasHighVisVest analysis
  | person => Current.hasPerson analysis
  end.

Definition summaryConfidence (analysis : Current.Analysis) (l : Label) : Q :=
  match l with
  | helmet => Current.confidenceHelmet analysis
  | vest => Current.confidenceVest analysis
  | person => Current.confidencePerson analysis
  end.

(** What [limitDetectionsPerClass] leaves out of one group. *)
Definition spilled (entry : Label * list Detection) : list Detection :=
  skipn (Legacy.maxPerClass (fst entry)) (sortByConfidence (snd entry)).

(** A box encloses another. *)
Definition encloses (outer inner : BBox) : Prop :=
  bbox_x outer <= bbox_x inner /\ bbox_y outer <= bbox_y inner
  /\ bbox_x inner + bbox_width inner <= bbox_x outer + bbox_width outer
  /\ bbox_y inner + bbox_height inner <= bbox_y outer + bbox_height outer.

(** Two detections that the inner loop of a Merger keeps apart. *)
Definition keptApart (threshold : Q) (a b : Detection) : Prop :=
  label a = label b ->
  Double.ltb' (Double.ofQ threshold) (calculateOverlap (bbox a) (bbox b)) = false.

(** The tables of the upload handler are consistent: image identifiers and
    file hashes are unique, every detection row belongs to an image row, and
    the stored detection hash of an image is the hash of its stored
    detections. *)
Definition storedDetection (row : Upload.DetectionRow) : Detection :=
  mkDetection (Upload.row_label row) (Upload.row_confidence row) None (Upload.row_bbox row).

Definition consistent (store : Upload.Store) : Prop :=
  NoDup (List.map Upload.row_id (Upload.images store))
  /\ NoDup (List.map Upload.row_file_hash (Upload.images store))
  /\ Forall (fun row => In (Upload.row_image_id row)
                           (List.map Upload.row_id (Upload.images store)))
            (Upload.detections store)
  /\ Forall (fun image =>
               Upload.row_detections_hash image
               = Current.generateDetectionHash
                   (List.map storedDetection
                      (Upload.detectionsOf store (Upload.row_id image))))
            (Upload.images store).

(** ** Sample inputs *)

Module Sample.

(** Three helmet candidates side by side, the neighbours overlapping by a
    third. *)
Definition left : Detection := mkDetection helmet 0.7 None (mkBBox 0 0 0.4 0.4).
Definition middle : Detection := mkDetection helmet 0.9 None (mkBBox 0.2 0 0.4 0.4).
Definition right : Detection := mkDetection helmet 0.8 None (mkBBox 0.4 0 0.4 0.4).

(** Two helmet candidates whose overlap is exactly 0.3. *)
Definition whole : Detection := mkDetection helmet 0.9 None (mkBBox 0 0 1 1).
Definition strip : Detection := mkDetection helmet 0.8 None (mkBBox 0 0 1 0.3).
Definition strip' : Detection := mkDetection helmet 0.9 None (mkBBox 0 0 1 0.3).

(** Two helmet candidates whose overlap is 0.3 as a ratio of areas and more
    as computed. *)
Definition low : Detection := mkDetection helmet 0.9 None (mkBBox 0 0 0.05 0.2).
Definition tall : Detection := mkDetection helmet 0.8 None (mkBBox 0 0.05 0.05 0.45).

(** A helmet whose left edge is 24 pixels into an image 640 pixels wide,
    and a person and a vest of another image. *)
Definition corner : Detection := mkDetection helmet 0.9 None (mkBBox (24 # 640) 0 1 0.3).
Definition crew : list Detection :=
  [ mkDetection person 0.755 None (mkBBox 0.0005 0.1 0.5 0.25);
    mkDetection vest 0.8 None (mkBBox (1 # 3) 0.2 0.5 0.125) ].

(** A window of 90 pixels, 55 of them green and 35 dark, the green ones at
    the positions 0 to 43, 62 and 63 to 72. *)
Definition patchy : list Px.t :=
  List.repeat (Px.mk 120 180 100 255) 44 ++ List.repeat (Px.mk 10 10 10 255) 18
  ++ List.repeat (Px.mk 120 180 100 255) 11 ++ List.repeat (Px.mk 10 10 10 255) 17.

(** A window of ten pixels, safety yellow but for two dark pixels in its
    centre, and a window of three rows of three pixels, the middle row the
    brightest, whose mean brightness is 0.6 of 255 exactly. *)
Definition hollow : list Px.t :=
  List.repeat (Px.mk 255 230 30 255) 3
  ++ [Px.mk 0 0 0 255; Px.mk 255 230 30 255; Px.mk 255 230 30 255; Px.mk 0 0 0 255]
  ++ List.repeat (Px.mk 255 230 30 255) 3.
Definition striped : list Px.t :=
  [ Px.mk 181 151 25 255; Px.mk 153 202 3 255; Px.mk 160 173 11 255;
    Px.mk 198 225 223 255; Px.mk 250 246 165 255; Px.mk 209 208 251 255;
    Px.mk 189 156 9 255; Px.mk 172 187 7 255; Px.mk 151 188 38 255 ].

(** Three helmet candidates that do not touch. *)
Definition apart : list Detection :=
  [ mkDetection helmet 0.9 None (mkBBox 0 0 0.2 0.2);
    mkDetection helmet 0.8 None (mkBBox 0.4 0 0.2 0.2);
    mkDetection helmet 0.75 None (mkBBox 0.8 0 0.2 0.2) ].

(** A decoder that fails on every file, and one that reads the metadata
    but fails to rasterize. *)
Definition undecodable : PixelSource :=
  mkPixelSource (fun _ => None) (fun _ _ _ => None).
Definition unrasterizable : PixelSource :=
  mkPixelSource (fun _ => Some (800, 600)%Z) (fun _ _ _ => None).

(** A 32 x 32 mid-grey window. *)
Definition grey : list Px.t := List.repeat (Px.mk 128 128 128 255) 1024.

(** A 1 x 1 image and the same with a transparent pixel, as two decoders
    hand them over. *)
Definition dot : list Z := [10; 20; 30; 255]%Z.
Definition clearDot : list Z := [10; 20; 30; 0]%Z.
Definition dotPhoto : PixelSource :=
  mkPixelSource (fun _ => Some (1, 1)%Z) (fun _ _ _ => Some dot).
Definition clearDotPhoto : PixelSource :=
  mkPixelSource (fun _ => Some (1, 1)%Z) (fun _ _ _ => Some clearDot).

(** An image of one colour, as the decoder hands it over: four bytes per
    pixel, row by row. *)
Definition uniformImage (width height : Z) (pixel : Px.t) : list Z :=
  concat (List.repeat [Px.r pixel; Px.g pixel; Px.b pixel; Px.a pixel]
                      (Z.to_nat (width * height))).

(** A 129 x 65 photograph of a skin-coloured wall. *)
Definition skin : Px.t := Px.mk 200 150 100 255.
Definition wall : list Z := uniformImage 129 65 skin.
Definition wallPhoto : PixelSource :=
  mkPixelSource (fun _ => Some (129, 65)%Z) (fun _ _ _ => Some wall).

(** Region records of the earlier module: a yellow dome at the top of the
    image, and a grey one, uniform, round and softly edged, further down. *)
Definition yellowDome : Legacy.RegionData :=
  Legacy.mkRegionData [Rgb.mk 250 220 30] (Rgb.mk 250 220 30) 0.1 0.5 0.8 20 100.
Definition greyDome : Legacy.RegionData :=
  Legacy.mkRegionData [Rgb.mk 128 128 128] (Rgb.mk 128 128 128) 0.1 0.5 0.8 60 100.

End Sample.

(** A first visit to an empty server whose decoder fails, and a second
    upload of the same bytes. *)
Module Visit.

Definition world : Upload.World :=
  Upload.mkWorld Sample.undecodable (fun _ => [104; 105]%Z) "image-1".

Definition empty : Upload.Store := Upload.mkStore [] [].

Definition first : Upload.Request :=
  Upload.mkRequest (Some (Upload.mkFile "a.jpg" "uploads/a.jpg")) (Some "key-1"%string).

Definition stored : Upload.Store := snd (fst (Upload.post world empty first)).

Definition again : Upload.File := Upload.mkFile "b.jpg" "uploads/b.jpg".

End Visit.

(** * Properties *)

Section NumericFacts.

Lemma ltb_spec (a b : Q) : Js.ltb a b = true <-> a < b.
Proof.
  unfold Js.ltb. rewrite negb_true_iff.
  split; intros H.
  - apply Qnot_le_lt. intros Hle. apply Qle_bool_iff in Hle. congruence.
  - destruct (Qle_bool b a) eqn:E; [|reflexivity].
    apply Qle_bool_iff in E. exfalso. apply (Qlt_not_le _ _ H E).
Qed.

Lemma ltb_false (a b : Q) : Js.ltb a b = false <-> b <= a.
Proof.
  unfold Js.ltb. rewrite negb_false_iff. apply Qle_bool_iff.
Qed.

End NumericFacts.

(** ** Comparisons and sums of doubles *)

Section DoubleFacts.

Lemma compare_antisym (x y : Double.t) :
  SFcompare y x = option_map CompOpp (SFcompare x y).
Proof.
  destruct x as [sx|sx| |sx mx ex], y as [sy|sy| |sy my ey];
    try destruct sx; try destruct sy; try reflexivity;
    cbn [SFcompare option_map]; rewrite (Z.compare_antisym ey ex);
    pose proof (Pos.compare_cont_antisym mx my Eq) as H; cbn [CompOpp] in H;
    rewrite <- H;
    destruct (ey ?= ex)%Z, (Pos.compare_cont Eq mx my); reflexivity.
Qed.

Lemma compare_Eq (x y : Double.t) :
  SFcompare x y = Some Eq ->
  x = y \/ exists sx sy, x = S754_zero sx /\ y = S754_zero sy.
Proof.
  destruct x as [sx|sx| |sx mx ex], y as [sy|sy| |sy my ey];
    try destruct sx; try destruct sy; cbn [SFcompare]; intros H;
    try discriminate H; try (left; reflexivity); try (right; eauto; fail).
  - destruct (ex ?= ey)%Z eqn:E; try discriminate H.
    apply Z.compare_eq in E. injection H as H.
    destruct (Pos.compare_cont Eq mx my) eqn:Em; try discriminate H.
    apply Pos.compare_eq in Em. subst. left. reflexivity.
  - destruct (ex ?= ey)%Z eqn:E; try discriminate H.
    apply Z.compare_eq in E. injection H as H.
    apply Pos.compare_eq in H. subst. left. reflexivity.
Qed.

Lemma max'_comm (x y : Double.t) : Double.max' x y = Double.max' y x.
Proof.
  unfold Double.max'. rewrite (compare_antisym x y).
  destruct (SFcompare x y) as [[| |]|] eqn:E; cbn [option_map CompOpp]; try reflexivity.
  destruct (compare_Eq x y E) as [->|(sx & sy & -> & ->)]; [reflexivity|].
  destruct sx, sy; reflexivity.
Qed.

Lemma min'_comm (x y : Double.t) : Double.min' x y = Double.min' y x.
Proof.
  unfold Double.min'. rewrite (compare_antisym x y).
  destruct (SFcompare x y) as [[| |]|] eqn:E; cbn [option_map CompOpp]; try reflexivity.
  destruct (compare_Eq x y E) as [->|(sx & sy & -> & ->)]; [reflexivity|].
  destruct sx, sy; reflexivity.
Qed.

Lemma add'_comm (x y : Double.t) : Double.add' x y = Double.add' y x.
Proof.
  destruct x as [sx|sx| |sx mx ex], y as [sy|sy| |sy my ey];
    try destruct sx; try destruct sy; try reflexivity;
    unfold Double.add', SFadd; rewrite (Z.min_comm ey ex), Z.add_comm; reflexivity.
Qed.

Lemma ltb'_irrefl (x : Double.t) : Double.ltb' x x = false.
Proof.
  unfold Double.ltb', SFltb.
  destruct x as [s|s| |s m e]; try destruct s; try reflexivity;
    cbn [SFcompare]; rewrite Z.compare_refl, Pos.compare_cont_refl; reflexivity.
Qed.

End DoubleFacts.

(** ** The Merger of [detection.js] *)

Section CurrentMerger.

Implicit Types (used : gset nat) (later rest : list Detection).

Lemma unusedFrom_ext i rest used1 used2 :
  (forall k, (i <= k)%nat -> k ∈ used1 <-> k ∈ used2) ->
  unusedFrom i rest used1 = unusedFrom i rest used2.
Proof.
  revert i. induction rest as [|d rest IH]; intros i H; simpl; [reflexivity|].
  rewrite (IH (S i)) by (intros k Hk; apply H; lia).
  destruct (decide (i ∈ used1)) as [H1|H1], (decide (i ∈ used2)) as [H2|H2];
    try reflexivity; exfalso.
  - apply H2, (H i); [lia|exact H1].
  - apply H1, (H i); [lia|exact H2].
Qed.

Lemma unusedFrom_In i rest used d : In d (unusedFrom i rest used) -> In d rest.
Proof.
  revert i. induction rest as [|e rest IH]; intros i; simpl; [tauto|].
  destruct (decide (i ∈ used)); simpl; intros H.
  - right. eapply IH, H.
  - destruct H as [H|H]; [left; exact H|right; eapply IH, H].
Qed.

Lemma mergeInner_used_mono thr current j later used :
  used ⊆ snd (mergeInner thr current j later used).
Proof.
  revert j used. induction later as [|dj later IH]; intros j used; simpl; [set_solver|].
  destruct (decide (j ∈ used)); [apply IH|].
  destruct (_ && _).
  - specialize (IH (S j) ({[j]} ∪ used)).
    destruct (mergeInner thr current (S j) later ({[j]} ∪ used)) as [ov u].
    simpl in *. set_solver.
  - apply IH.
Qed.

Lemma mergeInner_used_new thr current j later used k :
  k ∈ snd (mergeInner thr current j later used) -> k ∈ used \/ (j <= k)%nat.
Proof.
  revert j used. induction later as [|dj later IH]; intros j used; simpl; [tauto|].
  destruct (decide (j ∈ used)).
  - intros H. destruct (IH _ _ H); [tauto|right; lia].
  - destruct (_ && _).
    + specialize (IH (S j) ({[j]} ∪ used)).
      destruct (mergeInner thr current (S j) later ({[j]} ∪ used)) as [ov u].
      simpl in *. intros H. destruct (IH H) as [H'|H']; [|right; lia].
      apply elem_of_union in H' as [H'|H']; [|tauto].
      apply elem_of_singleton in H'. right. lia.
    + intros H. destruct (IH _ _ H); [tauto|right; lia].
Qed.

Lemma mergeInner_overlapping thr current j later used :
  Forall (fun m => joins thr current m = true /\ In m later)
         (fst (mergeInner thr current j later used)).
Proof.
  revert j used. induction later as [|dj later IH]; intros j used; [constructor|].
  cbn [mergeInner].
  assert (Hw : forall l, Forall (fun m => joins thr current m = true /\ In m later) l ->
               Forall (fun m => joins thr current m = true /\ In m (dj :: later)) l).
  { intros l Hl. eapply List.Forall_impl; [|exact Hl]. simpl. tauto. }
  destruct (decide (j ∈ used)); [apply Hw, IH|].
  fold (joins thr current dj). destruct (joins thr current dj) eqn:E.
  - specialize (IH (S j) ({[j]} ∪ used)).
    destruct (mergeInner thr current (S j) later ({[j]} ∪ used)) as [ov u].
    cbn [fst] in *. constructor; [|apply Hw, IH].
    split; [exact E|left; reflexivity].
  - apply Hw, IH.
Qed.

Lemma mergeInner_perm thr current j later used :
  Permutation (unusedFrom j later used)
    (fst (mergeInner thr current j later used)
     ++ unusedFrom j later (snd (mergeInner thr current j later used))).
Proof.
  revert j used. induction later as [|dj later IH]; intros j used; simpl; [constructor|].
  destruct (decide (j ∈ used)) as [Hj|Hj].
  - pose proof (mergeInner_used_mono thr current (S j) later used) as Hm.
    destruct (decide (j ∈ _)) as [_|Hn]; [apply IH|]. exfalso. apply Hn, Hm, Hj.
  - destruct (_ && _).
    + specialize (IH (S j) ({[j]} ∪ used)).
      pose proof (mergeInner_used_mono thr current (S j) later ({[j]} ∪ used)) as Hm.
      destruct (mergeInner thr current (S j) later ({[j]} ∪ used)) as [ov u].
      simpl in *.
      destruct (decide (j ∈ u)) as [_|Hn]; [|exfalso; apply Hn, Hm; set_solver].
      constructor. etransitivity; [|exact IH].
      rewrite (unusedFrom_ext (S j) later used ({[j]} ∪ used)); [reflexivity|].
      intros k Hk. rewrite elem_of_union, elem_of_singleton. split; [tauto|].
      intros [->|H]; [lia|exact H].
    + pose proof (mergeInner_used_new thr current (S j) later used j) as Hn.
      destruct (decide (j ∈ _)) as [Hin|_].
      * exfalso. destruct (Hn Hin) as [H|H]; [apply Hj, H|lia].
      * apply Permutation_cons_app, IH.
Qed.

(** The emitted detection of one iteration is a member of its cluster with
    the greatest confidence. *)
Lemma bestDetection_In current overlapping :
  In (Current.bestDetection current overlapping) (current :: overlapping).
Proof.
  unfold Current.bestDetection. revert current.
  induction overlapping as [|d ov IH]; intros current; simpl; [tauto|].
  destruct (Js.ltb _ _); destruct (IH d) as [H|H], (IH current) as [H'|H']; simpl in *; tauto.
Qed.

Lemma bestDetection_ge_seed current overlapping :
  confidence current <= confidence (Current.bestDetection current overlapping).
Proof.
  unfold Current.bestDetection. revert current.
  induction overlapping as [|d ov IH]; intros current; simpl; [apply Qle_refl|].
  destruct (Js.ltb _ _) eqn:E.
  - apply ltb_spec in E. eapply Qle_trans; [apply Qlt_le_weak, E|apply IH].
  - apply IH.
Qed.

Lemma bestDetection_max current overlapping :
  Forall (fun m => confidence m <= confidence (Current.bestDetection current overlapping))
         (current :: overlapping).
Proof.
  constructor; [apply bestDetection_ge_seed|].
  unfold Current.bestDetection. revert current.
  induction overlapping as [|d ov IH]; intros current; simpl; constructor.
  - destruct (Js.ltb _ _) eqn:E.
    + apply bestDetection_ge_seed.
    + apply ltb_false in E. eapply Qle_trans; [exact E|apply bestDetection_ge_seed].
  - apply IH.
Qed.

Lemma mergeLoop_clusters thr i rest used :
  Current.mergeLoop thr i rest used
  = omap Current.representative (Current.clustersLoop thr i rest used).
Proof.
  revert i used. induction rest as [|cur rest IH]; intros i used; simpl; [reflexivity|].
  destruct (decide (i ∈ used)); [apply IH|].
  destruct (mergeInner thr cur (S i) rest ({[i]} ∪ used)) as [ov u].
  simpl. rewrite IH. destruct ov; reflexivity.
Qed.

Lemma mergeLoop_sub_multiset thr i rest used :
  exists dropped,
    Permutation (unusedFrom i rest used) (Current.mergeLoop thr i rest used ++ dropped).
Proof.
  revert i used. induction rest as [|cur rest IH]; intros i used; simpl.
  - exists []. constructor.
  - destruct (decide (i ∈ used)); [apply IH|].
    pose proof (mergeInner_perm thr cur (S i) rest ({[i]} ∪ used)) as Hp.
    destruct (mergeInner thr cur (S i) rest ({[i]} ∪ used)) as [ov u].
    simpl in *. destruct (IH (S i) u) as [dropped Hd].
    rewrite (unusedFrom_ext (S i) rest used ({[i]} ∪ used)).
    2:{ intros k Hk. rewrite elem_of_union, elem_of_singleton. split; [tauto|].
        intros [->|H]; [lia|exact H]. }
    assert (Hsplit : exists others,
              Permutation (cur :: ov)
                (match ov with [] => cur | _ :: _ => Current.bestDetection cur ov end :: others)).
    { destruct ov as [|o ov]; [exists []; reflexivity|].
      destruct (in_split _ _ (bestDetection_In cur (o :: ov))) as (l1 & l2 & Hb).
      exists (l1 ++ l2).
      rewrite Hb at 1. symmetry. apply Permutation_middle. }
    destruct Hsplit as [others Ho].
    exists (others ++ dropped).
    rewrite Hp, Hd.
    change (Permutation ((cur :: ov) ++ Current.mergeLoop thr (S i) rest u ++ dropped)
              ((match ov with [] => cur | _ :: _ => Current.bestDetection cur ov end :: [])
               ++ Current.mergeLoop thr (S i) rest u ++ others ++ dropped)).
    rewrite Ho. simpl. constructor.
    rewrite !app_assoc. apply Permutation_app_tail, Permutation_app_comm.
Qed.

Lemma unusedFrom_empty i rest : unusedFrom i rest ∅ = rest.
Proof.
  revert i. induction rest as [|d rest IH]; intros i; simpl; [reflexivity|].
  destruct (decide (i ∈ ∅)) as [H|_]; [set_solver|]. f_equal. apply IH.
Qed.

Lemma mergeOverlappingDetections_loop detections thr :
  Current.mergeOverlappingDetections detections thr = Current.mergeLoop thr 0 detections ∅.
Proof.
  unfold Current.mergeOverlappingDetections.
  destruct detections as [|d [|e rest]]; reflexivity.
Qed.

Lemma merge_sub_multiset detections thr :
  exists dropped,
    Permutation detections (Current.mergeOverlappingDetections detections thr ++ dropped).
Proof.
  rewrite mergeOverlappingDetections_loop.
  destruct (mergeLoop_sub_multiset thr 0 detections ∅) as [dropped H].
  rewrite unusedFrom_empty in H. exists dropped. exact H.
Qed.

(** What one round of the inner loop takes and what it leaves. *)
Lemma unusedFrom_marked i j rest used :
  (j < i)%nat -> unusedFrom i rest ({[j]} ∪ used) = unusedFrom i rest used.
Proof.
  intros Hj. apply unusedFrom_ext. intros k Hk.
  rewrite elem_of_union, elem_of_singleton. split; [|tauto].
  intros [->|H]; [lia|exact H].
Qed.

Lemma mergeInner_takes thr current j later used :
  fst (mergeInner thr current j later used)
  = List.filter (joins thr current) (unusedFrom j later used).
Proof.
  revert j used. induction later as [|dj later IH]; intros j used; [reflexivity|].
  cbn [mergeInner unusedFrom].
  destruct (decide (j ∈ used)); [apply IH|].
  cbn [List.filter]. fold (joins thr current dj).
  destruct (joins thr current dj).
  - specialize (IH (S j) ({[j]} ∪ used)).
    destruct (mergeInner thr current (S j) later ({[j]} ∪ used)) as [ov u].
    cbn [fst] in *. rewrite IH, unusedFrom_marked by lia. reflexivity.
  - apply IH.
Qed.

Lemma mergeInner_leaves thr current j later used :
  unusedFrom j later (snd (mergeInner thr current j later used))
  = List.filter (fun m => negb (joins thr current m)) (unusedFrom j later used).
Proof.
  revert j used. induction later as [|dj later IH]; intros j used; [reflexivity|].
  cbn [mergeInner].
  destruct (decide (j ∈ used)) as [Hj|Hj].
  - cbn [unusedFrom].
    pose proof (mergeInner_used_mono thr current (S j) later used) as Hm.
    destruct (decide (j ∈ snd (mergeInner thr current (S j) later used))) as [_|Hn];
      [|exfalso; apply Hn, Hm, Hj].
    destruct (decide (j ∈ used)) as [_|Hn]; [apply IH|contradiction].
  - fold (joins thr current dj).
    cbn [unusedFrom]. destruct (decide (j ∈ used)) as [Hin|_]; [contradiction|].
    cbn [List.filter].
    destruct (joins thr current dj).
    + pose proof (mergeInner_used_mono thr current (S j) later ({[j]} ∪ used)) as Hm.
      specialize (IH (S j) ({[j]} ∪ used)).
      destruct (mergeInner thr current (S j) later ({[j]} ∪ used)) as [ov u].
      cbn [snd negb] in *.
      destruct (decide (j ∈ u)) as [_|Hn];
        [|exfalso; apply Hn, Hm, elem_of_union_l, elem_of_singleton; reflexivity].
      rewrite IH, unusedFrom_marked by lia. reflexivity.
    + pose proof (mergeInner_used_new thr current (S j) later used j) as Hn.
      destruct (decide (j ∈ snd (mergeInner thr current (S j) later used))) as [Hin|_].
      * exfalso. destruct (Hn Hin) as [H|H]; [apply Hj, H|lia].
      * cbn [negb]. f_equal. apply IH.
Qed.

(** The walk of [mergeOverlappingDetections] forms the overlap clusters. *)
Lemma clustersLoop_clustersOf thr rounds i rest used :
  (List.length rest <= rounds)%nat ->
  Current.clustersLoop thr i rest used = clustersOf rounds thr (unusedFrom i rest used).
Proof.
  revert rounds i used. induction rest as [|cur rest IH]; intros rounds i used Hlen.
  - destruct rounds; reflexivity.
  - cbn [Current.clustersLoop unusedFrom]. cbn [List.length] in Hlen.
    destruct (decide (i ∈ used)); [apply IH; lia|].
    destruct rounds as [|rounds]; [lia|].
    cbn [clustersOf].
    pose proof (mergeInner_takes thr cur (S i) rest ({[i]} ∪ used)) as Ht.
    pose proof (mergeInner_leaves thr cur (S i) rest ({[i]} ∪ used)) as Hl.
    destruct (mergeInner thr cur (S i) rest ({[i]} ∪ used)) as [ov u].
    cbn [fst snd] in *. rewrite unusedFrom_marked in Ht, Hl by lia.
    rewrite Ht, (IH rounds (S i) u), Hl by lia. reflexivity.
Qed.

Lemma clusters_overlapClusters detections thr :
  Current.clusters detections thr = overlapClusters thr detections.
Proof.
  unfold Current.clusters, overlapClusters.
  rewrite (clustersLoop_clustersOf thr (List.length detections)) by lia.
  rewrite unusedFrom_empty. reflexivity.
Qed.

Lemma filter_split {A : Type} (f : A -> bool) (l : list A) :
  Permutation (List.filter f l ++ List.filter (fun a => negb (f a)) l) l.
Proof.
  induction l as [|a l IH]; [constructor|]. cbn [List.filter].
  destruct (f a); cbn [negb app].
  - constructor. exact IH.
  - symmetry. apply Permutation_cons_app. symmetry. exact IH.
Qed.

Lemma clustersOf_partition thr rounds pending :
  (List.length pending <= rounds)%nat ->
  Permutation (concat (clustersOf rounds thr pending)) pending.
Proof.
  revert pending. induction rounds as [|rounds IH]; intros [|seed later] Hlen;
    cbn [List.length] in Hlen; [constructor|lia|constructor|].
  cbn [clustersOf concat app]. constructor.
  rewrite IH.
  - apply filter_split.
  - pose proof (List.filter_length_le (fun m => negb (joins thr seed m)) later). lia.
Qed.

Lemma clustersOf_emitted thr rounds pending :
  Forall2
    (fun emitted cluster =>
       (exists seed members,
          cluster = seed :: members
          /\ Forall (fun m => joins thr seed m = true) members)
       /\ In emitted cluster
       /\ Forall (fun m => confidence m <= confidence emitted) cluster)
    (omap Current.representative (clustersOf rounds thr pending))
    (clustersOf rounds thr pending).
Proof.
  revert pending. induction rounds as [|rounds IH]; intros [|seed later];
    [constructor|constructor|constructor|].
  cbn [clustersOf omap Current.representative]. constructor.
  - split; [|split].
    + exists seed, (List.filter (joins thr seed) later). split; [reflexivity|].
      apply List.Forall_forall. intros m Hm. apply filter_In in Hm. tauto.
    + apply bestDetection_In.
    + apply bestDetection_max.
  - apply IH.
Qed.

End CurrentMerger.

(** C3.  The Merger of [detection.js] emits one detection for every overlap
    cluster of its input, in the order of the clusters.  The clusters
    partition the input: a cluster is the first candidate not yet taken (the
    seed) with every later candidate not yet taken that has the seed's label
    and a computed overlap with the seed above the threshold.  The detection
    emitted for a cluster is a member of the cluster, hence an input
    candidate with its label, confidence and box unchanged, and no member of
    the cluster has a greater confidence.  No box is unioned and no
    confidence is raised. *)
Theorem merger_emits_best_of_cluster (detections : list Detection) (overlapThreshold : Q) :
  Permutation (concat (overlapClusters overlapThreshold detections)) detections
  /\ Forall2
       (fun emitted cluster =>
          (exists seed members,
             cluster = seed :: members
             /\ Forall (fun m => joins overlapThreshold seed m = true) members)
          /\ In emitted cluster
          /\ Forall (fun m => confidence m <= confidence emitted) cluster)
       (Current.mergeOverlappingDetections detections overlapThreshold)
       (overlapClusters overlapThreshold detections)
  /\ Forall (fun emitted => In emitted detections)
       (Current.mergeOverlappingDetections detections overlapThreshold).
Proof.
  split; [apply clustersOf_partition; lia|]. split.
  - rewrite mergeOverlappingDetections_loop, mergeLoop_clusters.
    fold (Current.clusters detections overlapThreshold).
    rewrite clusters_overlapClusters. apply clustersOf_emitted.
  - destruct (merge_sub_multiset detections overlapThreshold) as [dropped Hd].
    apply List.Forall_forall. intros d Hin.
    eapply Permutation_in; [apply Permutation_sym, Hd|].
    apply in_or_app. left. exact Hin.
Qed.

(** C5 (as amended).  While a cluster is collected, a later candidate that has
    not been consumed yet is consumed exactly when it carries the seed's label
    and the overlap that [calculateOverlap] computes for it and the seed, a
    double, is strictly greater than the threshold.  A candidate whose
    computed overlap equals the threshold is not consumed. *)
Theorem consumed_iff_overlap_exceeds (overlapThreshold : Q) (current : Detection)
    (j : nat) (later : list Detection) (used : gset nat) (k : nat) (dk : Detection) :
  later !! k = Some dk ->
  (j + k)%nat ∉ used ->
  ((j + k)%nat ∈ snd (mergeInner overlapThreshold current j later used)
   <-> Double.ltb' (Double.ofQ overlapThreshold)
                   (calculateOverlap (bbox current) (bbox dk)) = true
       /\ label current = label dk)
  /\ (calculateOverlap (bbox current) (bbox dk) = Double.ofQ overlapThreshold ->
      (j + k)%nat ∉ snd (mergeInner overlapThreshold current j later used)).
Proof.
  intros Hk Hu.
  assert (Hiff : (j + k)%nat ∈ snd (mergeInner overlapThreshold current j later used)
                 <-> joins overlapThreshold current dk = true).
  { revert j used k Hk Hu.
    induction later as [|dj later IH]; intros j used k Hk Hu; [discriminate|].
    destruct k as [|k]; simpl in Hk.
    - assert (dj = dk) as -> by congruence. rewrite Nat.add_0_r in *.
      cbn [mergeInner].
      destruct (decide (j ∈ used)) as [Hj|_]; [contradiction|].
      fold (joins overlapThreshold current dk).
      destruct (joins overlapThreshold current dk).
      + pose proof (mergeInner_used_mono overlapThreshold current (S j) later ({[j]} ∪ used))
          as Hm.
        destruct (mergeInner overlapThreshold current (S j) later ({[j]} ∪ used)) as [ov u].
        cbn [snd] in *. split; [reflexivity|]. intros _.
        apply Hm, elem_of_union_l, elem_of_singleton. reflexivity.
      + split; [|discriminate].
        intros H. apply mergeInner_used_new in H as [H|H]; [contradiction|lia].
    - replace (j + S k)%nat with (S j + k)%nat in * by lia.
      cbn [mergeInner].
      destruct (decide (j ∈ used)); [apply IH; assumption|].
      destruct (_ && _).
      + specialize (IH (S j) ({[j]} ∪ used) k Hk).
        destruct (mergeInner overlapThreshold current (S j) later ({[j]} ∪ used)) as [ov u].
        cbn [snd] in *. apply IH. rewrite elem_of_union, elem_of_singleton.
        intros [H|H]; [lia|contradiction].
      + apply IH; assumption. }
  split.
  - rewrite Hiff. unfold joins. rewrite andb_true_iff, bool_decide_eq_true. reflexivity.
  - intros Heq Hin. apply Hiff in Hin. unfold joins in Hin.
    rewrite Heq, ltb'_irrefl in Hin. discriminate Hin.
Qed.

(** ** Sorting and grouping *)

Section SortingAndGrouping.

Lemma insertByConfidence_perm d sorted :
  Permutation (d :: sorted) (insertByConfidence d sorted).
Proof.
  induction sorted as [|e rest IH]; simpl; [reflexivity|].
  destruct (Js.ltb _ _); [|reflexivity].
  etransitivity; [apply perm_swap|]. constructor. exact IH.
Qed.

Lemma sortByConfidence_perm ds : Permutation ds (sortByConfidence ds).
Proof.
  induction ds as [|d rest IH]; simpl; [constructor|].
  etransitivity; [|apply insertByConfidence_perm]. constructor. exact IH.
Qed.

Lemma insertByConfidence_descending d sorted :
  descending sorted -> descending (insertByConfidence d sorted).
Proof.
  unfold descending. induction 1 as [|e rest Hrest IH Hhd]; simpl.
  - repeat constructor.
  - destruct (Js.ltb _ _) eqn:E.
    + constructor; [exact IH|].
      apply ltb_spec in E.
      destruct rest as [|e' rest]; simpl.
      * constructor. apply Qlt_le_weak, E.
      * destruct (Js.ltb (confidence d) (confidence e')); constructor.
        -- inversion Hhd; assumption.
        -- apply Qlt_le_weak, E.
    + apply ltb_false in E. constructor; [constructor; assumption|].
      constructor. exact E.
Qed.

Lemma sortByConfidence_descending ds : descending (sortByConfidence ds).
Proof.
  induction ds as [|d rest IH]; simpl; [constructor|].
  apply insertByConfidence_descending, IH.
Qed.

(** Sorting an array that is already in descending order leaves it as it is. *)
Lemma sortByConfidence_fixed ds : descending ds -> sortByConfidence ds = ds.
Proof.
  unfold descending. induction 1 as [|d rest Hrest IH Hhd]; simpl; [reflexivity|].
  rewrite IH. destruct Hhd as [|e rest' Hle]; simpl; [reflexivity|].
  apply ltb_false in Hle. rewrite Hle. reflexivity.
Qed.

Lemma sortByConfidence_idempotent ds :
  sortByConfidence (sortByConfidence ds) = sortByConfidence ds.
Proof. apply sortByConfidence_fixed, sortByConfidence_descending. Qed.

Lemma descending_strong ds :
  descending ds -> StronglySorted (fun a b => confidence b <= confidence a) ds.
Proof.
  apply Sorted_StronglySorted. intros a b c Hab Hbc. eapply Qle_trans; eassumption.
Qed.

Lemma byLabelPush_perm byLabel d :
  Permutation (concat (List.map snd (byLabelPush byLabel d)))
              (d :: concat (List.map snd byLabel)).
Proof.
  induction byLabel as [|[l ds] others IH]; simpl; [reflexivity|].
  destruct (decide (l = label d)); simpl.
  - rewrite <- app_assoc. simpl. symmetry. apply Permutation_middle.
  - rewrite IH. symmetry. apply Permutation_middle.
Qed.

Lemma grouping_perm ds byLabel :
  Permutation (concat (List.map snd (fold_left byLabelPush ds byLabel)))
              (ds ++ concat (List.map snd byLabel)).
Proof.
  revert byLabel. induction ds as [|d rest IH]; intros byLabel; simpl; [reflexivity|].
  rewrite IH, byLabelPush_perm. symmetry. apply Permutation_middle.
Qed.

Lemma byLabelPush_keys byLabel d :
  List.map fst (byLabelPush byLabel d)
  = List.map fst byLabel
    ++ (if decide (label d ∈ List.map fst byLabel) then [] else [label d]).
Proof.
  induction byLabel as [|[l ds] others IH]; simpl; [reflexivity|].
  destruct (decide (l = label d)) as [->|Hne]; simpl.
  - rewrite decide_True by apply list_elem_of_here.
    rewrite app_nil_r. reflexivity.
  - rewrite IH. f_equal.
    destruct (decide (label d ∈ List.map fst others)) as [Hin|Hout];
      destruct (decide (label d ∈ l :: List.map fst others)) as [H|H];
      try reflexivity; exfalso.
    + apply H. right. exact Hin.
    + apply elem_of_cons in H as [H|H]; [congruence|contradiction].
Qed.

Lemma byLabelPush_wellGrouped byLabel d :
  wellGrouped byLabel -> wellGrouped (byLabelPush byLabel d).
Proof.
  intros [Hnd Hall]. split.
  - rewrite byLabelPush_keys.
    destruct (decide _) as [_|Hout]; [rewrite app_nil_r; exact Hnd|].
    apply NoDup_app. split; [exact Hnd|]. split; [|apply NoDup_singleton].
    intros k Hk Hk'. apply list_elem_of_singleton in Hk'. subst k. exact (Hout Hk).
  - clear Hnd. induction Hall as [|[l ds] others Hhd Htl IH]; simpl.
    + repeat constructor.
    + destruct (decide (l = label d)) as [->|Hne]; constructor; simpl in *; try assumption.
      apply List.Forall_app. split; [exact Hhd|]. repeat constructor.
Qed.

Lemma grouping_wellGrouped ds byLabel :
  wellGrouped byLabel -> wellGrouped (fold_left byLabelPush ds byLabel).
Proof.
  revert byLabel. induction ds as [|d rest IH]; intros byLabel H; simpl; [exact H|].
  apply IH, byLabelPush_wellGrouped, H.
Qed.

Lemma wellGrouped_nil : wellGrouped [].
Proof. split; constructor. Qed.

(** Shrinking every group shrinks the whole. *)
Lemma concat_sub_multiset (f : Label * list Detection -> list Detection) groups :
  (forall e, exists dropped, Permutation (snd e) (f e ++ dropped)) ->
  exists dropped,
    Permutation (concat (List.map snd groups)) (concat (List.map f groups) ++ dropped).
Proof.
  intros Hf. induction groups as [|e rest [dropped IH]]; simpl.
  - exists []. constructor.
  - destruct (Hf e) as [droppedHere He]. exists (droppedHere ++ dropped).
    rewrite He, IH. rewrite <- !app_assoc. apply Permutation_app_head.
    rewrite !app_assoc. apply Permutation_app_tail, Permutation_app_comm.
Qed.

Lemma filter_sub_multiset (keep : Detection -> bool) ds :
  Permutation ds (List.filter keep ds ++ List.filter (fun d => negb (keep d)) ds).
Proof.
  induction ds as [|d rest IH]; simpl; [constructor|].
  destruct (keep d); simpl.
  - constructor. exact IH.
  - apply Permutation_cons_app, IH.
Qed.

Lemma countLabel_app l ds1 ds2 :
  countLabel l (ds1 ++ ds2) = (countLabel l ds1 + countLabel l ds2)%nat.
Proof. unfold countLabel. rewrite List.filter_app, List.length_app. reflexivity. Qed.

Lemma countLabel_other l k ds :
  Forall (fun d => label d = k) ds -> k <> l -> countLabel l ds = 0%nat.
Proof.
  intros H Hne. unfold countLabel. induction H as [|d rest Hd _ IH]; simpl; [reflexivity|].
  rewrite bool_decide_eq_false_2 by congruence. exact IH.
Qed.

Lemma countLabel_le_length l ds : (countLabel l ds <= List.length ds)%nat.
Proof. unfold countLabel. apply List.filter_length_le. Qed.

End SortingAndGrouping.

Lemma filterAndMerge_sub_multiset (detections : list Detection) :
  exists dropped,
    Permutation detections (Current.filterAndMergeDetections detections ++ dropped).
Proof.
  unfold Current.filterAndMergeDetections.
  set (keep := fun d => Js.ltb 0.6 (confidence d)).
  set (byLabel := fold_left byLabelPush (List.filter keep detections) []).
  destruct (concat_sub_multiset
              (fun entry => Current.mergeOverlappingDetections (snd entry) 0.3) byLabel)
    as [dropped Hd].
  { intros e. apply merge_sub_multiset. }
  exists (dropped ++ List.filter (fun d => negb (keep d)) detections).
  rewrite <- sortByConfidence_perm, app_assoc, <- Hd.
  unfold byLabel. rewrite grouping_perm. simpl. rewrite app_nil_r.
  apply filter_sub_multiset.
Qed.

Lemma sub_multiset_In (kept dropped all : list Detection) (d : Detection) :
  Permutation all (kept ++ dropped) -> In d kept -> In d all.
Proof.
  intros Hp Hin. eapply Permutation_in; [symmetry; exact Hp|].
  apply in_or_app. left. exact Hin.
Qed.

(** C10.  The final assembly only filters, suppresses and reorders: the
    output of [filterAndMergeDetections] is a sub-multiset of its input (the
    input is a permutation of the output followed by the dropped candidates),
    so every output detection is one of the input detections, with the same
    label, confidence and box. *)
Theorem assembly_only_selects (detections : list Detection) :
  (exists dropped,
     Permutation detections (Current.filterAndMergeDetections detections ++ dropped))
  /\ Forall (fun d => In d detections) (Current.filterAndMergeDetections detections).
Proof.
  split; [apply filterAndMerge_sub_multiset|].
  destruct (filterAndMerge_sub_multiset detections) as [dropped Hd].
  apply List.Forall_forall. intros d Hin.
  exact (sub_multiset_In _ dropped _ d Hd Hin).
Qed.

(** ** The per-class limiter of the earlier module *)

Section Limiter.

Lemma limited_labels entry :
  Forall (fun d => label d = fst entry) (snd entry) ->
  Forall (fun d => label d = fst entry) (limited entry).
Proof.
  intros H. apply List.Forall_forall. intros d Hd.
  rewrite List.Forall_forall in H. apply H.
  eapply Permutation_in; [symmetry; apply sortByConfidence_perm|].
  rewrite <- (firstn_skipn (Legacy.maxPerClass (fst entry)) (sortByConfidence (snd entry))).
  apply in_or_app. left. exact Hd.
Qed.

Lemma limited_absent l groups :
  l ∉ List.map fst groups ->
  Forall (fun entry => Forall (fun d => label d = fst entry) (snd entry)) groups ->
  countLabel l (concat (List.map limited groups)) = 0%nat.
Proof.
  intros Hout Hall. induction Hall as [|entry rest Hhd Htl IH]; simpl; [reflexivity|].
  simpl in Hout. apply not_elem_of_cons in Hout as [Hne Hout].
  rewrite countLabel_app, (IH Hout), Nat.add_0_r.
  apply (countLabel_other l (fst entry)); [apply limited_labels, Hhd|congruence].
Qed.

Lemma limited_cap l groups :
  wellGrouped groups ->
  (countLabel l (concat (List.map limited groups)) <= Legacy.maxPerClass l)%nat.
Proof.
  intros [Hnd Hall]. induction Hall as [|entry rest Hhd Htl IH]; simpl;
    [apply Nat.le_0_l|].
  simpl in Hnd. apply NoDup_cons in Hnd as [Hout Hnd].
  rewrite countLabel_app.
  destruct (decide (fst entry = l)) as [<-|Hne].
  - rewrite (limited_absent (fst entry) rest Hout Htl), Nat.add_0_r.
    etransitivity; [apply countLabel_le_length|].
    unfold limited. rewrite List.length_firstn. apply Nat.le_min_l.
  - rewrite (countLabel_other l (fst entry)); [|apply limited_labels, Hhd|exact Hne].
    apply IH, Hnd.
Qed.

Lemma countLabel_normalize l width height ds :
  countLabel l (List.map (Legacy.normalize width height) ds) = countLabel l ds.
Proof.
  unfold countLabel. induction ds as [|d rest IH]; simpl; [reflexivity|].
  destruct (bool_decide (label d = l)); simpl; rewrite IH; reflexivity.
Qed.

Lemma limitDetectionsPerClass_cap l detections :
  (countLabel l (Legacy.limitDetectionsPerClass detections) <= Legacy.maxPerClass l)%nat.
Proof.
  unfold Legacy.limitDetectionsPerClass.
  apply limited_cap, grouping_wellGrouped, wellGrouped_nil.
Qed.

End Limiter.

(** C1 (as amended).  The cardinality cap is the work of
    [limitDetectionsPerClass]: its output, and so what the earlier [detectPPE]
    returns, holds at most 2 helmet, 2 vest and 1 person detections, whatever
    the candidates. *)
Theorem limiter_caps_every_class (detections : list Detection) (width height : Z) :
  (countLabel helmet (Legacy.detectPPE detections width height) <= 2)%nat
  /\ (countLabel vest (Legacy.detectPPE detections width height) <= 2)%nat
  /\ (countLabel person (Legacy.detectPPE detections width height) <= 1)%nat.
Proof.
  unfold Legacy.detectPPE. rewrite !countLabel_normalize.
  repeat split.
  - apply (limitDetectionsPerClass_cap helmet).
  - apply (limitDetectionsPerClass_cap vest).
  - apply (limitDetectionsPerClass_cap person).
Qed.

(** ** Sorting in the two Mergers *)

Section MergerOrder.

Lemma bestDetection_seed current overlapping :
  Forall (fun m => confidence m <= confidence current) overlapping ->
  Current.bestDetection current overlapping = current.
Proof.
  unfold Current.bestDetection. induction 1 as [|d rest Hd _ IH]; simpl; [reflexivity|].
  apply ltb_false in Hd. rewrite Hd. exact IH.
Qed.

Lemma sorted_mergeLoop_emits_seeds thr i rest used :
  StronglySorted (fun a b => confidence b <= confidence a) rest ->
  Current.mergeLoop thr i rest used = omap head (Current.clustersLoop thr i rest used).
Proof.
  intros Hs. revert i used. induction Hs as [|cur rest Hs IH Hhd]; intros i used; simpl;
    [reflexivity|].
  destruct (decide (i ∈ used)); [apply IH|].
  pose proof (mergeInner_overlapping thr cur (S i) rest ({[i]} ∪ used)) as Hov.
  destruct (mergeInner thr cur (S i) rest ({[i]} ∪ used)) as [ov u].
  simpl in *. rewrite IH. f_equal.
  destruct ov as [|o ov]; [reflexivity|].
  apply bestDetection_seed.
  eapply List.Forall_impl; [|exact Hov]. simpl. intros m (_ & Hin).
  rewrite List.Forall_forall in Hhd. apply Hhd, Hin.
Qed.

Lemma legacy_merge_walks_sorted detections threshold :
  Legacy.mergeOverlappingDetections detections threshold
  = Legacy.mergeLoop threshold 0 (sortByConfidence detections) ∅.
Proof. destruct detections; reflexivity. Qed.

End MergerOrder.

(** C4 (as amended).  The earlier Merger sorts the candidates by descending
    confidence and walks the sorted array, so its output on a list equals its
    output on the sorted permutation of the list.  The Merger of
    [detection.js] walks the candidates in the order given; on the sorted
    permutation it emits exactly the seeds of its clusters. *)
Theorem merger_and_sorting (detections : list Detection) (threshold : Q) :
  Legacy.mergeOverlappingDetections detections threshold
    = Legacy.mergeLoop threshold 0 (sortByConfidence detections) ∅
  /\ Permutation detections (sortByConfidence detections)
  /\ descending (sortByConfidence detections)
  /\ Legacy.mergeOverlappingDetections (sortByConfidence detections) threshold
     = Legacy.mergeOverlappingDetections detections threshold
  /\ Current.mergeOverlappingDetections (sortByConfidence detections) threshold
     = omap head (Current.clusters (sortByConfidence detections) threshold).
Proof.
  split; [apply legacy_merge_walks_sorted|].
  split; [apply sortByConfidence_perm|].
  split; [apply sortByConfidence_descending|].
  split.
  - rewrite !legacy_merge_walks_sorted, sortByConfidence_idempotent. reflexivity.
  - rewrite mergeOverlappingDetections_loop. unfold Current.clusters.
    apply sorted_mergeLoop_emits_seeds, descending_strong, sortByConfidence_descending.
Qed.

(** C4, counterexample.  The Merger of [detection.js] does not sort: on the
    candidates [left] (0.7), [middle] (0.9), [right] (0.8) the first cluster
    is seeded by [left] although [middle] has the higher confidence, and the
    output differs from the output on the sorted permutation. *)
Lemma current_merger_does_not_sort :
  Current.clusters [Sample.left; Sample.middle; Sample.right] 0.3
    = [[Sample.left; Sample.middle]; [Sample.right]]
  /\ Current.mergeOverlappingDetections [Sample.left; Sample.middle; Sample.right] 0.3
     = [Sample.middle; Sample.right]
  /\ Current.mergeOverlappingDetections
       (sortByConfidence [Sample.left; Sample.middle; Sample.right]) 0.3
     = [Sample.middle]
  /\ Current.mergeOverlappingDetections [Sample.left; Sample.middle; Sample.right] 0.3
     <> Current.mergeOverlappingDetections
          (sortByConfidence [Sample.left; Sample.middle; Sample.right]) 0.3.
Proof.
  repeat split; try (vm_compute; reflexivity).
  vm_compute. intros H. discriminate H.
Qed.

(** C5, counterexample.  Two helmet candidates whose overlap equals the
    threshold 0.3 exactly, as a ratio of areas and as the double computed,
    are both kept. *)
Lemma overlap_equal_to_threshold_is_kept :
  intersectionOverUnion (bbox Sample.whole) (bbox Sample.strip) == 0.3
  /\ calculateOverlap (bbox Sample.whole) (bbox Sample.strip) = Double.ofQ 0.3
  /\ label Sample.whole = label Sample.strip
  /\ Current.mergeOverlappingDetections [Sample.whole; Sample.strip] 0.3
     = [Sample.whole; Sample.strip]
  /\ Legacy.mergeOverlappingDetections [Sample.whole; Sample.strip] 0.3
     = [Sample.whole; Sample.strip].
Proof. repeat split; vm_compute; reflexivity. Qed.

(** The statement above at the seed [left] and the later candidate [middle],
    whose overlap is a third. *)
Lemma consumed_iff_overlap_exceeds_witness :
  1%nat ∈ snd (mergeInner 0.3 Sample.left 1 [Sample.middle] {[0%nat]})
  <-> Double.ltb' (Double.ofQ 0.3)
                  (calculateOverlap (bbox Sample.left) (bbox Sample.middle)) = true
      /\ label Sample.left = label Sample.middle.
Proof.
  apply (consumed_iff_overlap_exceeds 0.3 Sample.left 1 [Sample.middle] {[0%nat]} 0
           Sample.middle).
  - reflexivity.
  - intros H. apply elem_of_singleton in H. discriminate H.
Defined.

(** The computed overlap is the ratio of the areas up to rounding, and the
    rounding decides at the threshold: the boxes [low] and [tall] overlap by
    0.3 exactly, the double computed for them is the next one above the
    double 0.3, and they are merged at the threshold 0.3. *)
Lemma rounding_decides_at_the_threshold :
  intersectionOverUnion (bbox Sample.low) (bbox Sample.tall) == 0.3
  /\ Double.ltb' (Double.ofQ 0.3)
                 (calculateOverlap (bbox Sample.low) (bbox Sample.tall)) = true
  /\ Current.mergeOverlappingDetections [Sample.low; Sample.tall] 0.3 = [Sample.low].
Proof. repeat split; vm_compute; reflexivity. Qed.

(** ** The filename fallback *)

Section Fallback.

Lemma prefix_toLowerCase needle s :
  Js.toLowerCase needle = needle ->
  String.prefix needle s = true -> String.prefix needle (Js.toLowerCase s) = true.
Proof.
  revert s. induction needle as [|a needle IH]; intros s Hlow Hp.
  - destruct s; reflexivity.
  - destruct s as [|b s]; simpl in *; [discriminate|].
    injection Hlow as Ha Hneedle.
    destruct (ascii_dec a b) as [<-|]; [|discriminate].
    rewrite Ha. destruct (ascii_dec a a) as [_|Hne]; [|contradiction].
    apply IH; assumption.
Qed.

Lemma includes_toLowerCase needle s :
  Js.toLowerCase needle = needle ->
  Js.includes s needle = true -> Js.includes (Js.toLowerCase s) needle = true.
Proof.
  intros Hlow. induction s as [|c s IH]; simpl; intros H.
  - exact H.
  - apply orb_true_iff in H as [H|H]; apply orb_true_iff.
    + left. apply (prefix_toLowerCase needle (String c s) Hlow H).
    + right. apply IH, H.
Qed.

End Fallback.

(** C2 (as amended).  In [detection.js] a failure of the decoder yields the
    empty set, whatever the name of the file; nothing is thrown.  The filename
    heuristic is [fallbackDetection] of the earlier module, which its
    [detectPPEObjects] returns when the scan throws: for a filename containing
    "helmet" the result holds exactly one helmet detection, of confidence 0.75
    and box (0.2 w, 0.1 h, 0.6 w, 0.4 h) in pixels, which the earlier
    [detectPPE] hands on as the box (0.2, 0.1, 0.6, 0.4). *)
Theorem fallback_emits_one_helmet (imagePath : string) (width height : Z) :
  Js.includes imagePath "helmet" = true ->
  (0 < width)%Z -> (0 < height)%Z ->
  (forall source, decodeFails source imagePath -> Current.detectPPE source imagePath = [])
  /\ Legacy.detectPPEObjects None imagePath width height
     = Legacy.fallbackDetection imagePath width height
  /\ List.filter (fun d => bool_decide (label d = helmet))
       (Legacy.fallbackDetection imagePath width height)
     = [mkDetection helmet 0.75 None
          (mkBBox (width * 0.2) (height * 0.1) (width * 0.6) (height * 0.4))]
  /\ exists d,
       List.filter (fun d => bool_decide (label d = helmet))
         (Legacy.detectPPE (Legacy.detectPPEObjects None imagePath width height) width height)
       = [d]
       /\ confidence d = 0.75
       /\ bbox_x (bbox d) == 0.2 /\ bbox_y (bbox d) == 0.1
       /\ bbox_width (bbox d) == 0.6 /\ bbox_height (bbox d) == 0.4.
Proof.
  intros Hname Hw Hh.
  apply (includes_toLowerCase "helmet" imagePath eq_refl) in Hname.
  assert (Hw' : ~ inject_Z width == 0).
  { unfold Qeq. simpl. lia. }
  assert (Hh' : ~ inject_Z height == 0).
  { unfold Qeq. simpl. lia. }
  split.
  { intros source. unfold decodeFails, Current.detectPPE, Current.analyzeImageForPPE.
    destruct (getImageInfo source imagePath) as [[w h]|]; [|reflexivity].
    intros Hfail. cbn [Current.detections]. unfold Current.detectPPEObjects.
    rewrite Hfail. reflexivity. }
  split; [reflexivity|].
  unfold Legacy.detectPPEObjects, Legacy.fallbackDetection. rewrite Hname.
  split.
  - destruct (Js.includes (Js.toLowerCase imagePath) "vest"); reflexivity.
  - eexists. split; [|split; [|repeat split]].
    + destruct (Js.includes (Js.toLowerCase imagePath) "vest"); reflexivity.
    + reflexivity.
    + simpl. field. exact Hw'.
    + simpl. field. exact Hh'.
    + simpl. field. exact Hw'.
    + simpl. field. exact Hh'.
Qed.

(** The statement above for the file "uploads/helmet-01.jpg" of an
    800 x 600 image. *)
Lemma fallback_emits_one_helmet_witness :
  List.filter (fun d => bool_decide (label d = helmet))
    (Legacy.fallbackDetection "uploads/helmet-01.jpg" 800 600)
  = [mkDetection helmet 0.75 None
       (mkBBox (800%Z * 0.2) (600%Z * 0.1) (800%Z * 0.6) (600%Z * 0.4))].
Proof.
  apply (fallback_emits_one_helmet "uploads/helmet-01.jpg" 800 600);
    [vm_compute; reflexivity|reflexivity|reflexivity].
Defined.

(** C2, counterexample.  In [detection.js] a file that cannot be decoded
    yields the empty set whatever its name: no helmet detection is returned
    for "uploads/helmet.jpg". *)
Lemma decode_failure_yields_nothing :
  Js.includes "uploads/helmet.jpg" "helmet" = true
  /\ Current.detectPPE Sample.undecodable "uploads/helmet.jpg" = []
  /\ Current.detectPPE Sample.unrasterizable "uploads/helmet.jpg" = []
  /\ countLabel helmet (Current.detectPPE Sample.undecodable "uploads/helmet.jpg") = 0%nat.
Proof. repeat split; vm_compute; reflexivity. Qed.

(** ** The helmet scorers *)

Section HelmetScorers.

(** Closes a goal on a closed list of gates by evaluation. *)
Ltac evaluate :=
  match goal with
  | |- ?accepted = true <-> _ \/ _ =>
      let value := eval vm_compute in accepted in
      replace accepted with value by (vm_compute; reflexivity);
      split;
      [ intros H;
        first [ discriminate H
              | left; vm_compute; reflexivity
              | right; vm_compute; reflexivity ]
      | intros [H|H]; first [reflexivity | vm_compute in H; discriminate H] ]
  | |- _ => vm_compute; reflexivity
  end.

Lemma legacy_helmet_scorer (region : Legacy.RegionData) :
  Legacy.pixels region <> [] ->
  let gates :=
    helmetGatesReference
      (Legacy.isValidHelmetColor (Legacy.avgColor region))
      (Legacy.colorVariance region) (Legacy.roundness region) (Legacy.edgeIntensity region)
      (Double.ltb' (Double.ofQ (Legacy.centerY region))
                   (Double.mul' (Double.ofZ (Legacy.imageHeight region)) (Double.ofQ 0.4))) in
  Legacy.analyzeHelmetRegion (Some region)
  = helmetScoreReference
      (Legacy.isValidHelmetColor (Legacy.avgColor region))
      (Legacy.colorVariance region) (Legacy.roundness region) (Legacy.edgeIntensity region)
      (Double.ltb' (Double.ofQ (Legacy.centerY region))
                   (Double.mul' (Double.ofZ (Legacy.imageHeight region)) (Double.ofQ 0.4)))
  /\ (fst (Legacy.analyzeHelmetRegion (Some region)) = true
      <-> 0.7 < exactSum gates \/ List.map fst gates = [false; true; true; true; false]).
Proof.
  intros Hpixels. cbv zeta.
  unfold Legacy.analyzeHelmetRegion, helmetScoreReference, helmetGatesReference.
  destruct (Legacy.pixels region) as [|p ps]; [contradiction|].
  cbv zeta.
  destruct (Legacy.isValidHelmetColor _),
           (Double.ltb (Legacy.colorVariance region) 0.3),
           (Double.ltb 0.6 (Legacy.roundness region)),
           (Double.ltb 0.3 (Legacy.edgeIntensity region)
            && Double.ltb (Legacy.edgeIntensity region) 0.8),
           (Double.ltb' (Double.ofQ (Legacy.centerY region)) _);
    split; evaluate.
Qed.

Lemma current_helmet_scorer (p : Px.t) (ps : list Px.t) (blockSize : Z) :
  let analysis := Current.analyzeHelmetRegion (p :: ps) blockSize in
  let matched :=
    Current.matchHelmetColor (Current.dominant (Current.analyzeColors (p :: ps))) in
  let shape := Current.analyzeShape (p :: ps) blockSize in
  let gates := helmetGatesOfShape (bool_decide (is_Some matched)) shape in
  (Current.isHelmet analysis, Current.helmetConfidence analysis)
  = helmetScoreOfShape (bool_decide (is_Some matched)) shape
  /\ Current.helmetColor analysis = Some (default "unknown"%string matched)
  /\ (Current.isHelmet analysis = true
      <-> 0.7 < exactSum gates \/ List.map fst gates = [true; false; true; true]).
Proof.
  cbv zeta.
  unfold Current.analyzeHelmetRegion, helmetScoreOfShape, helmetGatesOfShape.
  cbv zeta. cbn [Current.isHelmet Current.helmetConfidence Current.helmetColor].
  destruct (Current.matchHelmetColor _),
           (Double.ltb' (Double.ofQ 0.6) (Current.roundness _)),
           (Double.ltb' (Double.ofQ 0.7) (Current.uniformity _)),
           (Double.ltb' (Double.ofQ 0.5) (Current.edgeDensity _));
    (split; [|split]); evaluate.
Qed.

(** The scores of the windows of [detection.js]: one of the sixteen sums
    of gate weights, capped. *)
Lemma helmet_confidence_range (region : list Px.t) (blockSize : Z) :
  0 <= Double.toQ (Current.helmetConfidence (Current.analyzeHelmetRegion region blockSize))
  /\ Double.toQ (Current.helmetConfidence (Current.analyzeHelmetRegion region blockSize))
     <= 0.95.
Proof.
  unfold Current.analyzeHelmetRegion. destruct region as [|p ps].
  - split; vm_compute; intros H; discriminate H.
  - cbv zeta. cbn [Current.helmetConfidence].
    destruct (Current.matchHelmetColor _),
             (Double.ltb' (Double.ofQ 0.6) (Current.roundness _)),
             (Double.ltb' (Double.ofQ 0.7) (Current.uniformity _)),
             (Double.ltb' (Double.ofQ 0.5) (Current.edgeDensity _));
      split; vm_compute; intros H; discriminate H.
Qed.

Lemma accepted_helmet_confidence (region : list Px.t) (blockSize : Z) :
  Current.isHelmet (Current.analyzeHelmetRegion region blockSize) = true ->
  Double.ltb' (Double.ofQ 0.7)
              (Current.helmetConfidence (Current.analyzeHelmetRegion region blockSize)) = true
  /\ 0.7 < Double.toQ (Current.helmetConfidence
                         (Current.analyzeHelmetRegion region blockSize)).
Proof.
  unfold Current.analyzeHelmetRegion. destruct region as [|p ps]; [discriminate|].
  cbv zeta. cbn [Current.isHelmet Current.helmetConfidence].
  destruct (Current.matchHelmetColor _),
           (Double.ltb' (Double.ofQ 0.6) (Current.roundness _)),
           (Double.ltb' (Double.ofQ 0.7) (Current.uniformity _)),
           (Double.ltb' (Double.ofQ 0.5) (Current.edgeDensity _));
    intros H; vm_compute in H; first [discriminate H | split; vm_compute; reflexivity].
Qed.

Lemma vest_confidence_range (region : list Px.t) (blockSize : Z) :
  0 <= Double.toQ (Current.vestConfidence (Current.analyzeVestRegion region blockSize))
  /\ Double.toQ (Current.vestConfidence (Current.analyzeVestRegion region blockSize))
     <= 0.95.
Proof.
  unfold Current.analyzeVestRegion. destruct region as [|p ps].
  - split; vm_compute; intros H; discriminate H.
  - cbv zeta. cbn [Current.vestConfidence].
    destruct (Current.isColorInRange _ _),
             (Current.hasReflectiveStripes _),
             (Current.hasHorizontalStripes _),
             (Double.ltb' (Double.ofQ 0.6) (Current.brightness _));
      split; vm_compute; intros H; discriminate H.
Qed.

Lemma accepted_vest_confidence (region : list Px.t) (blockSize : Z) :
  Current.isVest (Current.analyzeVestRegion region blockSize) = true ->
  Double.ltb' (Double.ofQ 0.65)
              (Current.vestConfidence (Current.analyzeVestRegion region blockSize)) = true
  /\ 0.65 < Double.toQ (Current.vestConfidence
                          (Current.analyzeVestRegion region blockSize)).
Proof.
  unfold Current.analyzeVestRegion. destruct region as [|p ps]; [discriminate|].
  cbv zeta. cbn [Current.isVest Current.vestConfidence].
  destruct (Current.isColorInRange _ _),
           (Current.hasReflectiveStripes _),
           (Current.hasHorizontalStripes _),
           (Double.ltb' (Double.ofQ 0.6) (Current.brightness _));
    intros H; vm_compute in H; first [discriminate H | split; vm_compute; reflexivity].
Qed.

End HelmetScorers.

(** C8 (as amended).  The helmet scorer of the earlier module, on a region
    with pixels, equals the reference definition computed in double
    arithmetic: the weights of the gates that hold are added in the order
    colour (0.4, [isValidHelmetColor] of the average colour), variance below
    0.3 (0.3), roundness above 0.6 (0.25), edge intensity between 0.3 and 0.8
    (0.15), region centre above 40% of the image height (0.1); the sum is
    capped at 0.98 and the region is accepted when the computed sum exceeds
    0.7.  That is the case exactly when the exact sum of the weights exceeds
    0.7, or the gates that hold are variance, roundness and edges, whose
    weights are added to 0.7000000000000001.  The helmet scorer of
    [detection.js], on a window with pixels, is another sum: 0.4 for a
    dominant colour in a helmet colour range, 0.3 for roundness above 0.6,
    0.2 for uniformity above 0.7, 0.1 for edge density above 0.5, capped at
    0.95 and accepted when the computed sum exceeds 0.7: when the exact sum
    exceeds 0.7, or the gates that hold are colour, uniformity and edge
    density. *)
Theorem helmet_scorers_are_weighted_sums (region : Legacy.RegionData)
    (regionPixels : list Px.t) (blockSize : Z) :
  Legacy.pixels region <> [] ->
  regionPixels <> [] ->
  let inTopOfImage :=
    Double.ltb' (Double.ofQ (Legacy.centerY region))
                (Double.mul' (Double.ofZ (Legacy.imageHeight region)) (Double.ofQ 0.4)) in
  let referenceGates :=
    helmetGatesReference
      (Legacy.isValidHelmetColor (Legacy.avgColor region))
      (Legacy.colorVariance region) (Legacy.roundness region) (Legacy.edgeIntensity region)
      inTopOfImage in
  let inHelmetColorRange :=
    bool_decide (is_Some (Current.matchHelmetColor
                            (Current.dominant (Current.analyzeColors regionPixels)))) in
  let shape := Current.analyzeShape regionPixels blockSize in
  (Legacy.analyzeHelmetRegion (Some region)
   = helmetScoreReference
       (Legacy.isValidHelmetColor (Legacy.avgColor region))
       (Legacy.colorVariance region) (Legacy.roundness region) (Legacy.edgeIntensity region)
       inTopOfImage
   /\ (fst (Legacy.analyzeHelmetRegion (Some region)) = true
       <-> 0.7 < exactSum referenceGates
           \/ List.map fst referenceGates = [false; true; true; true; false]))
  /\ ((Current.isHelmet (Current.analyzeHelmetRegion regionPixels blockSize),
       Current.helmetConfidence (Current.analyzeHelmetRegion regionPixels blockSize))
      = helmetScoreOfShape inHelmetColorRange shape
      /\ (Current.isHelmet (Current.analyzeHelmetRegion regionPixels blockSize) = true
          <-> 0.7 < exactSum (helmetGatesOfShape inHelmetColorRange shape)
              \/ List.map fst (helmetGatesOfShape inHelmetColorRange shape)
                 = [true; false; true; true])).
Proof.
  intros Hpixels Hwindow. cbv zeta. split.
  - exact (legacy_helmet_scorer region Hpixels).
  - destruct regionPixels as [|p ps]; [contradiction|].
    destruct (current_helmet_scorer p ps blockSize) as (Hscore & _ & Haccept).
    split; assumption.
Qed.

(** The statement above on a yellow dome-shaped region of the earlier
    module and on a grey window of [detection.js]. *)
Lemma helmet_scorers_are_weighted_sums_witness :
  Legacy.analyzeHelmetRegion (Some Sample.yellowDome) = (true, Double.ofQ 0.98)
  /\ (Current.isHelmet (Current.analyzeHelmetRegion Sample.grey 32),
      Current.helmetConfidence (Current.analyzeHelmetRegion Sample.grey 32))
     = (false, Double.ofQ 0.6).
Proof.
  destruct (helmet_scorers_are_weighted_sums Sample.yellowDome Sample.grey 32)
    as [[Hscore _] [Hscore' _]].
  - discriminate.
  - discriminate.
  - split.
    + rewrite Hscore. vm_compute. reflexivity.
    + rewrite Hscore'. vm_compute. reflexivity.
Defined.

(** C8, counterexample.  The helmet scorer of [detection.js] is another sum
    (0.4 colour, 0.3 roundness, 0.2 uniformity, 0.1 edge density, capped at
    0.95): on a grey 32 x 32 window it returns the confidence 0.6, a value
    the reference definition takes for no feature vector.  And the scorer of
    the earlier module accepts the grey dome, whose gates (variance,
    roundness, edges) have weights of sum 0.7 exactly, not more: the sum is
    computed as 0.7000000000000001. *)
Lemma current_helmet_scorer_differs :
  (Current.helmetConfidence (Current.analyzeHelmetRegion Sample.grey 32) = Double.ofQ 0.6
   /\ Current.isHelmet (Current.analyzeHelmetRegion Sample.grey 32) = false
   /\ forall inRange variance round edges top,
        snd (helmetScoreReference inRange variance round edges top) <> Double.ofQ 0.6)
  /\ (Legacy.analyzeHelmetRegion (Some Sample.greyDome)
      = (true, Double.ofQ 0.7000000000000001)
      /\ exactSum (helmetGatesReference
                     (Legacy.isValidHelmetColor (Legacy.avgColor Sample.greyDome))
                     (Legacy.colorVariance Sample.greyDome)
                     (Legacy.roundness Sample.greyDome)
                     (Legacy.edgeIntensity Sample.greyDome) false) == 0.7).
Proof.
  split; [|split; vm_compute; reflexivity].
  split; [vm_compute; reflexivity|]. split; [vm_compute; reflexivity|].
  intros inRange variance round edges top.
  unfold helmetScoreReference, helmetGatesReference. cbv zeta.
  destruct inRange, top, (Double.ltb variance 0.3), (Double.ltb 0.6 round),
           (Double.ltb 0.3 edges && Double.ltb edges 0.8);
    vm_compute; intros H; discriminate H.
Qed.

(** ** The detection hash *)

Section Hash.

Lemma string_length_append (s1 s2 : string) :
  String.length (s1 ++ s2) = (String.length s1 + String.length s2)%nat.
Proof. induction s1 as [|c s1 IH]; simpl; [reflexivity|]. rewrite IH. reflexivity. Qed.

Lemma string_append_assoc (s1 s2 s3 : string) :
  ((s1 ++ s2) ++ s3 = s1 ++ s2 ++ s3)%string.
Proof.
  induction s1 as [|c s1 IH]; [reflexivity|].
  change (String c ((s1 ++ s2) ++ s3) = String c (s1 ++ s2 ++ s3))%string.
  f_equal. exact IH.
Qed.

Lemma substring_length (n m : nat) (s : string) :
  (n + m <= String.length s)%nat -> String.length (substring n m s) = m.
Proof.
  revert n m. induction s as [|c s IH]; intros n m H; simpl in H.
  - assert (n = 0 /\ m = 0)%nat as [-> ->] by lia. reflexivity.
  - destruct n as [|n]; simpl.
    + destruct m as [|m]; simpl; [reflexivity|]. rewrite IH by lia. reflexivity.
    + apply IH. lia.
Qed.

Lemma zeros_length n : String.length (Js.zeros n) = n.
Proof. unfold Js.zeros. induction n as [|n IH]; simpl; [reflexivity|]. rewrite IH. reflexivity. Qed.

(** [toFixed(digits)] writes exactly [digits] digits after the point. *)
Lemma toFixed_places digits q : digits <> 0%nat -> hasPlaces digits (Js.toFixed digits q).
Proof.
  intros Hd. unfold hasPlaces, Js.toFixed, Js.renderFixed. cbv zeta.
  set (m := (Js.zeros _ ++ _)%string).
  assert (Hm : (S digits <= String.length m)%nat).
  { unfold m. rewrite string_length_append, zeros_length. lia. }
  exists ((if fst (Js.fixedParts digits q) then "-" else "")
          ++ substring 0 (String.length m - digits) m)%string,
         (substring (String.length m - digits) digits m).
  split.
  - rewrite (proj2 (Nat.eqb_neq digits 0) Hd), string_append_assoc. reflexivity.
  - apply substring_length. lia.
Qed.

Lemma hexDigit_hex v : isHexChar (Md5.hexDigit v).
Proof.
  unfold isHexChar, Md5.hexDigit.
  destruct (nth_in_or_default (Z.to_nat (Z.land v 15))
              (list_ascii_of_string "0123456789abcdef") "0"%char) as [H|H].
  - exact H.
  - rewrite H. left. reflexivity.
Qed.

Lemma map_factor {A B C : Type} (f : A -> B) (g : A -> C) :
  (forall a a', f a = f a' -> g a = g a') ->
  forall l l', List.map f l = List.map f l' -> List.map g l = List.map g l'.
Proof.
  intros Hfg. induction l as [|a l IH]; intros [|a' l'] H; simpl in H;
    try discriminate; [reflexivity|].
  injection H as Ha Hl. simpl. f_equal; [apply Hfg, Ha|apply IH, Hl].
Qed.

Lemma canonicalForm_hashData d d' :
  canonicalForm d = canonicalForm d' -> Current.hashData d = Current.hashData d'.
Proof.
  intros H.
  apply (f_equal (fun form =>
           let '(l, c, x, y, w, h) := form in
           Current.mkHashData (labelName l) (Js.renderFixed 2 c) (Js.renderFixed 3 x)
             (Js.renderFixed 3 y) (Js.renderFixed 3 w) (Js.renderFixed 3 h))) in H.
  exact H.
Qed.

Lemma append_cons (c : ascii) (s t : string) :
  (String c s ++ t = String c (s ++ t))%string.
Proof. reflexivity. Qed.

Lemma append_nil (t : string) : (EmptyString ++ t = t)%string.
Proof. reflexivity. Qed.

Lemma without_append c s t : without c s -> without c t -> without c (s ++ t).
Proof.
  induction s as [|a s IH]; intros Hs Ht; [exact Ht|].
  rewrite append_cons. destruct Hs as [Ha Hs]. split; [exact Ha|apply IH; assumption].
Qed.

Lemma without_substring c n m s : without c s -> without c (substring n m s).
Proof.
  revert n m. induction s as [|a s IH]; intros n m Hs.
  - destruct n, m; exact I.
  - destruct Hs as [Ha Hs]. destruct n as [|n]; cbn [substring].
    + destruct m as [|m]; [exact I|]. split; [exact Ha|apply IH, Hs].
    + apply IH, Hs.
Qed.

Lemma without_zeros c n : c <> "0"%char -> without c (Js.zeros n).
Proof.
  intros Hc. unfold Js.zeros. induction n as [|n IH]; [exact I|].
  split; [congruence|exact IH].
Qed.

Lemma without_digits c d :
  ~ isDigit c -> without c (NilEmpty.string_of_uint d).
Proof.
  intros Hc. unfold isDigit in Hc. cbn [list_ascii_of_string In] in Hc.
  induction d; cbn [NilEmpty.string_of_uint]; try exact I;
    (split; [intros <-; tauto|assumption]).
Qed.

Lemma to_uint_digits (n : N) :
  NilZero.string_of_uint (N.to_uint n) = NilEmpty.string_of_uint (N.to_uint n).
Proof.
  destruct n as [|p]; [reflexivity|].
  unfold NilZero.string_of_uint. cbn [N.to_uint].
  pose proof (DecimalPos.Unsigned.to_uint_nonnil p) as Hp.
  destruct (Pos.to_uint p); [contradiction|reflexivity..].
Qed.

Lemma without_padded c digits n : ~ isDigit c -> without c (padded digits n).
Proof.
  intros Hc. unfold padded. cbv zeta. apply without_append.
  - apply without_zeros. intros ->. apply Hc. left. reflexivity.
  - rewrite to_uint_digits. apply without_digits, Hc.
Qed.

Lemma digitsValue_zeros n s : digitsValue (Js.zeros n ++ s) = digitsValue s.
Proof.
  unfold Js.zeros. induction n as [|n IH]; [reflexivity|].
  cbn [List.repeat string_of_list_ascii]. rewrite append_cons.
  unfold digitsValue in *. cbn [NilEmpty.uint_of_string].
  destruct (NilEmpty.uint_of_string _) as [d|] eqn:E.
  - cbn [uint_of_char]. rewrite <- IH. reflexivity.
  - cbn [uint_of_char]. rewrite <- IH. reflexivity.
Qed.

Lemma digitsValue_padded digits n : (0 <= n)%Z -> Z.of_N (digitsValue (padded digits n)) = n.
Proof.
  intros Hn. unfold padded. cbv zeta.
  rewrite digitsValue_zeros, to_uint_digits. unfold digitsValue.
  rewrite NilEmpty.usu, DecimalN.Unsigned.of_to. lia.
Qed.


Lemma contains_append c s t : contains c (s ++ t) = contains c s || contains c t.
Proof.
  induction s as [|a s IH]; [reflexivity|].
  rewrite append_cons. cbn [contains]. rewrite IH, orb_assoc. reflexivity.
Qed.

Lemma contains_without c s : without c s -> contains c s = false.
Proof.
  induction s as [|a s IH]; [reflexivity|]. intros [Ha Hs]. cbn [contains].
  rewrite (IH Hs), orb_false_r. apply Ascii.eqb_neq, Ha.
Qed.

Lemma strip_append c s t : (strip c (s ++ t) = strip c s ++ strip c t)%string.
Proof.
  induction s as [|a s IH]; [reflexivity|].
  rewrite append_cons. cbn [strip]. destruct (Ascii.eqb a c); [exact IH|].
  rewrite append_cons, IH. reflexivity.
Qed.

Lemma strip_without c s : without c s -> strip c s = s.
Proof.
  induction s as [|a s IH]; [reflexivity|]. intros [Ha Hs]. cbn [strip].
  apply Ascii.eqb_neq in Ha. rewrite Ha, (IH Hs). reflexivity.
Qed.

Lemma substring_whole (s : string) : substring 0 (String.length s) s = s.
Proof. induction s as [|a s IH]; [reflexivity|]. cbn [String.length substring]. rewrite IH. reflexivity. Qed.

Lemma substring_split (n : nat) (s : string) :
  (n <= String.length s)%nat ->
  (substring 0 n s ++ substring n (String.length s - n) s = s)%string.
Proof.
  revert s. induction n as [|n IH]; intros s Hn.
  - rewrite Nat.sub_0_r, substring_whole. destruct s; reflexivity.
  - destruct s as [|a s]; cbn [String.length] in *; [lia|].
    cbn [substring]. rewrite append_cons. replace (S (String.length s) - S n)%nat
      with (String.length s - n)%nat by lia.
    rewrite IH by lia. reflexivity.
Qed.

Lemma padded_length digits n : (S digits <= String.length (padded digits n))%nat.
Proof. unfold padded. cbv zeta. rewrite string_length_append, zeros_length. lia. Qed.

Lemma renderFixed_padded digits sign n :
  Js.renderFixed digits (sign, n)
  = ((if sign then "-" else "")
     ++ substring 0 (String.length (padded digits n) - digits) (padded digits n)
     ++ (if (digits =? 0)%nat then "" else ".")
     ++ substring (String.length (padded digits n) - digits) digits (padded digits n))%string.
Proof. reflexivity. Qed.

Lemma readFixed_renderFixed digits sign n :
  (0 <= n)%Z -> readFixed (Js.renderFixed digits (sign, n)) = (sign, n).
Proof.
  intros Hn. rewrite renderFixed_padded.
  pose proof (padded_length digits n) as Hlen.
  set (m := padded digits n) in *.
  assert (Hminus : without "-" m) by (apply without_padded; cbv; intuition discriminate).
  assert (Hdot : without "." m) by (apply without_padded; cbv; intuition discriminate).
  unfold readFixed. f_equal.
  - rewrite !contains_append.
    rewrite (contains_without "-" (substring _ _ m)) by (apply without_substring, Hminus).
    rewrite (contains_without "-" (substring _ _ m)) by (apply without_substring, Hminus).
    destruct sign, (digits =? 0)%nat; reflexivity.
  - rewrite !strip_append.
    rewrite !(strip_without "-" (substring _ _ m)) by (apply without_substring, Hminus).
    rewrite !(strip_without "." (substring _ _ m)) by (apply without_substring, Hdot).
    replace (strip "." (strip "-" (if sign then "-" else ""))) with EmptyString
      by (destruct sign; reflexivity).
    replace (strip "." (strip "-" (if (digits =? 0)%nat then "" else "."))) with EmptyString
      by (destruct (digits =? 0)%nat; reflexivity).
    rewrite !append_nil.
    pose proof (substring_split (String.length m - digits) m) as Hsplit.
    replace (String.length m - (String.length m - digits))%nat with digits in Hsplit by lia.
    rewrite Hsplit by lia.
    apply digitsValue_padded, Hn.
Qed.

Lemma fixedParts_nonneg digits q : (0 <= snd (Js.fixedParts digits q))%Z.
Proof.
  unfold Js.fixedParts. cbn [snd].
  change 0%Z with (Qfloor 0). apply Qfloor_resp_le.
  pose proof (Qabs_nonneg q) as Hq.
  assert (Hp : 0 <= inject_Z (10 ^ Z.of_nat digits)).
  { change 0 with (inject_Z 0). rewrite <- Zle_Qle. apply Z.pow_nonneg. lia. }
  assert (0 <= Qabs q * inject_Z (10 ^ Z.of_nat digits)) by (apply Qmult_le_0_compat; assumption).
  lra.
Qed.

(** [toFixed] writes the rounded number and nothing else. *)
Lemma toFixed_inj digits q q' :
  Js.toFixed digits q = Js.toFixed digits q' -> Js.fixedParts digits q = Js.fixedParts digits q'.
Proof.
  unfold Js.toFixed. intros H.
  pose proof (fixedParts_nonneg digits q) as Hq.
  pose proof (fixedParts_nonneg digits q') as Hq'.
  destruct (Js.fixedParts digits q) as [sign n], (Js.fixedParts digits q') as [sign' n'].
  cbn [snd] in *. apply (f_equal readFixed) in H.
  rewrite !readFixed_renderFixed in H by assumption. exact H.
Qed.

Lemma without_toFixed c digits q :
  ~ isDigit c -> c <> "-"%char -> c <> "."%char -> without c (Js.toFixed digits q).
Proof.
  intros Hd Hm Hp. unfold Js.toFixed.
  rewrite (surjective_pairing (Js.fixedParts digits q)), renderFixed_padded.
  pose proof (without_padded c digits (snd (Js.fixedParts digits q)) Hd) as Hpad.
  repeat apply without_append.
  - destruct (fst _); [split; [congruence|exact I]|exact I].
  - apply without_substring, Hpad.
  - destruct (digits =? 0)%nat; [exact I|split; [congruence|exact I]].
  - apply without_substring, Hpad.
Qed.

Lemma labelName_inj l l' : labelName l = labelName l' -> l = l'.
Proof. destruct l, l'; intros H; first [reflexivity | discriminate H]. Qed.

Lemma hashData_plain d : plain (Current.hashData d).
Proof.
  assert (Hfixed : forall digits q, without "034" (Js.toFixed digits q)).
  { intros digits q. apply without_toFixed; [|discriminate|discriminate].
    cbv. intuition discriminate. }
  unfold plain, Current.hashData.
  cbn [Current.hash_label Current.hash_confidence Current.hash_x Current.hash_y
       Current.hash_width Current.hash_height].
  repeat split; try apply Hfixed.
  destruct (label d); cbv; intuition discriminate.
Qed.

Lemma append_inv_head (s a b : string) : (s ++ a = s ++ b)%string -> a = b.
Proof.
  induction s as [|c s IH]; [trivial|]. rewrite !append_cons. intros H.
  injection H as H. apply IH, H.
Qed.

Lemma split_at_quote (f f' r r' : string) :
  without "034" f -> without "034" f' ->
  (f ++ Current.quote ++ r = f' ++ Current.quote ++ r')%string -> f = f' /\ r = r'.
Proof.
  revert f'. induction f as [|a f IH]; intros [|a' f'] Hf Hf' H.
  - apply (append_inv_head Current.quote) in H. tauto.
  - rewrite append_nil, append_cons in H. unfold Current.quote in H.
    rewrite append_cons in H. injection H as Ha _. destruct Hf' as [Hq _]. congruence.
  - rewrite append_nil, append_cons in H. unfold Current.quote in H.
    rewrite append_cons in H. injection H as Ha _. destruct Hf as [Hq _]. congruence.
  - rewrite !append_cons in H. injection H as Ha H.
    destruct Hf as [_ Hf], Hf' as [_ Hf'].
    destruct (IH f' Hf Hf' H) as [-> ->]. subst. tauto.
Qed.

Ltac next_field H :=
  repeat (apply append_inv_head in H);
  apply split_at_quote in H; [|assumption|assumption];
  let E := fresh "E" in destruct H as [E H].

Lemma jsonHashData_inj (h h' : Current.HashData) (t t' : string) :
  plain h -> plain h' ->
  (Current.jsonHashData h ++ t = Current.jsonHashData h' ++ t')%string ->
  h = h' /\ t = t'.
Proof.
  intros (Hl & Hc & Hx & Hy & Hw & Hh) (Hl' & Hc' & Hx' & Hy' & Hw' & Hh') H.
  unfold Current.jsonHashData, Current.jsonMember, Current.jsonString in H.
  rewrite !string_append_assoc in H.
  next_field H. next_field H. next_field H. next_field H. next_field H. next_field H.
  repeat (apply append_inv_head in H).
  destruct h, h'. cbn in *. subst. tauto.
Qed.

Lemma join_afterItem h others :
  (Js.join "," (List.map Current.jsonHashData (h :: others)) ++ "]"
   = Current.jsonHashData h ++ afterItem others)%string.
Proof.
  destruct others as [|h2 others]; [reflexivity|].
  cbn [List.map Js.join afterItem]. rewrite !string_append_assoc. reflexivity.
Qed.

Lemma jsonHashData_brace h t : exists rest, (Current.jsonHashData h ++ t)%string = String "{" rest.
Proof.
  unfold Current.jsonHashData. rewrite !string_append_assoc. eexists. reflexivity.
Qed.

Lemma items_inj (hs hs' : list Current.HashData) :
  Forall plain hs -> Forall plain hs' ->
  (Js.join "," (List.map Current.jsonHashData hs) ++ "]"
   = Js.join "," (List.map Current.jsonHashData hs') ++ "]")%string ->
  hs = hs'.
Proof.
  intros Hp. revert hs'. induction Hp as [|h hs Hh Hhs IH]; intros hs' Hp' H.
  - destruct Hp' as [|h' hs' Hh' Hhs']; [reflexivity|].
    rewrite join_afterItem in H. destruct (jsonHashData_brace h' (afterItem hs')) as [rest E].
    rewrite E in H. discriminate H.
  - destruct Hp' as [|h' hs' Hh' Hhs'].
    + rewrite join_afterItem in H. destruct (jsonHashData_brace h (afterItem hs)) as [rest E].
      rewrite E in H. discriminate H.
    + rewrite !join_afterItem in H.
      destruct (jsonHashData_inj h h' _ _ Hh Hh' H) as [-> Hrest]. f_equal.
      destruct Hhs as [|h2 hs Hh2 Hhs], Hhs' as [|h2' hs' Hh2' Hhs'];
        cbn [afterItem] in Hrest; try discriminate Hrest; [reflexivity|].
      apply IH; [constructor; assumption|].
      apply (append_inv_head ",") in Hrest. exact Hrest.
Qed.

Lemma jsonStringify_inj (ds ds' : list Detection) :
  Current.jsonStringify (List.map Current.hashData ds)
  = Current.jsonStringify (List.map Current.hashData ds') ->
  List.map Current.hashData ds = List.map Current.hashData ds'.
Proof.
  unfold Current.jsonStringify. intros H. apply (append_inv_head "[") in H.
  apply items_inj in H; [exact H| |];
    apply List.Forall_forall; intros h Hin; apply in_map_iff in Hin as (d & <- & _);
    apply hashData_plain.
Qed.

Lemma hashData_canonicalForm d d' :
  Current.hashData d = Current.hashData d' -> canonicalForm d = canonicalForm d'.
Proof.
  unfold Current.hashData, canonicalForm. intros H.
  injection H as Hl Hc Hx Hy Hw Hh.
  apply labelName_inj in Hl. apply toFixed_inj in Hc, Hx, Hy, Hw, Hh.
  rewrite Hl, Hc, Hx, Hy, Hw, Hh. reflexivity.
Qed.

Lemma fixedParts_nearest digits q :
  Qabs (inject_Z (snd (Js.fixedParts digits q)) / inject_Z (10 ^ Z.of_nat digits) - Qabs q)
  <= 1 / (2 * inject_Z (10 ^ Z.of_nat digits)).
Proof.
  unfold Js.fixedParts. cbn [snd].
  set (P := inject_Z (10 ^ Z.of_nat digits)).
  assert (HP : 0 < P).
  { unfold P. change 0 with (inject_Z 0). rewrite <- Zlt_Qlt. apply Z.pow_pos_nonneg; lia. }
  set (a := Qabs q).
  pose proof (Qfloor_le (a * P + (1 # 2))) as Hlo.
  pose proof (Qlt_floor (a * P + (1 # 2))) as Hhi.
  rewrite inject_Z_plus in Hhi. change (inject_Z 1) with 1 in Hhi.
  set (n := inject_Z (Qfloor (a * P + (1 # 2)))) in *.
  assert (Hinv : 0 < / P) by (apply Qinv_lt_0_compat, HP).
  assert (E : n / P - a == (n - a * P) * / P) by (field; lra).
  assert (E' : 1 / (2 * P) == (1 # 2) * / P) by (field; lra).
  rewrite E, E'. apply Qabs_Qle_condition. split.
  - assert (E2 : - ((1 # 2) * / P) == (- (1 # 2)) * / P) by ring.
    rewrite E2. apply Qmult_le_compat_r; lra.
  - apply Qmult_le_compat_r; lra.
Qed.

Lemma toFixed_writesRounded digits q :
  digits <> 0%nat -> writesRounded digits (Js.toFixed digits q) q.
Proof.
  intros Hd. split; [apply toFixed_places, Hd|].
  unfold Js.toFixed.
  pose proof (fixedParts_nonneg digits q) as Hn.
  pose proof (fixedParts_nearest digits q) as Hnear.
  assert (Hsign : fst (Js.fixedParts digits q) = Js.ltb q 0) by reflexivity.
  destruct (Js.fixedParts digits q) as [sign n]. cbn [fst snd] in *.
  rewrite readFixed_renderFixed by exact Hn. cbn [fst snd]. split; assumption.
Qed.

End Hash.

(** C9.  The detection hash is the MD5 digest, written as 32 hexadecimal
    characters, of the JSON text of one object per detection, in the order of
    the list.  The object holds the label and five strings: the confidence
    written with exactly 2 decimal places and the four box fields with
    exactly 3, each the nearest rounding of the double that the field
    denotes.  The text tells exactly the rounded canonical forms: two lists
    have the same text if and only if their detections agree in that form,
    in order; so two such lists have the same hash. *)
Theorem detection_hash_is_canonical (detections : list Detection) :
  Current.generateDetectionHash detections
    = Md5.md5hex (Current.jsonStringify (List.map Current.hashData detections))
  /\ String.length (Current.generateDetectionHash detections) = 32%nat
  /\ Forall isHexChar (list_ascii_of_string (Current.generateDetectionHash detections))
  /\ Forall (fun d =>
        Current.hash_label (Current.hashData d) = labelName (label d)
        /\ writesRounded 2 (Current.hash_confidence (Current.hashData d))
             (Double.round (confidence d))
        /\ writesRounded 3 (Current.hash_x (Current.hashData d))
             (Double.round (bbox_x (bbox d)))
        /\ writesRounded 3 (Current.hash_y (Current.hashData d))
             (Double.round (bbox_y (bbox d)))
        /\ writesRounded 3 (Current.hash_width (Current.hashData d))
             (Double.round (bbox_width (bbox d)))
        /\ writesRounded 3 (Current.hash_height (Current.hashData d))
             (Double.round (bbox_height (bbox d)))) detections
  /\ forall others,
       (Current.jsonStringify (List.map Current.hashData detections)
        = Current.jsonStringify (List.map Current.hashData others)
        <-> List.map canonicalForm detections = List.map canonicalForm others)
       /\ (List.map canonicalForm detections = List.map canonicalForm others ->
           Current.generateDetectionHash detections
           = Current.generateDetectionHash others).
Proof.
  split; [reflexivity|].
  split; [|split; [|split]].
  - unfold Current.generateDetectionHash, Md5.md5hex, Md5.hex.
    destruct (Md5.digest _) as [[[a b] c] d]. reflexivity.
  - unfold Current.generateDetectionHash, Md5.md5hex, Md5.hex.
    destruct (Md5.digest _) as [[[a b] c] d].
    unfold Md5.hexWord, Md5.hexByte. simpl list_ascii_of_string.
    repeat (constructor; [apply hexDigit_hex|]). constructor.
  - apply List.Forall_forall. intros d _.
    unfold Current.hashData.
    cbn [Current.hash_label Current.hash_confidence Current.hash_x Current.hash_y
         Current.hash_width Current.hash_height].
    repeat split; try reflexivity; apply toFixed_writesRounded; discriminate.
  - intros others.
    assert (Hforms : List.map canonicalForm detections = List.map canonicalForm others ->
                     List.map Current.hashData detections
                     = List.map Current.hashData others).
    { exact (map_factor canonicalForm Current.hashData canonicalForm_hashData _ _). }
    split; [split|].
    + intros H. apply jsonStringify_inj in H.
      exact (map_factor Current.hashData canonicalForm hashData_canonicalForm _ _ H).
    + intros H. rewrite (Hforms H). reflexivity.
    + intros H. unfold Current.generateDetectionHash. rewrite (Hforms H). reflexivity.
Qed.

(** ** The range invariant *)

Section RangeInvariant.

Lemma forRange_bounds start stop step v :
  (0 < step)%Z -> In v (Js.forRange start stop step) -> (start <= v < stop)%Z.
Proof.
  intros Hstep. unfold Js.forRange.
  destruct (stop <=? start)%Z eqn:E; [intros []|].
  apply Z.leb_gt in E. rewrite in_map_iff. intros (k & <- & Hk).
  apply List.in_seq in Hk. destruct Hk as [_ Hk]. simpl in Hk.
  assert (Hq : (Z.of_nat k < (stop - start + step - 1) / step)%Z) by lia.
  assert (Hmul : (step * ((stop - start + step - 1) / step) <= stop - start + step - 1)%Z)
    by (apply Z.mul_div_le; lia).
  split; nia.
Qed.

Lemma ratio_bounds (a limit : Q) :
  0 < limit -> 0 <= a -> a <= limit -> 0 <= a / limit /\ a / limit <= 1.
Proof.
  intros Hl Ha Hal. split.
  - apply Qle_shift_div_l; [exact Hl|lra].
  - apply Qle_shift_div_r; [exact Hl|lra].
Qed.

Lemma ratio_sum (a b limit : Q) :
  0 < limit -> a + b <= limit -> a / limit + b / limit <= 1.001.
Proof.
  intros Hl Hab.
  assert (E : a / limit + b / limit == (a + b) / limit).
  { field. intros E. rewrite E in Hl. exact (Qlt_irrefl 0 Hl). }
  rewrite E. apply Qle_shift_div_r; [exact Hl|lra].
Qed.

(** A rectangle inside the image, divided by the image size, lies inside
    the unit square. *)
Lemma box_in_unit (W H sx sy bw bh : Q) :
  0 < W -> 0 < H -> 0 <= sx -> 0 <= sy -> 0 <= bw -> 0 <= bh ->
  sx + bw <= W -> sy + bh <= H ->
  (0 <= sx / W /\ sx / W <= 1)
  /\ (0 <= sy / H /\ sy / H <= 1)
  /\ (0 <= bw / W /\ bw / W <= 1)
  /\ (0 <= bh / H /\ bh / H <= 1)
  /\ sx / W + bw / W <= 1.001
  /\ sy / H + bh / H <= 1.001.
Proof.
  intros HW HH Hsx Hsy Hbw Hbh Hx Hy.
  split; [apply ratio_bounds; lra|].
  split; [apply ratio_bounds; lra|].
  split; [apply ratio_bounds; lra|].
  split; [apply ratio_bounds; lra|].
  split; apply ratio_sum; assumption.
Qed.

(** One axis of [refineHelmetBounds] and [refineVestBounds]. *)
Lemma refined_axis (limit v shift size : Q) :
  0 <= v -> 0 <= shift -> 0 <= size -> v < limit ->
  0 <= Qmax 0 (v - shift)
  /\ 0 <= Qmin size (limit - Qmax 0 (v - shift))
  /\ Qmax 0 (v - shift) + Qmin size (limit - Qmax 0 (v - shift)) <= limit.
Proof.
  intros Hv Hs Hz Hl.
  assert (H0 : 0 <= Qmax 0 (v - shift)) by apply Q.le_max_l.
  assert (H1 : Qmax 0 (v - shift) <= v) by (apply Q.max_lub; lra).
  assert (H2 : Qmin size (limit - Qmax 0 (v - shift)) <= limit - Qmax 0 (v - shift))
    by apply Q.le_min_r.
  assert (H3 : 0 <= Qmin size (limit - Qmax 0 (v - shift))) by (apply Q.min_glb; lra).
  repeat split; lra.
Qed.

Lemma analyzeSkinTone_range pixels :
  0 <= Current.analyzeSkinTone pixels /\ Current.analyzeSkinTone pixels <= 1.
Proof.
  unfold Current.analyzeSkinTone. destruct pixels as [|p ps]; [split; lra|].
  assert (Hl : (0 < List.length (p :: ps))%nat) by (simpl; lia).
  remember (p :: ps) as l eqn:El. clear El.
  pose proof (List.filter_length_le Current.isSkinPixel l) as Hc.
  apply ratio_bounds; unfold Qlt, Qle; simpl; lia.
Qed.

Lemma merge_In detections thr d :
  In d (Current.mergeOverlappingDetections detections thr) -> In d detections.
Proof.
  destruct (merge_sub_multiset detections thr) as [dropped Hd].
  exact (sub_multiset_In _ dropped _ d Hd).
Qed.

Ltac emitted H c Hc :=
  match type of H with
  | In _ (if ?cond then _ else _) =>
      destruct cond eqn:Hc; [|destruct H]
  end.

Lemma detectPerson_range data width height :
  Forall inUnitRange (Current.detectPerson data width height).
Proof.
  apply List.Forall_forall. intros d Hd. unfold Current.detectPerson in Hd.
  apply in_flat_map in Hd as (region & Hregion & Hd).
  emitted Hd c Hc. destruct Hd as [<-|[]].
  unfold Current.findPersonRegions in Hregion. cbv zeta in Hregion.
  apply in_flat_map in Hregion as (y & Hy & Hregion).
  apply in_flat_map in Hregion as (x & Hx & Hregion).
  emitted Hregion c' Hs. destruct Hregion as [<-|[]].
  apply forRange_bounds in Hx; [|lia]. apply forRange_bounds in Hy; [|lia].
  unfold inUnitRange.
  cbn [confidence bbox bbox_x bbox_y bbox_width bbox_height
       Current.region_x Current.region_y Current.region_width
       Current.region_height Current.region_confidence].
  split; [apply analyzeSkinTone_range|].
  apply box_in_unit; unfold Qlt, Qle; simpl; lia.
Qed.

Lemma detectHelmets_range data width height :
  Forall inUnitRange (Current.detectHelmets data width height).
Proof.
  apply List.Forall_forall. intros d Hd. unfold Current.detectHelmets in Hd.
  cbv zeta in Hd. apply merge_In in Hd.
  apply in_flat_map in Hd as (y & Hy & Hd).
  apply in_flat_map in Hd as (x & Hx & Hd).
  emitted Hd c Hc. destruct Hd as [<-|[]]. clear Hc.
  apply forRange_bounds in Hx; [|lia]. apply forRange_bounds in Hy; [|lia].
  pose proof (helmet_confidence_range
                (Current.extractImageRegion data width height x y 32 32) 32) as Hcap.
  pose proof (Qfloor_le (height * 0.5)) as Hfloor.
  assert (Hy' : inject_Z y < inject_Z (Js.floor (height * 0.5)))
    by (rewrite <- Zlt_Qlt; lia).
  assert (Hy0 : 0 <= inject_Z y) by (unfold Qle; simpl; lia).
  assert (Hx0 : 0 <= inject_Z x) by (unfold Qle; simpl; lia).
  assert (Hxw : inject_Z x < inject_Z width) by (unfold Qlt; simpl; lia).
  unfold Js.floor in Hy'.
  destruct (refined_axis width x (32%Z * 0.25) (Js.floor (32%Z * 1.5)))
    as (Hx1 & Hx2 & Hx3); try assumption;
    try (apply Qle_bool_imp_le; vm_compute; reflexivity).
  destruct (refined_axis height y (32%Z * 0.25) (Js.floor (32%Z * 1.5)))
    as (Hy1 & Hy2 & Hy3); try assumption;
    try (apply Qle_bool_imp_le; vm_compute; reflexivity); [lra|].
  unfold inUnitRange, Current.refineHelmetBounds. cbv zeta.
  cbn [confidence bbox bbox_x bbox_y bbox_width bbox_height].
  split; [split; lra|].
  apply box_in_unit; try assumption; lra.
Qed.

Lemma detectVests_range data width height :
  Forall inUnitRange (Current.detectVests data width height).
Proof.
  apply List.Forall_forall. intros d Hd. unfold Current.detectVests in Hd.
  cbv zeta in Hd. apply merge_In in Hd.
  apply in_flat_map in Hd as (y & Hy & Hd).
  apply in_flat_map in Hd as (x & Hx & Hd).
  emitted Hd c Hc. destruct Hd as [<-|[]]. clear Hc.
  apply forRange_bounds in Hx; [|lia]. apply forRange_bounds in Hy; [|lia].
  pose proof (vest_confidence_range
                (Current.extractImageRegion data width height x y 48 48) 48) as Hcap.
  pose proof (Qfloor_le (height * 0.2)) as Hstart.
  pose proof (Qfloor_le (height * 0.6)) as Hspan.
  unfold Js.floor in Hy.
  assert (Hpos : inject_Z 0 < inject_Z (Qfloor (height * 0.6)))
    by (rewrite <- Zlt_Qlt; lia).
  change (inject_Z 0) with 0 in Hpos.
  assert (Hh : 0 < inject_Z height) by lra.
  assert (Hs0 : (0 <= Qfloor (height * 0.2))%Z).
  { change 0%Z with (Qfloor 0). apply Qfloor_resp_le. lra. }
  assert (Hy' : inject_Z y < inject_Z (Qfloor (height * 0.2)) + inject_Z (Qfloor (height * 0.6)))
    by (rewrite <- inject_Z_plus, <- Zlt_Qlt; lia).
  assert (Hy0 : 0 <= inject_Z y) by (unfold Qle; simpl; lia).
  assert (Hx0 : 0 <= inject_Z x) by (unfold Qle; simpl; lia).
  assert (Hxw : inject_Z x < inject_Z width) by (unfold Qlt; simpl; lia).
  destruct (refined_axis width x (48%Z * 0.4) (Js.floor (48%Z * 1.8)))
    as (Hx1 & Hx2 & Hx3); try assumption;
    try (apply Qle_bool_imp_le; vm_compute; reflexivity).
  destruct (refined_axis height y (48%Z * 0.1) (Js.floor (48%Z * 1.2)))
    as (Hy1 & Hy2 & Hy3); try assumption;
    try (apply Qle_bool_imp_le; vm_compute; reflexivity); [lra|].
  unfold inUnitRange, Current.refineVestBounds. cbv zeta.
  cbn [confidence bbox bbox_x bbox_y bbox_width bbox_height].
  split; [split; lra|].
  apply box_in_unit; try assumption; lra.
Qed.

Lemma detectFullPPE_range data width height :
  Forall inUnitRange (Current.detectFullPPE data width height).
Proof.
  apply List.Forall_forall. intros d Hd. unfold Current.detectFullPPE in Hd.
  apply in_flat_map in Hd as (region & Hregion & Hd).
  emitted Hd c Hc.
  unfold Current.findFullBodyPPE in Hregion. cbv zeta in Hregion.
  apply in_flat_map in Hregion as (y & Hy & Hregion).
  apply in_flat_map in Hregion as (x & Hx & Hregion).
  emitted Hregion c1 Hu. emitted Hregion c2 Hb. destruct Hregion as [<-|[]].
  apply forRange_bounds in Hx; [|lia]. apply forRange_bounds in Hy; [|lia].
  assert (Hy0 : 0 <= inject_Z y) by (unfold Qle; simpl; lia).
  assert (Hx0 : 0 <= inject_Z x) by (unfold Qle; simpl; lia).
  assert (Hxw : inject_Z x + 96 <= inject_Z width) by (unfold Qle; simpl; lia).
  assert (Hyh : inject_Z y + 96 <= inject_Z height) by (unfold Qle; simpl; lia).
  cbn [Current.headConfidence Current.bodyConfidence Current.headBbox Current.bodyBbox] in Hd.
  change (inject_Z 96) with 96 in Hd.
  unfold inUnitRange.
  destruct Hd as [<-|[<-|[]]];
    cbn [confidence bbox bbox_x bbox_y bbox_width bbox_height].
  - split; [destruct (Js.ltb y (height * 0.3)); split; lra|].
    apply box_in_unit; lra.
  - split; [destruct (Js.ltb (height * 0.2) y); split; lra|].
    apply box_in_unit; lra.
Qed.

Lemma detectFromPixels_range data width height :
  Forall inUnitRange (Current.detectFromPixels data width height).
Proof.
  unfold Current.detectFromPixels.
  destruct (filterAndMerge_sub_multiset
              (Current.detectPerson data width height
               ++ Current.detectHelmets data width height
               ++ Current.detectVests data width height
               ++ Current.detectFullPPE data width height)) as [dropped Hd].
  apply List.Forall_forall. intros d Hin.
  apply (sub_multiset_In _ dropped _ d Hd) in Hin.
  revert d Hin. apply List.Forall_forall.
  repeat (apply List.Forall_app; split).
  - apply detectPerson_range.
  - apply detectHelmets_range.
  - apply detectVests_range.
  - apply detectFullPPE_range.
Qed.

End RangeInvariant.

(** C7.  Every detection that the pipeline of [detection.js] returns, for
    any decoder and any file, has its confidence and its four box fields in
    [0, 1], and its box ends at most at 1.001 on either axis. *)
Theorem detections_in_unit_range (source : PixelSource) (imagePath : string) :
  Forall inUnitRange (Current.detectPPE source imagePath).
Proof.
  unfold Current.detectPPE, Current.analyzeImageForPPE.
  destruct (getImageInfo source imagePath) as [[width height]|]; [|constructor].
  cbn [Current.detections]. unfold Current.detectPPEObjects.
  destruct (getImageData source imagePath width height) as [data|]; [|constructor].
  apply detectFromPixels_range.
Qed.


(** ** A photograph the cap would have to cut *)

Section UniformImages.

Lemma quads_length (quad : list Z) n :
  List.length quad = 4%nat -> List.length (concat (List.repeat quad n)) = (4 * n)%nat.
Proof.
  intros Hq. induction n as [|n IH]; simpl; [reflexivity|].
  rewrite List.length_app, IH, Hq. lia.
Qed.

Lemma quads_nth (q0 q1 q2 q3 : Z) n k c :
  (k < n)%nat -> (c < 4)%nat ->
  nth (4 * k + c) (concat (List.repeat [q0; q1; q2; q3] n)) 0%Z = nth c [q0; q1; q2; q3] 0%Z.
Proof.
  revert k. induction n as [|n IH]; intros k Hk Hc; [lia|].
  destruct k as [|k].
  - destruct c as [|[|[|[|c]]]]; try lia; reflexivity.
  - replace (4 * S k + c)%nat with (S (S (S (S (4 * k + c))))) by lia.
    simpl. apply IH; lia.
Qed.

Lemma flat_map_constant {A B : Type} (f : A -> list B) (c : list B) (l : list A) :
  (forall a, In a l -> f a = c) -> flat_map f l = concat (List.repeat c (List.length l)).
Proof.
  induction l as [|a l IH]; intros H; simpl; [reflexivity|].
  rewrite (H a) by (left; reflexivity). f_equal. apply IH. intros b Hb. apply H. right. exact Hb.
Qed.

Lemma concat_repeat_repeat {B : Type} (p : B) (m n : nat) :
  concat (List.repeat (List.repeat p m) n) = List.repeat p (n * m).
Proof.
  induction n as [|n IH]; simpl; [reflexivity|]. rewrite IH, List.repeat_app. reflexivity.
Qed.

Lemma forRange_unit_length a b : List.length (Js.forRange a b 1) = Z.to_nat (b - a).
Proof.
  unfold Js.forRange. destruct (b <=? a)%Z eqn:E.
  - apply Z.leb_le in E. simpl. lia.
  - apply Z.leb_gt in E. rewrite List.length_map, List.length_seq.
    rewrite Z.div_1_r. f_equal. lia.
Qed.

Lemma extract_uniform w h p x y bw bh :
  (0 <= x)%Z -> (0 <= y)%Z -> (0 < w)%Z -> (0 < h)%Z ->
  Current.extractImageRegion (Sample.uniformImage w h p) w h x y bw bh
  = List.repeat p (Z.to_nat (Z.min (y + bh) h - y) * Z.to_nat (Z.min (x + bw) w - x)).
Proof.
  intros Hx Hy Hw Hh. unfold Current.extractImageRegion. cbv zeta.
  rewrite (flat_map_constant _ (List.repeat p (Z.to_nat (Z.min (x + bw) w - x)))).
  - rewrite concat_repeat_repeat, forRange_unit_length. reflexivity.
  - intros py Hpy. apply forRange_bounds in Hpy; [|lia].
    rewrite (flat_map_constant _ (List.repeat p 1)).
    + rewrite concat_repeat_repeat, forRange_unit_length. f_equal. lia.
    + intros px Hpx. apply forRange_bounds in Hpx; [|lia].
      assert (Ht : (0 <= py * w + px < w * h)%Z) by nia.
      remember (py * w + px)%Z as t eqn:Et. clear Et.
      unfold Sample.uniformImage.
      rewrite quads_length by reflexivity.
      assert (Hin : (t * 4 + 3 <? Z.of_nat (4 * Z.to_nat (w * h)))%Z = true)
        by (apply Z.ltb_lt; lia).
      rewrite Hin. unfold Js.byteAt.
      replace (Z.to_nat (t * 4)) with (4 * Z.to_nat t + 0)%nat by lia.
      replace (Z.to_nat (t * 4 + 1)) with (4 * Z.to_nat t + 1)%nat by lia.
      replace (Z.to_nat (t * 4 + 2)) with (4 * Z.to_nat t + 2)%nat by lia.
      replace (Z.to_nat (t * 4 + 3)) with (4 * Z.to_nat t + 3)%nat by lia.
      rewrite !quads_nth by lia. destruct p. reflexivity.
Qed.

Lemma persons_on_wall :
  Current.detectPerson Sample.wall 129 65
  = [ mkDetection person (4096%Z / 4096%Z) None (mkBBox (0%Z / 129%Z) (0%Z / 65%Z) (64%Z / 129%Z) (64%Z / 65%Z));
      mkDetection person (4096%Z / 4096%Z) None (mkBBox (32%Z / 129%Z) (0%Z / 65%Z) (64%Z / 129%Z) (64%Z / 65%Z));
      mkDetection person (4096%Z / 4096%Z) None (mkBBox (64%Z / 129%Z) (0%Z / 65%Z) (64%Z / 129%Z) (64%Z / 65%Z)) ].
Proof.
  unfold Current.detectPerson, Current.findPersonRegions, Sample.wall. cbv zeta.
  replace (Js.forRange 0 (129 - 64) 32) with [0; 32; 64]%Z by (vm_compute; reflexivity).
  replace (Js.forRange 0 (65 - 64) 32) with [0]%Z by (vm_compute; reflexivity).
  cbn [flat_map app].
  rewrite !extract_uniform by lia.
  vm_compute. reflexivity.
Qed.

Lemma helmets_on_wall : Current.detectHelmets Sample.wall 129 65 = [].
Proof.
  unfold Current.detectHelmets, Sample.wall. cbv zeta.
  replace (Js.forRange 0 (129 - 32) 16) with [0; 16; 32; 48; 64; 80; 96]%Z by (vm_compute; reflexivity).
  replace (Js.forRange 0 (Js.floor (65%Z * 0.5)) 16) with [0; 16]%Z by (vm_compute; reflexivity).
  cbn [flat_map app].
  rewrite !extract_uniform by lia.
  vm_compute. reflexivity.
Qed.

Lemma vests_on_wall : Current.detectVests Sample.wall 129 65 = [].
Proof.
  unfold Current.detectVests, Sample.wall. cbv zeta.
  replace (Js.forRange 0 (129 - 48) 24) with [0; 24; 48; 72]%Z by (vm_compute; reflexivity).
  replace (Js.forRange (Js.floor (65%Z * 0.2)) (Js.floor (65%Z * 0.2) + Js.floor (65%Z * 0.6)) 24) with [13; 37]%Z by (vm_compute; reflexivity).
  cbn [flat_map app].
  rewrite !extract_uniform by lia.
  vm_compute. reflexivity.
Qed.

Lemma suits_on_wall : Current.detectFullPPE Sample.wall 129 65 = [].
Proof.
  unfold Current.detectFullPPE, Current.findFullBodyPPE, Sample.wall. cbv zeta.
  replace (Js.forRange 0 (65 - 96) 48) with (@nil Z) by (vm_compute; reflexivity).
  reflexivity.
Qed.

End UniformImages.

(** C1, counterexample.  [detection.js] applies no cap.  Its final assembly
    lets three helmet candidates that do not touch all through, and its
    [detectPPE] returns two person detections for the 129 x 65 photograph of
    a skin-coloured wall (the person windows at x = 0 and x = 64). *)
Lemma assembly_applies_no_cap :
  countLabel helmet (Current.filterAndMergeDetections Sample.apart) = 3%nat
  /\ countLabel person (Current.detectPPE Sample.wallPhoto "uploads/site.jpg") = 2%nat.
Proof.
  split; [vm_compute; reflexivity|].
  unfold Current.detectPPE, Current.analyzeImageForPPE, Sample.wallPhoto.
  cbn [getImageInfo Current.detections]. unfold Current.detectPPEObjects.
  cbn [getImageData]. unfold Current.detectFromPixels.
  rewrite persons_on_wall, helmets_on_wall, vests_on_wall, suits_on_wall.
  vm_compute. reflexivity.
Qed.

(** ** The overlap measure *)

(** X1.  The overlap of two boxes does not depend on their order. *)
Theorem overlap_is_symmetric (b1 b2 : BBox) :
  calculateOverlap b1 b2 = calculateOverlap b2 b1.
Proof.
  unfold calculateOverlap. cbv zeta.
  rewrite (max'_comm (Double.ofQ (bbox_x b1))), (max'_comm (Double.ofQ (bbox_y b1))).
  rewrite (min'_comm (Double.add' (Double.ofQ (bbox_x b1)) _)).
  rewrite (min'_comm (Double.add' (Double.ofQ (bbox_y b1)) _)).
  rewrite (add'_comm (Double.mul' (Double.ofQ (bbox_width b1)) _)).
  reflexivity.
Qed.

(** ** What merging and assembling keep *)

Section Keeping.

Lemma legacy_mergeLoop_length thr i rest used :
  (List.length (Legacy.mergeLoop thr i rest used) <= List.length rest)%nat.
Proof.
  revert i used. induction rest as [|cur rest IH]; intros i used; simpl; [lia|].
  destruct (decide (i ∈ used)); [specialize (IH (S i) used); lia|].
  destruct (mergeInner thr cur (S i) rest ({[i]} ∪ used)) as [ov u].
  simpl. specialize (IH (S i) u). lia.
Qed.

Lemma filterAndMerge_from_filtered (detections : list Detection) :
  exists dropped,
    Permutation (List.filter (fun d => Js.ltb 0.6 (confidence d)) detections)
                (Current.filterAndMergeDetections detections ++ dropped).
Proof.
  unfold Current.filterAndMergeDetections.
  set (filtered := List.filter _ detections).
  destruct (concat_sub_multiset
              (fun entry => Current.mergeOverlappingDetections (snd entry) 0.3)
              (fold_left byLabelPush filtered [])) as [dropped Hd].
  { intros e. apply merge_sub_multiset. }
  exists dropped. rewrite <- sortByConfidence_perm, <- Hd, grouping_perm.
  simpl. rewrite app_nil_r. reflexivity.
Qed.

Lemma merge_nonempty d rest thr :
  Current.mergeOverlappingDetections (d :: rest) thr <> [].
Proof.
  rewrite mergeOverlappingDetections_loop. simpl.
  destruct (mergeInner thr d 1 rest ({[0%nat]} ∪ ∅)) as [ov u]. discriminate.
Qed.

Lemma assembly_keeps_label (detections : list Detection) (l : Label) :
  existsb (fun d => bool_decide (label d = l)) (Current.filterAndMergeDetections detections)
  = existsb (fun d => bool_decide (label d = l) && Js.ltb 0.6 (confidence d)) detections.
Proof.
  apply eq_true_iff_eq. rewrite !existsb_exists. split.
  - intros (d & Hin & Hl).
    destruct (filterAndMerge_from_filtered detections) as [dropped Hd].
    apply (sub_multiset_In _ dropped _ d Hd) in Hin.
    apply filter_In in Hin as [Hin Hc]. exists d. split; [exact Hin|].
    rewrite Hl, Hc. reflexivity.
  - intros (d & Hin & Hd). apply andb_true_iff in Hd as [Hl Hc].
    apply bool_decide_eq_true in Hl.
    unfold Current.filterAndMergeDetections.
    set (filtered := List.filter _ detections).
    assert (Hf : In d filtered) by (apply filter_In; split; assumption).
    pose proof (grouping_wellGrouped filtered [] wellGrouped_nil) as [_ Hgroups].
    pose proof (grouping_perm filtered []) as Hperm.
    simpl in Hperm. rewrite app_nil_r in Hperm.
    apply (Permutation_in d (Permutation_sym Hperm)) in Hf.
    apply in_concat in Hf as (group & Hgroup & Hdg).
    apply in_map_iff in Hgroup as (entry & <- & Hentry).
    rewrite List.Forall_forall in Hgroups. specialize (Hgroups entry Hentry).
    rewrite List.Forall_forall in Hgroups.
    destruct (snd entry) as [|d0 others] eqn:Eg; [destruct Hdg|].
    pose proof (merge_nonempty d0 others 0.3) as Hne.
    destruct (Current.mergeOverlappingDetections (d0 :: others) 0.3) as [|m ms] eqn:Em;
      [contradiction|].
    assert (Hm : In m (d0 :: others)).
    { apply (merge_In (d0 :: others) 0.3). rewrite Em. left. reflexivity. }
    exists m. split.
    + eapply Permutation_in; [apply sortByConfidence_perm|].
      apply in_concat. exists (m :: ms). split; [|left; reflexivity].
      apply in_map_iff. exists entry. split; [|exact Hentry].
      rewrite Eg. exact Em.
    + apply bool_decide_eq_true. rewrite (Hgroups m Hm), <- (Hgroups d Hdg). exact Hl.
Qed.

End Keeping.

(** X3.  Merging never adds detections: the output of either Merger is no
    longer than its input, and it is empty only for an empty input. *)
Theorem merging_never_adds (detections : list Detection) (threshold : Q) :
  (List.length (Current.mergeOverlappingDetections detections threshold)
   <= List.length detections)%nat
  /\ (List.length (Legacy.mergeOverlappingDetections detections threshold)
      <= List.length detections)%nat
  /\ (List.length (Current.mergeOverlappingDetections detections threshold) =? 0)%nat
     = (List.length detections =? 0)%nat
  /\ (List.length (Legacy.mergeOverlappingDetections detections threshold) =? 0)%nat
     = (List.length detections =? 0)%nat.
Proof.
  split; [|split; [|split]].
  - destruct (merge_sub_multiset detections threshold) as [dropped Hd].
    apply Permutation_length in Hd. rewrite List.length_app in Hd. lia.
  - rewrite legacy_merge_walks_sorted.
    etransitivity; [apply legacy_mergeLoop_length|].
    rewrite <- (Permutation_length (sortByConfidence_perm detections)). lia.
  - destruct detections as [|d rest]; [reflexivity|].
    pose proof (merge_nonempty d rest threshold) as Hne.
    destruct (Current.mergeOverlappingDetections (d :: rest) threshold); [contradiction|].
    reflexivity.
  - destruct detections as [|d rest]; [reflexivity|].
    unfold Legacy.mergeOverlappingDetections.
    pose proof (Permutation_length (sortByConfidence_perm (d :: rest))) as Hlen.
    destruct (sortByConfidence (d :: rest)) as [|e sorted]; [discriminate|].
    simpl.
    destruct (mergeInner threshold e 1 sorted ({[0%nat]} ∪ ∅)) as [ov u]. reflexivity.
Qed.

(** X4.  The assembled set is in descending confidence order and holds only
    detections of confidence above 0.6. *)
Theorem assembled_set_is_sorted_above_floor (detections : list Detection) :
  descending (Current.filterAndMergeDetections detections)
  /\ Forall (fun d => 0.6 < confidence d) (Current.filterAndMergeDetections detections).
Proof.
  split; [apply sortByConfidence_descending|].
  destruct (filterAndMerge_from_filtered detections) as [dropped Hd].
  apply List.Forall_forall. intros d Hin.
  apply (sub_multiset_In _ dropped _ d Hd) in Hin.
  apply filter_In in Hin as [_ Hin]. apply ltb_spec, Hin.
Qed.

(** X5.  Merging never removes a class: a label occurs in the assembled set
    exactly when some candidate of that label has a confidence above 0.6. *)
Theorem assembly_keeps_every_class (detections : list Detection) (l : Label) :
  existsb (fun d => bool_decide (label d = l)) (Current.filterAndMergeDetections detections)
  = existsb (fun d => bool_decide (label d = l) && Js.ltb 0.6 (confidence d)) detections.
Proof. apply assembly_keeps_label. Qed.

(** ** The window scorers of [detection.js] *)

Section WindowScorers.

(** A double above a positive double is above the smaller ones of the same
    exponent. *)
Lemma ltb'_weaken (smaller larger : positive) (e : Z) (x : Double.t) :
  (smaller <= larger)%positive ->
  Double.ltb' (S754_finite false larger e) x = true ->
  Double.ltb' (S754_finite false smaller e) x = true.
Proof.
  intros Hle. unfold Double.ltb', SFltb.
  destruct x as [s|s| |s m ex]; try destruct s; cbn [SFcompare]; try discriminate;
    try (intros _; reflexivity).
  destruct (e ?= ex)%Z; try discriminate; try (intros _; reflexivity).
  change (Pos.compare_cont Eq larger m) with (Pos.compare larger m).
  change (Pos.compare_cont Eq smaller m) with (Pos.compare smaller m).
  destruct (larger ?= m)%positive eqn:E; try discriminate. intros _.
  pose proof (Pos.le_lt_trans _ _ _ Hle E) as Hlt.
  unfold Pos.lt in Hlt. rewrite Hlt. reflexivity.
Qed.

Lemma above_0_7_is_above_0_6 (x : Double.t) :
  Double.ltb' (Double.ofQ 0.7) x = true -> Double.ltb' (Double.ofQ 0.6) x = true.
Proof.
  replace (Double.ofQ 0.7) with (S754_finite false 6305039478318694 (-53))
    by (vm_compute; reflexivity).
  replace (Double.ofQ 0.6) with (S754_finite false 5404319552844595 (-53))
    by (vm_compute; reflexivity).
  apply ltb'_weaken. lia.
Qed.

Lemma edge_gate_is_coverage_gate pixels blockSize :
  Double.ltb' (Double.ofQ 0.5) (Current.edgeDensity (Current.analyzeShape pixels blockSize))
  = Double.ltb' (Double.ofQ 0.6) (Current.uniformity (Current.analyzeShape pixels blockSize)).
Proof.
  unfold Current.analyzeShape. cbv zeta.
  cbn [Current.edgeDensity Current.uniformity].
  destruct (Double.ltb' (Double.ofQ 0.6) _); vm_compute; reflexivity.
Qed.

Lemma helmet_window_sufficient (p : Px.t) (ps : list Px.t) (blockSize : Z) :
  Current.matchHelmetColor (Current.dominant (Current.analyzeColors (p :: ps))) <> None ->
  Double.ltb' (Double.ofQ 0.6) (Current.roundness (Current.analyzeShape (p :: ps) blockSize))
  = true ->
  Double.ltb' (Double.ofQ 0.6) (Current.uniformity (Current.analyzeShape (p :: ps) blockSize))
  = true ->
  Current.isHelmet (Current.analyzeHelmetRegion (p :: ps) blockSize) = true.
Proof.
  intros Hm Hr Hc.
  pose proof (edge_gate_is_coverage_gate (p :: ps) blockSize) as He.
  unfold Current.analyzeHelmetRegion. cbv zeta.
  set (shape := Current.analyzeShape (p :: ps) blockSize) in *.
  cbn [Current.isHelmet]. rewrite He, Hr, Hc.
  destruct (Current.matchHelmetColor _); [|contradiction].
  destruct (Double.ltb' (Double.ofQ 0.7) (Current.uniformity shape));
    vm_compute; reflexivity.
Qed.

End WindowScorers.

(** X6.  A window of [detection.js] is accepted as a helmet only if its
    dominant colour lies in one of the four helmet ranges and the share of
    its non-dark pixels, as computed, is above 0.6; it is accepted whenever,
    in addition, its centre is denser than the whole (roundness above 0.6).
    An accepted window carries the matched colour name and a confidence
    above 0.7 and at most 0.95, so the second test of the scan loop never
    rejects an accepted window. *)
Theorem helmet_window_acceptance (p : Px.t) (ps : list Px.t) (blockSize : Z) :
  let analysis := Current.analyzeHelmetRegion (p :: ps) blockSize in
  let shape := Current.analyzeShape (p :: ps) blockSize in
  let matched :=
    Current.matchHelmetColor (Current.dominant (Current.analyzeColors (p :: ps))) in
  (Current.isHelmet analysis = true ->
     matched <> None /\ Current.helmetColor analysis = matched
     /\ Double.ltb' (Double.ofQ 0.6) (Current.uniformity shape) = true)
  /\ (matched <> None ->
      Double.ltb' (Double.ofQ 0.6) (Current.roundness shape) = true ->
      Double.ltb' (Double.ofQ 0.6) (Current.uniformity shape) = true ->
      Current.isHelmet analysis = true)
  /\ Double.ltb' (Double.ofQ 0.7) (Current.helmetConfidence analysis)
     = Current.isHelmet analysis
  /\ Double.toQ (Current.helmetConfidence analysis) <= 0.95.
Proof.
  cbv zeta.
  split; [|split; [apply helmet_window_sufficient|split;
                   [|apply helmet_confidence_range]]].
  - pose proof (edge_gate_is_coverage_gate (p :: ps) blockSize) as He.
    pose proof (above_0_7_is_above_0_6
                  (Current.uniformity (Current.analyzeShape (p :: ps) blockSize))) as Hu.
    unfold Current.analyzeHelmetRegion. cbv zeta.
    set (shape := Current.analyzeShape (p :: ps) blockSize) in *.
    set (matched := Current.matchHelmetColor _).
    cbn [Current.isHelmet Current.helmetColor]. rewrite He.
    destruct matched as [name|];
      destruct (Double.ltb' (Double.ofQ 0.6) (Current.roundness shape));
      destruct (Double.ltb' (Double.ofQ 0.7) (Current.uniformity shape));
      destruct (Double.ltb' (Double.ofQ 0.6) (Current.uniformity shape));
      intros H; vm_compute in H; try discriminate H;
      try (split; [discriminate|split; reflexivity]).
    discriminate (Hu eq_refl).
  - unfold Current.analyzeHelmetRegion. cbv zeta.
    cbn [Current.isHelmet Current.helmetConfidence].
    destruct (Current.matchHelmetColor _),
             (Double.ltb' (Double.ofQ 0.6) (Current.roundness _)),
             (Double.ltb' (Double.ofQ 0.7) (Current.uniformity _)),
             (Double.ltb' (Double.ofQ 0.5) (Current.edgeDensity _));
      vm_compute; reflexivity.
Qed.

(** X6, witness: ten pixels, dark at both ends and safety yellow between. *)
Lemma helmet_window_acceptance_witness :
  Current.isHelmet
    (Current.analyzeHelmetRegion
       (Px.mk 0 0 0 255 :: List.repeat (Px.mk 255 230 30 255) 8 ++ [Px.mk 0 0 0 255]) 32)
  = true
  /\ Current.matchHelmetColor
       (Current.dominant
          (Current.analyzeColors
             (Px.mk 0 0 0 255 :: List.repeat (Px.mk 255 230 30 255) 8 ++ [Px.mk 0 0 0 255])))
     = Some "yellow"%string.
Proof.
  split; [vm_compute; reflexivity|].
  pose proof (helmet_window_acceptance (Px.mk 0 0 0 255)
                (List.repeat (Px.mk 255 230 30 255) 8 ++ [Px.mk 0 0 0 255]) 32) as H.
  cbv zeta in H. destruct H as [H _].
  destruct (H ltac:(vm_compute; reflexivity)) as (_ & Hc & _).
  rewrite <- Hc. vm_compute. reflexivity.
Defined.

(** X7.  A window of [detection.js] is accepted as a vest exactly when its
    dominant colour is in the high-visibility range, it shows at least one
    stripe, and it shows a second stripe or its brightness, as computed, is
    above 0.6.  The confidence of an accepted window is above 0.65 and at
    most 0.95, so the second test of the scan loop never rejects an accepted
    window. *)
Theorem vest_window_acceptance (p : Px.t) (ps : list Px.t) (blockSize : Z) :
  let analysis := Current.analyzeVestRegion (p :: ps) blockSize in
  let colours := Current.analyzeColors (p :: ps) in
  let pattern := Current.analyzePattern (p :: ps) blockSize in
  Current.isVest analysis
  = Current.isColorInRange (Current.dominant colours) Current.PPE_COLORS_vest_highVis
    && (1 <=? Current.stripeCount pattern)%nat
    && ((2 <=? Current.stripeCount pattern)%nat
        || Double.ltb' (Double.ofQ 0.6) (Current.brightness colours))
  /\ Double.ltb' (Double.ofQ 0.65) (Current.vestConfidence analysis)
     = Current.isVest analysis
  /\ Double.toQ (Current.vestConfidence analysis) <= 0.95.
Proof.
  cbv zeta. split; [|split; [|apply vest_confidence_range]];
    unfold Current.analyzeVestRegion; cbv zeta;
    set (colours := Current.analyzeColors (p :: ps));
    unfold Current.analyzePattern; cbv zeta;
    cbn [Current.isVest Current.vestConfidence Current.vestColor
         Current.hasReflectiveStripes Current.hasHorizontalStripes Current.stripeCount];
    destruct (Current.isColorInRange _ _);
    destruct (Current.countStripes _) as [|[|n]];
    destruct (Double.ltb' (Double.ofQ 0.6) (Current.brightness colours));
    vm_compute; reflexivity.
Qed.

(** ** The candidates of the four detectors *)

Section Candidates.

Ltac chosen H Hc :=
  match type of H with
  | In _ (if ?cond then _ else _) => destruct cond eqn:Hc; [|destruct H]
  end.

Lemma detectPerson_above_floor data width height :
  Forall (fun d => 0.6 < confidence d) (Current.detectPerson data width height).
Proof.
  apply List.Forall_forall. intros d Hd. unfold Current.detectPerson in Hd.
  apply in_flat_map in Hd as (region & _ & Hd).
  chosen Hd Hc. destruct Hd as [<-|[]]. apply ltb_spec, Hc.
Qed.

Lemma detectHelmets_above_floor data width height :
  Forall (fun d => 0.7 < confidence d) (Current.detectHelmets data width height).
Proof.
  apply List.Forall_forall. intros d Hd. unfold Current.detectHelmets in Hd.
  cbv zeta in Hd. apply merge_In in Hd.
  apply in_flat_map in Hd as (y & _ & Hd).
  apply in_flat_map in Hd as (x & _ & Hd).
  chosen Hd Hc. destruct Hd as [<-|[]].
  apply andb_true_iff in Hc as [Hc _]. apply accepted_helmet_confidence, Hc.
Qed.

Lemma detectVests_above_floor data width height :
  Forall (fun d => 0.65 < confidence d) (Current.detectVests data width height).
Proof.
  apply List.Forall_forall. intros d Hd. unfold Current.detectVests in Hd.
  cbv zeta in Hd. apply merge_In in Hd.
  apply in_flat_map in Hd as (y & _ & Hd).
  apply in_flat_map in Hd as (x & _ & Hd).
  chosen Hd Hc. destruct Hd as [<-|[]].
  apply andb_true_iff in Hc as [Hc _]. apply accepted_vest_confidence, Hc.
Qed.

(** What [findFullBodyPPE] guarantees of a region it returns. *)
Lemma findFullBodyPPE_regions data width height :
  Forall (fun region =>
            Current.headConfidence region
              = (if Current.hasHeadCovering region then 0.8 else 0.3)
            /\ Current.bodyConfidence region
               = (if Current.hasBodyCovering region then 0.8 else 0.3)
            /\ bbox_x (Current.headBbox region) = bbox_x (Current.bodyBbox region)
            /\ bbox_width (Current.headBbox region) = bbox_width (Current.bodyBbox region)
            /\ bbox_y (Current.bodyBbox region)
               == bbox_y (Current.headBbox region) + bbox_height (Current.headBbox region))
         (Current.findFullBodyPPE data width height).
Proof.
  apply List.Forall_forall. intros region Hregion.
  unfold Current.findFullBodyPPE in Hregion. cbv zeta in Hregion.
  apply in_flat_map in Hregion as (y & _ & Hregion).
  apply in_flat_map in Hregion as (x & _ & Hregion).
  chosen Hregion Hu. chosen Hregion Hb. destruct Hregion as [<-|[]].
  cbn [Current.headConfidence Current.bodyConfidence Current.hasHeadCovering
       Current.hasBodyCovering Current.headBbox Current.bodyBbox
       bbox_x bbox_y bbox_width bbox_height].
  repeat split; try reflexivity.
  unfold Qdiv. ring.
Qed.

Lemma pairs_of_regions (regions : list Current.FullBodyRegion) :
  Forall (fun region =>
            Current.headConfidence region
              = (if Current.hasHeadCovering region then 0.8 else 0.3)
            /\ Current.bodyConfidence region
               = (if Current.hasBodyCovering region then 0.8 else 0.3)
            /\ bbox_x (Current.headBbox region) = bbox_x (Current.bodyBbox region)
            /\ bbox_width (Current.headBbox region) = bbox_width (Current.bodyBbox region)
            /\ bbox_y (Current.bodyBbox region)
               == bbox_y (Current.headBbox region) + bbox_height (Current.headBbox region))
         regions ->
  exists boxes : list (BBox * BBox),
    flat_map (fun region =>
      if Js.ltb 0.7 (Current.full_confidence region)
         && (Current.hasHeadCovering region && Current.hasBodyCovering region)
      then [mkDetection helmet (Current.headConfidence region) None (Current.headBbox region);
            mkDetection vest (Current.bodyConfidence region) None (Current.bodyBbox region)]
      else []) regions
    = flat_map (fun pair => [mkDetection helmet 0.8 None (fst pair);
                             mkDetection vest 0.8 None (snd pair)]) boxes
    /\ Forall (fun pair =>
                 bbox_x (fst pair) = bbox_x (snd pair)
                 /\ bbox_width (fst pair) = bbox_width (snd pair)
                 /\ bbox_y (snd pair) == bbox_y (fst pair) + bbox_height (fst pair)) boxes.
Proof.
  induction 1 as [|region regions (Hh & Hb & Hx & Hw & Hy) _ (boxes & E & Hboxes)].
  - exists []. split; [reflexivity|constructor].
  - cbn [flat_map].
    destruct (Js.ltb 0.7 (Current.full_confidence region)); cbn [andb];
      [|exists boxes; split; assumption].
    destruct (Current.hasHeadCovering region); cbn [andb];
      [|exists boxes; split; assumption].
    destruct (Current.hasBodyCovering region);
      [|exists boxes; split; assumption].
    exists ((Current.headBbox region, Current.bodyBbox region) :: boxes).
    split; [|constructor; [repeat split; assumption|assumption]].
    cbn [flat_map fst snd app]. rewrite Hh, Hb, E. reflexivity.
Qed.

Lemma flat_map_nil {A B : Type} (l : list A) : flat_map (fun _ : A => @nil B) l = [].
Proof. induction l as [|a l IH]; [reflexivity|exact IH]. Qed.

Lemma forRange_empty start stop step : (stop <= start)%Z -> Js.forRange start stop step = [].
Proof.
  intros H. unfold Js.forRange. apply Z.leb_le in H. rewrite H. reflexivity.
Qed.

Lemma floor_of_small (height : Z) (factor : Q) :
  (height <= 1)%Z -> 0 <= factor -> factor < 1 -> (Js.floor (height * factor) <= 0)%Z.
Proof.
  intros Hh H0 H1. unfold Js.floor.
  assert (Hlt : inject_Z height * factor < 1).
  { assert (Hq : inject_Z height <= 1) by (unfold Qle; simpl; lia). nra. }
  pose proof (Qfloor_le (inject_Z height * factor)) as Hf.
  assert (Hz : inject_Z (Qfloor (inject_Z height * factor)) < inject_Z 1)
    by (change (inject_Z 1) with 1; lra).
  rewrite <- Zlt_Qlt in Hz. lia.
Qed.

End Candidates.

(** X8.  Every candidate that the four detectors of [detection.js] hand to
    the final assembly has a confidence above 0.6 (persons above 0.6,
    helmets above 0.7, vests above 0.65, full-body pairs at 0.8), so the
    confidence floor of the assembly never drops one of them. *)
Theorem floor_drops_no_candidate (data : list Z) (width height : Z) :
  let candidates :=
    Current.detectPerson data width height ++ Current.detectHelmets data width height
    ++ Current.detectVests data width height ++ Current.detectFullPPE data width height in
  Forall (fun d => 0.6 < confidence d) candidates
  /\ List.filter (fun d => Js.ltb 0.6 (confidence d)) candidates = candidates.
Proof.
  cbv zeta.
  assert (H : Forall (fun d => 0.6 < confidence d)
                (Current.detectPerson data width height
                 ++ Current.detectHelmets data width height
                 ++ Current.detectVests data width height
                 ++ Current.detectFullPPE data width height)).
  { repeat (apply List.Forall_app; split).
    - apply detectPerson_above_floor.
    - eapply List.Forall_impl; [|apply detectHelmets_above_floor].
      intros d Hd. simpl in Hd. lra.
    - eapply List.Forall_impl; [|apply detectVests_above_floor].
      intros d Hd. simpl in Hd. lra.
    - unfold Current.detectFullPPE.
      destruct (pairs_of_regions _ (findFullBodyPPE_regions data width height))
        as (boxes & -> & _).
      apply List.Forall_forall. intros d Hd.
      apply in_flat_map in Hd as (pair & _ & [<-|[<-|[]]]); reflexivity. }
  split; [exact H|].
  apply forallb_filter_id. apply forallb_forall. intros d Hd.
  rewrite List.Forall_forall in H. apply ltb_spec, H, Hd.
Qed.


(** X10.  An image at most 32 pixels wide, or at most one pixel high, is
    too small for every scan window of [detection.js]: whatever its bytes,
    no detection is produced. *)
Theorem small_images_yield_nothing (data : list Z) (width height : Z) :
  (width <= 32 \/ height <= 1)%Z ->
  Current.detectFromPixels data width height = [].
Proof.
  intros Hsmall.
  assert (Hp : Current.detectPerson data width height = []).
  { unfold Current.detectPerson, Current.findPersonRegions. cbv zeta.
    destruct Hsmall as [Hw|Hh].
    - rewrite (forRange_empty 0 (width - 64)) by lia. cbn [flat_map].
      rewrite flat_map_nil. reflexivity.
    - rewrite (forRange_empty 0 (height - 64)) by lia. reflexivity. }
  assert (Hh : Current.detectHelmets data width height = []).
  { unfold Current.detectHelmets. cbv zeta.
    destruct Hsmall as [Hw|Hh].
    - rewrite (forRange_empty 0 (width - 32)) by lia. cbn [flat_map].
      rewrite flat_map_nil. reflexivity.
    - rewrite (forRange_empty 0 (Js.floor (height * 0.5))); [reflexivity|].
      apply floor_of_small; [exact Hh|lra|lra]. }
  assert (Hv : Current.detectVests data width height = []).
  { unfold Current.detectVests. cbv zeta.
    destruct Hsmall as [Hw|Hh'].
    - rewrite (forRange_empty 0 (width - 48)) by lia. cbn [flat_map].
      rewrite flat_map_nil. reflexivity.
    - rewrite (forRange_empty (Js.floor (height * 0.2))
                 (Js.floor (height * 0.2) + Js.floor (height * 0.6))); [reflexivity|].
      pose proof (floor_of_small height 0.6 Hh') as Hf.
      assert (Js.floor (height * 0.6) <= 0)%Z by (apply Hf; lra). lia. }
  assert (Hf : Current.detectFullPPE data width height = []).
  { unfold Current.detectFullPPE, Current.findFullBodyPPE. cbv zeta.
    destruct Hsmall as [Hw|Hh'].
    - rewrite (forRange_empty 0 (width - 96)) by lia. cbn [flat_map].
      rewrite flat_map_nil. reflexivity.
    - rewrite (forRange_empty 0 (height - 96)) by lia. reflexivity. }
  unfold Current.detectFromPixels. rewrite Hp, Hh, Hv, Hf. reflexivity.
Qed.

(** X10, witness: a 32 x 600 strip without bytes. *)
Lemma small_images_yield_nothing_witness : Current.detectFromPixels [] 32 600 = [].
Proof. apply small_images_yield_nothing. left. lia. Defined.



(** ** The summary of an analysis *)

Section Summary.

Lemma maxOf_ge_first c cs : c <= Js.maxOf c cs.
Proof.
  unfold Js.maxOf. revert c. induction cs as [|a cs IH]; intros c; simpl; [lra|].
  eapply Qle_trans; [apply (Q.le_max_l c a)|apply IH].
Qed.

Lemma maxOf_upper c cs : Forall (fun v => v <= Js.maxOf c cs) (c :: cs).
Proof.
  revert c. induction cs as [|a cs IH]; intros c.
  - constructor; [apply maxOf_ge_first|constructor].
  - constructor; [apply maxOf_ge_first|].
    specialize (IH (Qmax c a)). inversion IH as [|v vs Hv Hvs]; subst.
    constructor; [|exact Hvs].
    eapply Qle_trans; [apply (Q.le_max_r c a)|exact Hv].
Qed.

Lemma maxOf_attained c cs : exists v, In v (c :: cs) /\ Js.maxOf c cs == v.
Proof.
  revert c. induction cs as [|a cs IH]; intros c.
  - exists c. split; [left; reflexivity|reflexivity].
  - destruct (IH (Qmax c a)) as (v & [<-|Hin] & Hv).
    + destruct (Q.max_spec c a) as [[_ E]|[_ E]].
      * exists a. split; [right; left; reflexivity|].
        unfold Js.maxOf in *. simpl. rewrite Hv. exact E.
      * exists c. split; [left; reflexivity|].
        unfold Js.maxOf in *. simpl. rewrite Hv. exact E.
    + exists v. split; [right; right; exact Hin|exact Hv].
Qed.

Lemma existsb_countLabel l ds :
  existsb (fun d => bool_decide (label d = l)) ds = negb (countLabel l ds =? 0)%nat.
Proof.
  unfold countLabel. induction ds as [|d ds IH]; simpl; [reflexivity|].
  destruct (bool_decide (label d = l)); simpl; [reflexivity|exact IH].
Qed.

Lemma maxConfidence_upper l ds :
  Forall (fun d => label d = l -> confidence d <= Current.maxConfidence l ds) ds.
Proof.
  apply List.Forall_forall. intros d Hd Hl. unfold Current.maxConfidence.
  assert (Hin : In (confidence d)
                  (List.map confidence
                     (List.filter (fun d => bool_decide (label d = l)) ds))).
  { apply in_map. apply filter_In. split; [exact Hd|].
    apply bool_decide_eq_true. exact Hl. }
  destruct (List.map confidence _) as [|c cs]; [destruct Hin|].
  pose proof (maxOf_upper c cs) as Hup. rewrite List.Forall_forall in Hup.
  apply Hup, Hin.
Qed.

Lemma maxConfidence_attained l ds :
  if existsb (fun d => bool_decide (label d = l)) ds
  then exists d, In d ds /\ label d = l /\ confidence d == Current.maxConfidence l ds
  else Current.maxConfidence l ds = 0.
Proof.
  rewrite existsb_countLabel. unfold countLabel, Current.maxConfidence.
  destruct (List.filter (fun d => bool_decide (label d = l)) ds) as [|d0 others] eqn:E;
    [reflexivity|].
  cbn [List.length Nat.eqb negb List.map].
  destruct (maxOf_attained (confidence d0) (List.map confidence others)) as (v & Hin & Hv).
  change (confidence d0 :: List.map confidence others)
    with (List.map confidence (d0 :: others)) in Hin.
  apply in_map_iff in Hin as (d & <- & Hd). rewrite <- E in Hd.
  apply filter_In in Hd as [Hd Hl]. apply bool_decide_eq_true in Hl.
  exists d. split; [exact Hd|]. split; [exact Hl|]. symmetry. exact Hv.
Qed.

Lemma assembled_above_floor (detections : list Detection) :
  Forall (fun d => 0.6 < confidence d) (Current.filterAndMergeDetections detections).
Proof.
  destruct (filterAndMerge_from_filtered detections) as [dropped Hd].
  apply List.Forall_forall. intros d Hin.
  apply (sub_multiset_In _ dropped _ d Hd) in Hin.
  apply filter_In in Hin as [_ Hin]. apply ltb_spec, Hin.
Qed.

End Summary.

(** X12.  The summary that [analyzeImageForPPE] returns agrees with its
    detection list: the flag of a label is set exactly when a detection
    carries the label, the label's confidence bounds every such detection,
    is attained by one of them and exceeds 0.6 when the flag is set, and is
    0 otherwise. *)
Theorem summary_agrees_with_detections (source : PixelSource) (imagePath : string)
    (l : Label) :
  let analysis := Current.analyzeImageForPPE source imagePath in
  summaryFlag analysis l = negb (countLabel l (Current.detections analysis) =? 0)%nat
  /\ Forall (fun d => label d = l -> confidence d <= summaryConfidence analysis l)
            (Current.detections analysis)
  /\ (if summaryFlag analysis l
      then 0.6 < summaryConfidence analysis l
           /\ exists d, In d (Current.detections analysis) /\ label d = l
                        /\ confidence d == summaryConfidence analysis l
      else summaryConfidence analysis l = 0).
Proof.
  cbv zeta. unfold Current.analyzeImageForPPE.
  destruct (getImageInfo source imagePath) as [[width height]|].
  - cbv zeta. set (ds := Current.detectPPEObjects source imagePath width height).
    assert (Hfloor : Forall (fun d => 0.6 < confidence d) ds).
    { unfold ds, Current.detectPPEObjects.
      destruct (getImageData source imagePath width height); [|constructor].
      apply assembled_above_floor. }
    assert (Hflag : summaryFlag
                      (Current.mkAnalysis
                         (existsb (fun d => bool_decide (label d = helmet)) ds)
                         (existsb (fun d => bool_decide (label d = vest)) ds)
                         (existsb (fun d => bool_decide (label d = helmet)) ds
                          && existsb (fun d => bool_decide (label d = vest)) ds)
                         (existsb (fun d => bool_decide (label d = person)) ds) ds
                         (Current.maxConfidence helmet ds) (Current.maxConfidence vest ds)
                         (Current.maxConfidence person ds) width height) l
                    = existsb (fun d => bool_decide (label d = l)) ds)
      by (destruct l; reflexivity).
    assert (Hconf : summaryConfidence
                      (Current.mkAnalysis
                         (existsb (fun d => bool_decide (label d = helmet)) ds)
                         (existsb (fun d => bool_decide (label d = vest)) ds)
                         (existsb (fun d => bool_decide (label d = helmet)) ds
                          && existsb (fun d => bool_decide (label d = vest)) ds)
                         (existsb (fun d => bool_decide (label d = person)) ds) ds
                         (Current.maxConfidence helmet ds) (Current.maxConfidence vest ds)
                         (Current.maxConfidence person ds) width height) l
                    = Current.maxConfidence l ds)
      by (destruct l; reflexivity).
    rewrite Hflag, Hconf. clear Hflag Hconf. cbn [Current.detections].
    split; [apply existsb_countLabel|]. split; [apply maxConfidence_upper|].
    pose proof (maxConfidence_attained l ds) as Hmax.
    destruct (existsb (fun d => bool_decide (label d = l)) ds); [|exact Hmax].
    destruct Hmax as (d & Hd & Hl & Hc). split; [|exists d; auto].
    rewrite List.Forall_forall in Hfloor. rewrite <- Hc. apply Hfloor, Hd.
  - destruct l; cbn; repeat split; constructor.
Qed.

(** ** What the limiter drops *)

Section LimiterChoice.

Lemma sorted_split (k : nat) (sorted : list Detection) :
  StronglySorted (fun a b => confidence b <= confidence a) sorted ->
  Forall (fun x => Forall (fun kept => confidence x <= confidence kept) (firstn k sorted))
         (skipn k sorted).
Proof.
  intros Hs. revert k. induction Hs as [|a rest Hs IH Ha]; intros k.
  - destruct k; constructor.
  - destruct k as [|k]; simpl.
    + apply List.Forall_forall. intros x _. constructor.
    + specialize (IH k). rewrite List.Forall_forall in IH, Ha.
      apply List.Forall_forall. intros x Hx. constructor; [|apply IH, Hx].
      apply Ha. rewrite <- (firstn_skipn k rest). apply in_or_app. right. exact Hx.
Qed.

Lemma spilled_labels entry :
  Forall (fun d => label d = fst entry) (snd entry) ->
  Forall (fun d => label d = fst entry) (spilled entry).
Proof.
  intros H. apply List.Forall_forall. intros d Hd.
  rewrite List.Forall_forall in H. apply H.
  eapply Permutation_in; [symmetry; apply sortByConfidence_perm|].
  rewrite <- (firstn_skipn (Legacy.maxPerClass (fst entry)) (sortByConfidence (snd entry))).
  apply in_or_app. right. exact Hd.
Qed.

Lemma countLabel_same l ds :
  Forall (fun d => label d = l) ds -> countLabel l ds = List.length ds.
Proof.
  intros H. unfold countLabel. induction H as [|d rest Hd _ IH]; simpl; [reflexivity|].
  rewrite bool_decide_eq_true_2 by exact Hd. simpl. rewrite IH. reflexivity.
Qed.

Lemma group_by_key (groups : list (Label * list Detection)) e e' :
  NoDup (List.map fst groups) -> In e groups -> In e' groups -> fst e = fst e' -> e = e'.
Proof.
  induction groups as [|g groups IH]; intros Hnd He He' Hk; [destruct He|].
  simpl in Hnd. apply NoDup_cons in Hnd as [Hout Hnd].
  destruct He as [<-|He], He' as [<-|He'].
  - reflexivity.
  - exfalso. apply Hout. rewrite Hk. apply list_elem_of_In, in_map, He'.
  - exfalso. apply Hout. rewrite <- Hk. apply list_elem_of_In, in_map, He.
  - apply IH; assumption.
Qed.

Lemma count_of_group groups e :
  wellGrouped groups -> In e groups ->
  countLabel (fst e) (concat (List.map limited groups)) = List.length (limited e).
Proof.
  intros [Hnd Hall] He. induction Hall as [|g rest Hhd Htl IH]; [destruct He|].
  simpl in Hnd. apply NoDup_cons in Hnd as [Hout Hnd].
  simpl. rewrite countLabel_app. destruct He as [<-|He].
  - rewrite (limited_absent (fst g) rest Hout Htl), Nat.add_0_r.
    apply countLabel_same, limited_labels, Hhd.
  - rewrite (countLabel_other (fst e) (fst g)); [apply IH; assumption|apply limited_labels, Hhd|].
    intros E. apply Hout. rewrite E. apply list_elem_of_In, in_map, He.
Qed.

Lemma groups_split groups :
  Permutation (concat (List.map snd groups))
    (concat (List.map limited groups) ++ concat (List.map spilled groups)).
Proof.
  induction groups as [|g groups IH]; simpl; [constructor|].
  rewrite IH.
  rewrite (sortByConfidence_perm (snd g)) at 1.
  rewrite <- (firstn_skipn (Legacy.maxPerClass (fst g)) (sortByConfidence (snd g))) at 1.
  fold (limited g). fold (spilled g).
  rewrite <- !app_assoc. apply Permutation_app_head.
  rewrite !app_assoc. apply Permutation_app_tail. apply Permutation_app_comm.
Qed.

End LimiterChoice.

(** X13.  [limitDetectionsPerClass] only drops detections; a detection is
    dropped only when its class is full, and every detection kept of that
    class is at least as confident as the dropped one. *)
Theorem limiter_keeps_the_most_confident (detections : list Detection) :
  exists dropped,
    Permutation detections (Legacy.limitDetectionsPerClass detections ++ dropped)
    /\ Forall (fun x =>
         countLabel (label x) (Legacy.limitDetectionsPerClass detections)
           = Legacy.maxPerClass (label x)
         /\ Forall (fun kept => label kept = label x -> confidence x <= confidence kept)
                   (Legacy.limitDetectionsPerClass detections)) dropped.
Proof.
  unfold Legacy.limitDetectionsPerClass.
  set (groups := fold_left byLabelPush detections []).
  change (List.map _ groups) with (List.map limited groups).
  pose proof (grouping_wellGrouped detections [] wellGrouped_nil) as Hwg.
  fold groups in Hwg.
  exists (concat (List.map spilled groups)). split.
  - rewrite <- groups_split. unfold groups. rewrite grouping_perm.
    simpl. rewrite app_nil_r. reflexivity.
  - apply List.Forall_forall. intros x Hx.
    apply in_concat in Hx as (part & Hpart & Hx).
    apply in_map_iff in Hpart as (e & <- & He).
    pose proof Hwg as [Hnd Hall]. rewrite List.Forall_forall in Hall.
    pose proof (spilled_labels e (Hall e He)) as Hsp.
    rewrite List.Forall_forall in Hsp. pose proof (Hsp x Hx) as Hlx.
    split.
    + rewrite Hlx, (count_of_group groups e Hwg He).
      unfold limited. rewrite List.length_firstn.
      unfold spilled in Hx.
      assert (Hlen : (Legacy.maxPerClass (fst e)
                      < List.length (sortByConfidence (snd e)))%nat).
      { destruct (Nat.lt_ge_cases (Legacy.maxPerClass (fst e))
                    (List.length (sortByConfidence (snd e)))) as [Hlt|Hge]; [exact Hlt|].
        rewrite List.skipn_all2 in Hx by exact Hge. destruct Hx. }
      lia.
    + apply List.Forall_forall. intros kept Hkept Hlabel.
      apply in_concat in Hkept as (part & Hpart & Hkept).
      apply in_map_iff in Hpart as (e' & <- & He').
      pose proof (limited_labels e' (Hall e' He')) as Hlm.
      rewrite List.Forall_forall in Hlm. pose proof (Hlm kept Hkept) as Hlk.
      assert (e' = e) as -> by (apply (group_by_key groups); congruence).
      pose proof (sorted_split (Legacy.maxPerClass (fst e)) (sortByConfidence (snd e))
                    (descending_strong _ (sortByConfidence_descending (snd e)))) as Hs.
      rewrite List.Forall_forall in Hs. specialize (Hs x Hx).
      rewrite List.Forall_forall in Hs. apply Hs, Hkept.
Qed.

(** ** The union box of the earlier Merger *)

Section UnionBox.

Lemma minOf_le_first c cs : Js.minOf c cs <= c.
Proof.
  unfold Js.minOf. revert c. induction cs as [|a cs IH]; intros c; simpl; [lra|].
  eapply Qle_trans; [apply IH|apply (Q.le_min_l c a)].
Qed.

Lemma minOf_lower c cs : Forall (fun v => Js.minOf c cs <= v) (c :: cs).
Proof.
  revert c. induction cs as [|a cs IH]; intros c.
  - constructor; [apply minOf_le_first|constructor].
  - constructor; [apply minOf_le_first|].
    specialize (IH (Qmin c a)). inversion IH as [|v vs Hv Hvs]; subst.
    constructor; [|exact Hvs].
    eapply Qle_trans; [exact Hv|apply (Q.le_min_r c a)].
Qed.

Lemma bound_of_member {A : Type} (f : A -> Q) (R : Q -> Q -> Prop) (m : Q)
    (first : A) (others : list A) (d : A) :
  Forall (fun v => R m v) (f first :: List.map f others) ->
  In d (first :: others) -> R m (f d).
Proof.
  intros H Hd. rewrite List.Forall_forall in H. apply H.
  change (f first :: List.map f others) with (List.map f (first :: others)).
  apply in_map, Hd.
Qed.

End UnionBox.

(** X14.  The detection that the earlier Merger builds for a cluster of
    several candidates keeps the label of the cluster's first candidate,
    has a confidence of at most 0.98, and its box encloses the box of every
    member of the cluster. *)
Theorem merged_box_encloses_cluster (best : Detection) (others : list Detection) :
  let merged := Legacy.createMergedDetection best others in
  label merged = label best
  /\ confidence merged <= 0.98
  /\ confidence merged <= confidence best + 0.02
  /\ Forall (fun d => encloses (bbox merged) (bbox d)) (best :: others).
Proof.
  cbv zeta. unfold Legacy.createMergedDetection. cbv zeta.
  cbn [label confidence bbox].
  split; [reflexivity|]. split; [apply Q.le_min_l|]. split; [apply Q.le_min_r|].
  apply List.Forall_forall. intros d Hd. unfold encloses.
  cbn [bbox_x bbox_y bbox_width bbox_height].
  pose proof (bound_of_member (fun d => bbox_x (bbox d)) (fun m v => m <= v) _ best others d
                (minOf_lower _ _) Hd) as H1.
  pose proof (bound_of_member (fun d => bbox_y (bbox d)) (fun m v => m <= v) _ best others d
                (minOf_lower _ _) Hd) as H2.
  pose proof (bound_of_member (fun d => bbox_x (bbox d) + bbox_width (bbox d))
                (fun m v => v <= m) _ best others d (maxOf_upper _ _) Hd) as H3.
  pose proof (bound_of_member (fun d => bbox_y (bbox d) + bbox_height (bbox d))
                (fun m v => v <= m) _ best others d (maxOf_upper _ _) Hd) as H4.
  cbv beta in H1, H2, H3, H4.
  repeat split; lra.
Qed.

(** X15.  The filename fallback of the earlier module reports no person and
    at most one helmet and one vest, each with confidence 0.75 and the
    helmet first; it reports nothing exactly when the lower-cased path holds
    neither word; and the per-class limiter leaves its result unchanged. *)
Theorem fallback_passes_the_limiter (imagePath : string) (width height : Z) :
  let found := Legacy.fallbackDetection imagePath width height in
  List.map label found
    = (if Js.includes (Js.toLowerCase imagePath) "helmet" then [helmet] else [])
      ++ (if Js.includes (Js.toLowerCase imagePath) "vest" then [vest] else [])
  /\ Forall (fun d => confidence d = 0.75) found
  /\ Legacy.limitDetectionsPerClass found = found.
Proof.
  cbv zeta. unfold Legacy.fallbackDetection. cbv zeta.
  destruct (Js.includes (Js.toLowerCase imagePath) "helmet");
    destruct (Js.includes (Js.toLowerCase imagePath) "vest");
    (split; [reflexivity|split; [repeat constructor|reflexivity]]).
Qed.

(** ** The earlier detection hash *)

Section LegacyHash.

Lemma toFixed_of_parts digits q q' :
  Js.fixedParts digits q = Js.fixedParts digits q' -> Js.toFixed digits q = Js.toFixed digits q'.
Proof. unfold Js.toFixed. intros ->. reflexivity. Qed.

End LegacyHash.

(** X16.  The earlier [generateDetectionHash] reads, of each detection, only
    the label and the confidence and the box corner rounded to two decimals:
    two detection lists that agree on these have the same hash, whatever the
    box sizes. *)
Theorem legacy_hash_reads_label_confidence_corner (ds1 ds2 : list Detection) :
  Forall2 (fun a b =>
             label a = label b
             /\ Js.fixedParts 2 (confidence a) = Js.fixedParts 2 (confidence b)
             /\ Js.fixedParts 2 (bbox_x (bbox a)) = Js.fixedParts 2 (bbox_x (bbox b))
             /\ Js.fixedParts 2 (bbox_y (bbox a)) = Js.fixedParts 2 (bbox_y (bbox b)))
          ds1 ds2 ->
  Legacy.generateDetectionHash ds1 = Legacy.generateDetectionHash ds2.
Proof.
  intros H. unfold Legacy.generateDetectionHash. do 2 f_equal.
  induction H as [|a b l1 l2 (Hl & Hc & Hx & Hy) _ IH]; [reflexivity|].
  cbn [List.map]. rewrite IH, Hl.
  rewrite (toFixed_of_parts 2 _ _ Hc), (toFixed_of_parts 2 _ _ Hx),
    (toFixed_of_parts 2 _ _ Hy).
  reflexivity.
Qed.

(** X16, witness: the whole image and its upper strip. *)
Lemma legacy_hash_reads_label_confidence_corner_witness :
  Legacy.generateDetectionHash [Sample.whole] = Legacy.generateDetectionHash [Sample.strip'].
Proof.
  apply legacy_hash_reads_label_confidence_corner.
  constructor; [|constructor]. repeat split; reflexivity.
Defined.

(** ** Suppression keeps the seeds apart *)

Section Seeds.

Lemma unusedFrom_mono i rest used1 used2 d :
  used1 ⊆ used2 -> In d (unusedFrom i rest used2) -> In d (unusedFrom i rest used1).
Proof.
  intros Hsub. revert i. induction rest as [|e rest IH]; intros i Hd; [destruct Hd|].
  simpl in *. destruct (decide (i ∈ used2)) as [H2|H2].
  - destruct (decide (i ∈ used1)); [apply IH, Hd|right; apply IH, Hd].
  - destruct (decide (i ∈ used1)) as [H1|H1]; [exfalso; apply H2, Hsub, H1|].
    destruct Hd as [<-|Hd]; [left; reflexivity|right; apply IH, Hd].
Qed.

Lemma mergeInner_leaves_apart thr current j later used :
  Forall (keptApart thr current)
         (unusedFrom j later (snd (mergeInner thr current j later used))).
Proof.
  revert j used. induction later as [|dj later IH]; intros j used; [constructor|].
  cbn [mergeInner].
  destruct (decide (j ∈ used)) as [Hj|Hj].
  - cbn [unusedFrom].
    pose proof (mergeInner_used_mono thr current (S j) later used) as Hm.
    destruct (decide (j ∈ snd (mergeInner thr current (S j) later used))) as [_|Hn];
      [apply IH|exfalso; apply Hn, Hm, Hj].
  - destruct (Double.ltb' (Double.ofQ thr) (calculateOverlap (bbox current) (bbox dj))
              && bool_decide (label current = label dj)) eqn:E.
    + pose proof (mergeInner_used_mono thr current (S j) later ({[j]} ∪ used)) as Hm.
      specialize (IH (S j) ({[j]} ∪ used)).
      destruct (mergeInner thr current (S j) later ({[j]} ∪ used)) as [ov u].
      cbn [snd unusedFrom] in *.
      destruct (decide (j ∈ u)) as [_|Hn]; [exact IH|].
      exfalso. apply Hn, Hm, elem_of_union_l, elem_of_singleton. reflexivity.
    + cbn [unusedFrom].
      destruct (decide (j ∈ snd (mergeInner thr current (S j) later used))) as [Hin|_];
        [apply IH|].
      constructor; [|apply IH].
      intros Hl. apply andb_false_iff in E as [E|E].
      * exact E.
      * apply bool_decide_eq_false in E. contradiction.
Qed.

Lemma seeds_are_unused thr i rest used d :
  In d (omap head (Current.clustersLoop thr i rest used)) -> In d (unusedFrom i rest used).
Proof.
  revert i used. induction rest as [|current rest IH]; intros i used Hd; [destruct Hd|].
  cbn [Current.clustersLoop unusedFrom] in *.
  destruct (decide (i ∈ used)); [apply IH, Hd|].
  pose proof (mergeInner_used_mono thr current (S i) rest ({[i]} ∪ used)) as Hm.
  destruct (mergeInner thr current (S i) rest ({[i]} ∪ used)) as [ov u].
  cbn [snd] in Hm. cbn in Hd. destruct Hd as [<-|Hd]; [left; reflexivity|].
  right. apply (unusedFrom_mono _ _ used u); [|apply IH, Hd].
  intros k Hk. apply Hm, elem_of_union_r, Hk.
Qed.

Lemma seeds_apart thr i rest used :
  ForallOrdPairs (keptApart thr) (omap head (Current.clustersLoop thr i rest used)).
Proof.
  revert i used. induction rest as [|current rest IH]; intros i used; [constructor|].
  cbn [Current.clustersLoop].
  destruct (decide (i ∈ used)); [apply IH|].
  pose proof (mergeInner_leaves_apart thr current (S i) rest ({[i]} ∪ used)) as Hap.
  pose proof (seeds_are_unused thr (S i) rest
                (snd (mergeInner thr current (S i) rest ({[i]} ∪ used)))) as Hun.
  specialize (IH (S i) (snd (mergeInner thr current (S i) rest ({[i]} ∪ used)))).
  destruct (mergeInner thr current (S i) rest ({[i]} ∪ used)) as [ov u].
  cbn [snd] in *. cbn. constructor; [|exact IH].
  rewrite List.Forall_forall in Hap. apply List.Forall_forall. intros d Hd.
  apply Hap, Hun, Hd.
Qed.

End Seeds.

(** X17.  The seeds of the clusters that a Merger forms are kept apart: no
    two seeds of one label overlap by more than the threshold.  On an array
    sorted by confidence the Merger of [detection.js] returns the seeds, so
    its output is kept apart then. *)
Theorem suppression_keeps_seeds_apart (detections : list Detection) (threshold : Q) :
  ForallOrdPairs (keptApart threshold) (omap head (Current.clusters detections threshold))
  /\ ForallOrdPairs (keptApart threshold)
       (Current.mergeOverlappingDetections (sortByConfidence detections) threshold).
Proof.
  split; [apply seeds_apart|].
  rewrite mergeOverlappingDetections_loop, sorted_mergeLoop_emits_seeds.
  - apply seeds_apart.
  - apply descending_strong, sortByConfidence_descending.
Qed.

(** ** Images of one colour *)

Section BlankImages.

Lemma totalOver_repeat (f : Px.t -> Z) (p : Px.t) (n : nat) :
  Current.totalOver f (List.repeat p n) = (Z.of_nat n * f p)%Z.
Proof.
  unfold Current.totalOver.
  assert (H : forall acc, fold_left (fun acc pixel => (acc + f pixel)%Z) (List.repeat p n) acc
                          = (acc + Z.of_nat n * f p)%Z).
  { induction n as [|n IH]; intros acc; [simpl; lia|].
    cbn [List.repeat fold_left]. rewrite IH. lia. }
  rewrite H. lia.
Qed.

Lemma round_of_mean (n v : Z) : (0 < n)%Z -> Js.round ((n * v)%Z / n) = v.
Proof.
  intros Hn. unfold Js.round.
  assert (E : inject_Z (n * v) / inject_Z n + (1 # 2) == ((2 * v + 1)%Z # 2)).
  { rewrite inject_Z_mult. unfold Qdiv.
    assert (Hne : ~ inject_Z n == 0) by (unfold Qeq; simpl; lia).
    rewrite (Qmult_comm (inject_Z n)), <- Qmult_assoc, Qmult_inv_r, Qmult_1_r by exact Hne.
    unfold Qeq, Qplus, inject_Z. simpl. lia. }
  rewrite E. unfold Qfloor. symmetry. apply (Z.div_unique_pos _ _ v 1); lia.
Qed.

Lemma dominant_of_uniform (p : Px.t) (n : nat) :
  Current.dominant (Current.analyzeColors (List.repeat p (S n)))
  = Rgb.mk (Px.r p) (Px.g p) (Px.b p).
Proof.
  unfold Current.analyzeColors.
  change (List.repeat p (S n)) with (p :: List.repeat p n) at 1.
  cbv zeta. cbn [Current.dominant].
  rewrite !totalOver_repeat, List.repeat_length.
  rewrite !round_of_mean by lia. reflexivity.
Qed.

Lemma no_skin_in_uniform (p : Px.t) (n : nat) :
  Current.isSkinPixel p = false ->
  Js.ltb 0.6 (Current.analyzeSkinTone (List.repeat p n)) = false.
Proof.
  intros Hp. destruct n as [|n]; [reflexivity|].
  assert (Hf : List.filter Current.isSkinPixel (List.repeat p (S n)) = []).
  { induction (S n) as [|k IH]; [reflexivity|]. cbn [List.repeat List.filter].
    rewrite Hp. exact IH. }
  unfold Current.analyzeSkinTone.
  change (List.repeat p (S n)) with (p :: List.repeat p n) at 1.
  cbv zeta. rewrite Hf. apply ltb_false. unfold Qdiv. cbn [List.length Z.of_nat].
  rewrite Qmult_0_l. lra.
Qed.

Lemma helmet_needs_colour (region : list Px.t) (blockSize : Z) :
  Current.matchHelmetColor (Current.dominant (Current.analyzeColors region)) = None ->
  Current.isHelmet (Current.analyzeHelmetRegion region blockSize) = false.
Proof.
  intros Hm. unfold Current.analyzeHelmetRegion. destruct region as [|p ps]; [reflexivity|].
  cbv zeta. rewrite Hm. cbn [Current.isHelmet].
  repeat match goal with |- context [if ?c then _ else _] => destruct c end; reflexivity.
Qed.

Lemma vest_needs_colour (region : list Px.t) (blockSize : Z) :
  Current.isColorInRange (Current.dominant (Current.analyzeColors region))
    Current.PPE_COLORS_vest_highVis = false ->
  Current.isVest (Current.analyzeVestRegion region blockSize) = false.
Proof.
  intros Hm. unfold Current.analyzeVestRegion. destruct region as [|p ps]; [reflexivity|].
  cbv zeta. rewrite Hm. cbn [Current.isVest].
  repeat match goal with |- context [if ?c then _ else _] => destruct c end; reflexivity.
Qed.

Lemma uniformityColor_of_uniform (p : Px.t) (n : nat) :
  Current.uniformityColor (Current.analyzeUniformity (List.repeat p (S n)))
  = Rgb.mk (Px.r p) (Px.g p) (Px.b p).
Proof.
  unfold Current.analyzeUniformity. cbn [List.repeat]. cbv zeta.
  cbn [Current.uniformityColor].
  change (p :: List.repeat p n) with (List.repeat p (S n)).
  apply dominant_of_uniform.
Qed.

Lemma no_colour_no_dark_blue (c : Rgb.t) :
  Current.matchHelmetColor c = None ->
  Current.isColorInRange c Current.PPE_COLORS_helmet_darkBlue = false.
Proof.
  unfold Current.matchHelmetColor, Current.PPE_COLORS_helmet. cbn [List.find snd].
  change (mkColorRange (0, 80)%Z (0, 80)%Z (80, 180)%Z)
    with Current.PPE_COLORS_helmet_darkBlue.
  destruct (Current.isColorInRange c (mkColorRange (20, 120)%Z (80, 180)%Z (20, 100)%Z));
    [discriminate|].
  destruct (Current.isColorInRange c (mkColorRange (180, 255)%Z (180, 255)%Z (0, 100)%Z));
    [discriminate|].
  destruct (Current.isColorInRange c Current.PPE_COLORS_helmet_darkBlue);
    [discriminate|reflexivity].
Qed.

Lemma flat_map_all_nil {A B : Type} (f : A -> list B) (l : list A) :
  (forall a, In a l -> f a = []) -> flat_map f l = [].
Proof.
  intros H. induction l as [|a l IH]; [reflexivity|]. simpl.
  rewrite (H a) by (left; reflexivity). apply IH. intros b Hb. apply H. right. exact Hb.
Qed.

End BlankImages.

(** X18.  An image of a single colour that is neither skin-toned, nor in a
    helmet range, nor in the high-visibility range, nor light blue yields no
    detection in [detection.js], whatever its size. *)
Theorem blank_images_yield_nothing (width height : Z) (p : Px.t) :
  (0 < width)%Z -> (0 < height)%Z ->
  Current.isSkinPixel p = false ->
  Current.matchHelmetColor (Rgb.mk (Px.r p) (Px.g p) (Px.b p)) = None ->
  Current.isColorInRange (Rgb.mk (Px.r p) (Px.g p) (Px.b p)) Current.PPE_COLORS_vest_highVis
    = false ->
  (Px.b p <= 100 \/ Px.b p <= Px.r p \/ Px.b p <= Px.g p)%Z ->
  Current.detectFromPixels (Sample.uniformImage width height p) width height = [].
Proof.
  intros Hw Hh Hskin Hhelmet Hvest Hblue.
  assert (Hdom : forall n, (0 < n)%nat ->
            Current.dominant (Current.analyzeColors (List.repeat p n))
            = Rgb.mk (Px.r p) (Px.g p) (Px.b p)).
  { intros [|n] Hn; [lia|apply dominant_of_uniform]. }
  assert (Hp : Current.detectPerson (Sample.uniformImage width height p) width height = []).
  { unfold Current.detectPerson, Current.findPersonRegions. cbv zeta.
    rewrite (flat_map_all_nil _ (Js.forRange 0 (height - 64) 32)); [reflexivity|].
    intros y Hy. apply forRange_bounds in Hy; [|lia].
    apply flat_map_all_nil. intros x Hx. apply forRange_bounds in Hx; [|lia].
    rewrite extract_uniform by lia. rewrite no_skin_in_uniform by exact Hskin.
    reflexivity. }
  assert (Hhel : Current.detectHelmets (Sample.uniformImage width height p) width height = []).
  { unfold Current.detectHelmets. cbv zeta.
    rewrite (flat_map_all_nil _ (Js.forRange 0 (Js.floor (height * 0.5)) 16)); [reflexivity|].
    intros y Hy. apply forRange_bounds in Hy; [|lia].
    apply flat_map_all_nil. intros x Hx. apply forRange_bounds in Hx; [|lia].
    rewrite extract_uniform by lia.
    set (n := (Z.to_nat (Z.min (y + 32) height - y) * Z.to_nat (Z.min (x + 32) width - x))%nat).
    rewrite helmet_needs_colour; [reflexivity|].
    destruct n as [|n]; [reflexivity|]. rewrite dominant_of_uniform. exact Hhelmet. }
  assert (Hves : Current.detectVests (Sample.uniformImage width height p) width height = []).
  { unfold Current.detectVests. cbv zeta.
    rewrite (flat_map_all_nil _
               (Js.forRange (Js.floor (height * 0.2))
                            (Js.floor (height * 0.2) + Js.floor (height * 0.6)) 24));
      [reflexivity|].
    intros y Hy. apply forRange_bounds in Hy; [|lia].
    assert (Hy0 : (0 <= Js.floor (height * 0.2))%Z).
    { unfold Js.floor. change 0%Z with (Qfloor 0). apply Qfloor_resp_le.
      assert (0 < inject_Z height) by (unfold Qlt; simpl; lia). nra. }
    apply flat_map_all_nil. intros x Hx. apply forRange_bounds in Hx; [|lia].
    rewrite extract_uniform by lia.
    set (n := (Z.to_nat (Z.min (y + 48) height - y) * Z.to_nat (Z.min (x + 48) width - x))%nat).
    rewrite vest_needs_colour; [reflexivity|].
    destruct n as [|n]; [reflexivity|]. rewrite dominant_of_uniform. exact Hvest. }
  assert (Hful : Current.detectFullPPE (Sample.uniformImage width height p) width height = []).
  { unfold Current.detectFullPPE.
    assert (Hnone : Current.findFullBodyPPE (Sample.uniformImage width height p) width height
                    = []); [|rewrite Hnone; reflexivity].
    unfold Current.findFullBodyPPE. cbv zeta.
    apply flat_map_all_nil. intros y Hy. apply forRange_bounds in Hy; [|lia].
    apply flat_map_all_nil. intros x Hx. apply forRange_bounds in Hx; [|lia].
    rewrite extract_uniform by lia.
    set (n := (Z.to_nat (Z.min (y + 96) height - y) * Z.to_nat (Z.min (x + 96) width - x))%nat).
    destruct n as [|n]; [reflexivity|].
    rewrite uniformityColor_of_uniform.
    rewrite (no_colour_no_dark_blue _ Hhelmet). cbn [Rgb.r Rgb.g Rgb.b orb].
    assert (Hlb : ((Px.r p <? Px.b p)%Z && (Px.g p <? Px.b p)%Z && (100 <? Px.b p)%Z) = false).
    { destruct Hblue as [H|[H|H]].
      - apply Z.ltb_ge in H. rewrite H. apply andb_false_r.
      - apply Z.ltb_ge in H. rewrite H. reflexivity.
      - apply Z.ltb_ge in H. rewrite H. rewrite andb_false_r. reflexivity. }
    rewrite Hlb. destruct (Js.ltb 0.7 _); reflexivity. }
  unfold Current.detectFromPixels. rewrite Hp, Hhel, Hves, Hful. reflexivity.
Qed.

(** X18, witness: a white image of 640 x 480 pixels. *)
Lemma blank_images_yield_nothing_witness :
  Current.detectFromPixels (Sample.uniformImage 640 480 (Px.mk 255 255 255 255)) 640 480 = [].
Proof.
  apply blank_images_yield_nothing; try reflexivity. right. left. simpl. lia.
Defined.

(** ** The region scorers of the earlier module *)

(** X19.  The earlier vest scorer accepts a region only if it shows at
    least two of the three vest features (high-visibility colour, stripe
    probability above 0.5, reflective share above 0.3); it never accepts a
    region of low variance (below 0.1) and low stripe probability (below
    0.2); it accepts every non-empty region with the colour and the
    stripes; and its confidence is at most 0.96. *)
Theorem legacy_vest_needs_two_features (region : LegacyRegion.t) :
  let colour := LegacyRegion.isValidVestColor (LegacyRegion.avgColor region) in
  let stripes := Js.ltb 0.5 (LegacyRegion.stripeProbability region) in
  let reflective := Js.ltb 0.3 (LegacyRegion.reflectiveElements region) in
  let flat :=
    Js.ltb (LegacyRegion.colorVariance region) 0.1
    && Js.ltb (LegacyRegion.stripeProbability region) 0.2 in
  (fst (LegacyRegion.analyzeVestRegion (Some region)) = true ->
     (colour && stripes) || (colour && reflective) || (stripes && reflective) = true
     /\ flat = false)
  /\ (LegacyRegion.pixels region <> [] -> colour = true -> stripes = true ->
      fst (LegacyRegion.analyzeVestRegion (Some region)) = true)
  /\ snd (LegacyRegion.analyzeVestRegion (Some region)) <= 0.96.
Proof.
  cbv zeta. unfold LegacyRegion.analyzeVestRegion.
  destruct (LegacyRegion.pixels region) as [|p ps].
  { split; [discriminate|]. split; [intros H; contradiction|]. cbn [snd]. lra. }
  cbv zeta. cbn [fst snd].
  set (torso := Js.ltb _ (LegacyRegion.centerY region) && Js.ltb (LegacyRegion.centerY region) _).
  set (aspect := Js.ltb 0.6 _ && Js.ltb _ 2).
  split; [|split; [|apply Q.le_min_l]].
  - destruct (Js.ltb 0.5 (LegacyRegion.stripeProbability region)) eqn:Es;
      destruct (Js.ltb (LegacyRegion.stripeProbability region) 0.2) eqn:El;
      try (exfalso; apply ltb_spec in Es, El; lra);
      destruct (LegacyRegion.isValidVestColor _);
      destruct (Js.ltb 0.3 (LegacyRegion.reflectiveElements region));
      destruct torso; destruct aspect;
      destruct (Js.ltb (LegacyRegion.colorVariance region) 0.1);
      intros H; try discriminate H; split; reflexivity.
  - intros _ -> Hs. rewrite Hs.
    assert (Hlow : Js.ltb (LegacyRegion.stripeProbability region) 0.2 = false).
    { apply ltb_spec in Hs. apply ltb_false. lra. }
    rewrite Hlow, andb_false_r.
    destruct (Js.ltb 0.3 (LegacyRegion.reflectiveElements region));
      destruct torso; destruct aspect; reflexivity.
Qed.

(** X19, witness: an orange, striped region in the torso band. *)
Lemma legacy_vest_needs_two_features_witness :
  fst (LegacyRegion.analyzeVestRegion
         (Some (LegacyRegion.mk [Rgb.mk 230 150 40] (Rgb.mk 230 150 40) 0.3 0.4 0.7 0.1 0.5
                  330 330 60 60 800 600)))
  = true.
Proof.
  pose proof (legacy_vest_needs_two_features
                (LegacyRegion.mk [Rgb.mk 230 150 40] (Rgb.mk 230 150 40) 0.3 0.4 0.7 0.1 0.5
                   330 330 60 60 800 600)) as H.
  cbv zeta in H. destruct H as (_ & H & _).
  apply H; [discriminate|reflexivity|reflexivity].
Defined.

(** X20.  The earlier person scorer reports a person exactly when the mean
    brightness of the image lies strictly between 80 and 200 or some pixel
    differs from the mean by more than 50; its reduction for uniform images
    never applies.  The confidence of a reported person is between 0.6 and
    0.92, the score of an image without a person is at most 0.45, and
    [detectPerson] returns at most one detection. *)
Theorem legacy_person_presence (imageData : list Z) (width height : Z) :
  let analysis := LegacyRegion.analyzeFullImage imageData width height in
  let score := LegacyRegion.analyzeForPersonPresence imageData width height in
  fst score = LegacyRegion.hasSkinTones analysis || LegacyRegion.hasClothingColors analysis
  /\ Js.ltb 0.8 (LegacyRegion.colorUniformity analysis) = false
  /\ (if fst score then 0.6 <= snd score /\ snd score <= 0.92 else snd score <= 0.45)
  /\ LegacyRegion.detectPerson imageData width height
     = (if fst score
        then [mkDetection person (snd score) None
                (mkBBox (Js.floor (width * 0.1)) (Js.floor (height * 0.1))
                        (Js.floor (width * 0.8)) (Js.floor (height * 0.8)))]
        else []).
Proof.
  cbv zeta. unfold LegacyRegion.detectPerson, LegacyRegion.analyzeForPersonPresence.
  cbv zeta. unfold LegacyRegion.analyzeFullImage. cbv zeta.
  cbn [LegacyRegion.hasSkinTones LegacyRegion.hasClothingColors LegacyRegion.sceneComplexity
       LegacyRegion.colorUniformity LegacyRegion.distinctRegions fst snd].
  set (skin := match LegacyRegion.averageBrightness _ with
               | Some avg => Js.ltb 80 avg && Js.ltb avg 200
               | None => false
               end).
  set (variation := match LegacyRegion.averageBrightness _ with
                    | Some avg => existsb _ _
                    | None => false
                    end).
  destruct skin; destruct variation; destruct (Js.ltb (width * 1.2) height);
    cbn [fst snd orb];
    (split; [reflexivity|split; [reflexivity|split; [|reflexivity]]]);
    try (split; apply Qle_bool_imp_le; reflexivity);
    apply Qle_bool_imp_le; reflexivity.
Qed.

(** X21.  For a seed point inside the image, the box of [findObjectBounds]
    holds the seed, has a positive width and height of at most 120 pixels,
    starts inside the image, and ends inside the image whenever the image
    measures at least 120 pixels on that axis. *)
Theorem object_bounds_hold_the_seed (width height seedX seedY : Z) (objectType : Label) :
  (0 <= seedX < width)%Z -> (0 <= seedY < height)%Z ->
  let box := LegacyRegion.findObjectBounds width height seedX seedY objectType in
  (0 <= bbox_x box /\ bbox_x box <= seedX /\ seedX < bbox_x box + bbox_width box)
  /\ (0 <= bbox_y box /\ bbox_y box <= seedY /\ seedY < bbox_y box + bbox_height box)
  /\ (0 < bbox_width box /\ bbox_width box <= 120)
  /\ (0 < bbox_height box /\ bbox_height box <= 120)
  /\ bbox_x box + bbox_width box <= Qmax width 120
  /\ bbox_y box + bbox_height box <= Qmax height 120.
Proof.
  intros Hx Hy. cbv zeta. unfold LegacyRegion.findObjectBounds. cbv zeta.
  cbn [bbox_x bbox_y bbox_width bbox_height].
  assert (axis : forall (limit seed size : Q),
             0 <= seed -> seed < limit -> 0 < size -> size <= 120 ->
             (0 <= Qmax 0 (seed - size / 2)
              /\ Qmax 0 (seed - size / 2) <= seed
              /\ seed < Qmax 0 (seed - size / 2) + Qmin size (limit - seed + size / 2))
             /\ (0 < Qmin size (limit - seed + size / 2)
                 /\ Qmin size (limit - seed + size / 2) <= 120)
             /\ Qmax 0 (seed - size / 2) + Qmin size (limit - seed + size / 2)
                <= Qmax limit 120).
  { intros limit seed size Hs Hl Hz Hm.
    assert (Hhalf : size / 2 == size * (1 # 2)) by (unfold Qdiv; reflexivity).
    pose proof (Q.le_max_l limit 120) as M1.
    pose proof (Q.le_max_r limit 120) as M2.
    destruct (Q.max_spec 0 (seed - size / 2)) as [[A E]|[A E]];
      destruct (Q.min_spec size (limit - seed + size / 2)) as [[B F]|[B F]];
      rewrite E, F; repeat split; lra. }
  assert (Hsx : 0 <= inject_Z seedX) by (unfold Qle; simpl; lia).
  assert (Hsy : 0 <= inject_Z seedY) by (unfold Qle; simpl; lia).
  assert (Hlx : inject_Z seedX < inject_Z width) by (rewrite <- Zlt_Qlt; lia).
  assert (Hly : inject_Z seedY < inject_Z height) by (rewrite <- Zlt_Qlt; lia).
  destruct objectType.
  - destruct (axis width seedX 100 Hsx Hlx) as (A1 & A2 & A3); [lra|lra|].
    destruct (axis height seedY 100 Hsy Hly) as (B1 & B2 & B3); [lra|lra|].
    repeat split; tauto.
  - destruct (axis width seedX 80 Hsx Hlx) as (A1 & A2 & A3); [lra|lra|].
    destruct (axis height seedY 80 Hsy Hly) as (B1 & B2 & B3); [lra|lra|].
    repeat split; tauto.
  - destruct (axis width seedX 120 Hsx Hlx) as (A1 & A2 & A3); [lra|lra|].
    destruct (axis height seedY 120 Hsy Hly) as (B1 & B2 & B3); [lra|lra|].
    repeat split; tauto.
Qed.

(** X21, witness: a helmet seed at the corner of an 800 x 600 image. *)
Lemma object_bounds_hold_the_seed_witness :
  bbox_x (LegacyRegion.findObjectBounds 800 600 0 0 helmet) <= 0%Z
  /\ 0%Z < bbox_x (LegacyRegion.findObjectBounds 800 600 0 0 helmet)
           + bbox_width (LegacyRegion.findObjectBounds 800 600 0 0 helmet).
Proof.
  pose proof (object_bounds_hold_the_seed 800 600 0 0 helmet ltac:(lia) ltac:(lia)) as H.
  cbv zeta in H. destruct H as ((_ & H1 & H2) & _).
  split; [exact H1|exact H2].
Defined.

(** ** The pages of the frontend *)

Section Pages.

Lemma counter_counts (keep : list Detection -> bool)
    (images : list (list Detection)) (project : Analytics.Counters -> nat) :
  (forall c ds, project (Analytics.countImage c ds)
                = if keep ds then S (project c) else project c) ->
  forall c, project (fold_left Analytics.countImage images c)
            = (project c + List.length (List.filter keep images))%nat.
Proof.
  intros Hstep. induction images as [|ds images IH]; intros c; simpl; [lia|].
  rewrite IH, Hstep. destruct (keep ds); simpl; lia.
Qed.

End Pages.

(** X22.  The statistics of the Analytics page count images, not
    detections: each of the three label counts is the number of images with
    at least one detection of the label, the safe images are those that the
    Result page calls compliant, every image is counted as safe or unsafe
    but not both, and no count exceeds the number of images. *)
Theorem analytics_count_images (images : list (list Detection)) :
  let stats := Analytics.fetchAnalytics images in
  Analytics.helmetDetections stats = List.length (List.filter (someLabel helmet) images)
  /\ Analytics.vestDetections stats = List.length (List.filter (someLabel vest) images)
  /\ Analytics.personDetections stats = List.length (List.filter (someLabel person) images)
  /\ Analytics.safeImages stats = List.length (List.filter Result.safetyCompliant images)
  /\ (Analytics.safeImages stats + Analytics.unsafeImages stats
      = Analytics.totalImages stats)%nat
  /\ (Analytics.safeImages stats <= Analytics.helmetDetections stats)%nat
  /\ (Analytics.safeImages stats <= Analytics.vestDetections stats)%nat
  /\ (Analytics.helmetDetections stats + Analytics.vestDetections stats
      <= Analytics.totalImages stats + Analytics.safeImages stats)%nat
  /\ (Analytics.personDetections stats <= Analytics.totalImages stats)%nat.
Proof.
  cbv zeta. unfold Analytics.fetchAnalytics. cbv zeta.
  cbn [Analytics.helmetDetections Analytics.vestDetections Analytics.personDetections
       Analytics.safeImages Analytics.unsafeImages Analytics.totalImages].
  rewrite (counter_counts (someLabel helmet) images Analytics.helmetCount)
    by reflexivity.
  rewrite (counter_counts (someLabel vest) images Analytics.vestCount)
    by reflexivity.
  rewrite (counter_counts (someLabel person) images Analytics.personCount)
    by reflexivity.
  rewrite (counter_counts Result.safetyCompliant images Analytics.safeCount)
    by reflexivity.
  rewrite (counter_counts (fun ds => negb (Result.safetyCompliant ds)) images
             Analytics.unsafeCount)
    by (intros c ds; unfold Analytics.countImage, Result.safetyCompliant; cbv zeta;
        cbn [Analytics.unsafeCount];
        destruct (someLabel helmet ds && someLabel vest ds); reflexivity).
  cbn [Analytics.helmetCount Analytics.vestCount Analytics.personCount
       Analytics.safeCount Analytics.unsafeCount Nat.add].
  pose proof (List.filter_length_le (someLabel person) images) as Hp.
  unfold Result.safetyCompliant.
  induction images as [|ds images IH]; [simpl; lia|].
  cbn [List.filter List.length] in *.
  destruct (someLabel helmet ds); destruct (someLabel vest ds);
    destruct (someLabel person ds); cbn [andb negb List.length] in *;
    pose proof (List.filter_length_le (someLabel person) images); lia.
Qed.

(** X23.  On an image of positive size the Result page draws the box of a
    detection in the unit range inside the canvas (up to a thousandth of the
    image size at the right and bottom edges); the label background starts
    on the canvas, at or above the top of the box, and the text baseline
    lies 20 or 25 pixels below the top of the background. *)
Theorem overlay_stays_on_canvas (imgWidth imgHeight : Z) (detection : Detection) :
  (0 < imgWidth)%Z -> (0 < imgHeight)%Z -> inUnitRange detection ->
  let drawing := Result.drawDetection imgWidth imgHeight detection in
  let rect := Result.strokeRect drawing in
  (0 <= bbox_x rect /\ 0 <= bbox_width rect
   /\ bbox_x rect + bbox_width rect <= 1.001 * imgWidth)
  /\ (0 <= bbox_y rect /\ 0 <= bbox_height rect
      /\ bbox_y rect + bbox_height rect <= 1.001 * imgHeight)
  /\ (0 <= Result.labelBgY drawing /\ Result.labelBgY drawing <= bbox_y rect)
  /\ (Result.labelY drawing == Result.labelBgY drawing + 20
      \/ Result.labelY drawing == Result.labelBgY drawing + 25).
Proof.
  intros Hw Hh ((Hc0 & Hc1) & (Hx0 & Hx1) & (Hy0 & Hy1) & (Hw0 & Hw1) & (Hh0 & Hh1) & Hxw & Hyh).
  cbv zeta. unfold Result.drawDetection. cbv zeta.
  cbn [Result.strokeRect Result.labelBgY Result.labelY bbox_x bbox_y bbox_width bbox_height].
  assert (HW : 0 < inject_Z imgWidth) by (unfold Qlt; simpl; lia).
  assert (HH : 0 < inject_Z imgHeight) by (unfold Qlt; simpl; lia).
  split; [repeat split; nra|]. split; [repeat split; nra|].
  destruct (Js.ltb 25 (bbox_y (bbox detection) * imgHeight)) eqn:E.
  - apply ltb_spec in E. split; [split; lra|]. left. ring.
  - split; [split; nra|]. right. ring.
Qed.

(** X23, witness: a helmet box on an 800 x 600 image. *)
Lemma overlay_stays_on_canvas_witness :
  bbox_x (Result.strokeRect (Result.drawDetection 800 600 Sample.middle))
  + bbox_width (Result.strokeRect (Result.drawDetection 800 600 Sample.middle))
  <= 1.001 * 800%Z.
Proof.
  assert (Hunit : inUnitRange Sample.middle)
    by (unfold inUnitRange; repeat split; apply Qle_bool_imp_le; reflexivity).
  pose proof (overlay_stays_on_canvas 800 600 Sample.middle ltac:(lia) ltac:(lia) Hunit) as H.
  cbv zeta in H. destruct H as ((_ & _ & H) & _). exact H.
Defined.

(** ** The upload handler *)

Section Uploads.

Lemma find_app_none {A : Type} (f : A -> bool) (l : list A) (a : A) :
  List.find f l = None -> f a = true -> List.find f (l ++ [a]) = Some a.
Proof.
  induction l as [|b l IH]; intros Hn Ha; simpl in *; [rewrite Ha; reflexivity|].
  destruct (f b); [discriminate|]. apply IH; assumption.
Qed.

Lemma filter_none {A : Type} (f : A -> bool) (l : list A) :
  Forall (fun a => f a = false) l -> List.filter f l = [].
Proof.
  induction 1 as [|a l Ha _ IH]; simpl; [reflexivity|]. rewrite Ha. exact IH.
Qed.

Lemma filter_all {A : Type} (f : A -> bool) (l : list A) :
  Forall (fun a => f a = true) l -> List.filter f l = l.
Proof.
  induction 1 as [|a l Ha _ IH]; simpl; [reflexivity|]. rewrite Ha, IH. reflexivity.
Qed.

(** The rows that the handler inserts for the detections of an image. *)
Lemma inserted_rows_of (imageId : string) (detected : list Detection)
    (rows : list Upload.DetectionRow) :
  Forall (fun row => Upload.row_image_id row <> imageId) rows ->
  List.filter (fun row => bool_decide (Upload.row_image_id row = imageId))
    (rows ++ List.map (fun detection =>
                         Upload.mkDetectionRow imageId (label detection)
                           (confidence detection) (bbox detection)) detected)
  = List.map (fun detection =>
                Upload.mkDetectionRow imageId (label detection)
                  (confidence detection) (bbox detection)) detected.
Proof.
  intros Hfresh. rewrite List.filter_app, filter_none, filter_all; [reflexivity| |].
  - apply List.Forall_forall. intros row Hrow. apply in_map_iff in Hrow as (d & <- & _).
    apply bool_decide_eq_true. reflexivity.
  - eapply List.Forall_impl; [|exact Hfresh].
    intros row Hrow. apply bool_decide_eq_false. exact Hrow.
Qed.

End Uploads.

Section StoredUploads.


Lemma stored_hash (imageId : string) (detected : list Detection) :
  Current.generateDetectionHash
    (List.map storedDetection
       (List.map (fun detection =>
                    Upload.mkDetectionRow imageId (label detection)
                      (confidence detection) (bbox detection)) detected))
  = Current.generateDetectionHash detected.
Proof.
  unfold Current.generateDetectionHash. rewrite !List.map_map. reflexivity.
Qed.

Lemma givenKey_some (upload : option Upload.File) (k : string) :
  k <> EmptyString -> Upload.givenKey (Upload.mkRequest upload (Some k)) = Some k.
Proof. intros Hk. destruct k; [contradiction|reflexivity]. Qed.

(** The outcome of a request that stores a new image. *)
Lemma post_stores (world : Upload.World) (store : Upload.Store) (request : Upload.Request)
    (id name hash : string) (reported : list Upload.Reported) (message : string)
    (store1 : Upload.Store) (unlinked : option string) :
  Upload.post world store request
    = (Upload.Answer 201 id name hash reported message, store1, unlinked) ->
  exists upload,
    Upload.file request = Some upload
    /\ match Upload.givenKey request with
       | Some key => Upload.imageByKey store key
       | None => None
       end = None
    /\ Upload.imageByFileHash store (Upload.generateFileHash world (Upload.filepath upload))
       = None
    /\ id = Upload.uuid world /\ name = Upload.filename upload
    /\ hash = Current.generateDetectionHash
                (Current.detectPPE (Upload.source world) (Upload.filepath upload))
    /\ reported = List.map Upload.reportDetection
                    (Current.detectPPE (Upload.source world) (Upload.filepath upload))
    /\ store1
       = Upload.mkStore
           (Upload.images store
            ++ [Upload.mkImageRow (Upload.uuid world) (Upload.filename upload)
                  (Upload.filepath upload)
                  (Current.generateDetectionHash
                     (Current.detectPPE (Upload.source world) (Upload.filepath upload)))
                  (Upload.generateFileHash world (Upload.filepath upload))
                  (Upload.idempotencyKey request)])
           (Upload.detections store
            ++ List.map (fun detection =>
                           Upload.mkDetectionRow (Upload.uuid world) (label detection)
                             (confidence detection) (bbox detection))
                 (Current.detectPPE (Upload.source world) (Upload.filepath upload))).
Proof.
  unfold Upload.post. destruct (Upload.file request) as [upload|]; [|discriminate].
  cbv zeta.
  destruct (match Upload.givenKey request with
            | Some key => Upload.imageByKey store key
            | None => None
            end) as [existing|]; [unfold Upload.existingAnswer; discriminate|].
  destruct (Upload.imageByFileHash store _) as [existing|] eqn:Ehash;
    [unfold Upload.existingAnswer; discriminate|].
  intros H. injection H as <- <- <- <- _ <- _.
  exists upload. repeat split; reflexivity || assumption.
Qed.

End StoredUploads.

(** X24.  Once the upload handler has stored an image (status 201), a
    later upload of a file with the same bytes and no idempotency key, and
    a later upload of any file under the idempotency key of the first
    request, are answered with status 200 and the stored identifier, file
    name, detection hash and detections; the tables stay as they are and
    the new copy of the file is deleted. *)
Theorem stored_upload_is_replayed (world : Upload.World) (store : Upload.Store)
    (upload : Upload.File) (key : option string)
    (id name hash : string) (reported : list Upload.Reported) (message : string)
    (store1 : Upload.Store) (unlinked : option string) :
  Upload.post world store (Upload.mkRequest (Some upload) key)
    = (Upload.Answer 201 id name hash reported message, store1, unlinked) ->
  Forall (fun row => Upload.row_image_id row <> id) (Upload.detections store) ->
  forall (world' : Upload.World) (upload' : Upload.File),
    (Upload.readFile world' (Upload.filepath upload')
       = Upload.readFile world (Upload.filepath upload) ->
     Upload.post world' store1 (Upload.mkRequest (Some upload') None)
     = (Upload.Answer 200 id name hash reported
          "Duplicate file detected, returning existing results",
        store1, Some (Upload.filepath upload')))
    /\ (forall k, key = Some k -> k <> EmptyString ->
        Upload.post world' store1 (Upload.mkRequest (Some upload') (Some k))
        = (Upload.Answer 200 id name hash reported
             "Idempotent request - returning existing results",
           store1, Some (Upload.filepath upload'))).
Proof.
  intros Hpost Hfresh world' upload'.
  apply post_stores in Hpost
    as (upload0 & Hfile & Hkey & Hhash & -> & -> & -> & -> & ->).
  cbn [Upload.file] in Hfile. injection Hfile as <-.
  assert (Hrows :
    List.map Upload.reportRow
      (Upload.detectionsOf
         (Upload.mkStore
            (Upload.images store
             ++ [Upload.mkImageRow (Upload.uuid world) (Upload.filename upload)
                   (Upload.filepath upload)
                   (Current.generateDetectionHash
                      (Current.detectPPE (Upload.source world) (Upload.filepath upload)))
                   (Upload.generateFileHash world (Upload.filepath upload)) key])
            (Upload.detections store
             ++ List.map (fun detection =>
                            Upload.mkDetectionRow (Upload.uuid world) (label detection)
                              (confidence detection) (bbox detection))
                  (Current.detectPPE (Upload.source world) (Upload.filepath upload))))
         (Upload.uuid world))
    = List.map Upload.reportDetection
        (Current.detectPPE (Upload.source world) (Upload.filepath upload))).
  { unfold Upload.detectionsOf. cbn [Upload.detections].
    rewrite inserted_rows_of by exact Hfresh. rewrite List.map_map. reflexivity. }
  split.
  - intros Hbytes. unfold Upload.post. cbn [Upload.file Upload.givenKey Upload.idempotencyKey].
    cbv zeta.
    assert (Hsame : Upload.generateFileHash world' (Upload.filepath upload')
                    = Upload.generateFileHash world (Upload.filepath upload))
      by (unfold Upload.generateFileHash; rewrite Hbytes; reflexivity).
    rewrite Hsame. unfold Upload.imageByFileHash at 1. cbn [Upload.images].
    rewrite (find_app_none _ _ _ Hhash)
      by (apply bool_decide_eq_true; reflexivity).
    unfold Upload.existingAnswer.
    cbn [Upload.row_id Upload.row_filename Upload.row_detections_hash].
    rewrite Hrows. reflexivity.
  - intros k -> Hk. unfold Upload.post. cbn [Upload.file Upload.idempotencyKey] in *.
    cbv zeta.
    rewrite givenKey_some in Hkey |- * by exact Hk.
    unfold Upload.imageByKey at 1. cbn [Upload.images].
    rewrite (find_app_none _ _ _ Hkey)
      by (apply bool_decide_eq_true; reflexivity).
    unfold Upload.existingAnswer.
    cbn [Upload.row_id Upload.row_filename Upload.row_detections_hash].
    rewrite Hrows. reflexivity.
Qed.

(** X24, witness: the second upload of the same bytes to a server that
    stored the first. *)
Lemma stored_upload_is_replayed_witness :
  fst (fst (Upload.post Visit.world Visit.stored
              (Upload.mkRequest (Some Visit.again) None)))
  = Upload.Answer 200 "image-1" "a.jpg" "d751713988987e9331980363e24189ce" []
      "Duplicate file detected, returning existing results".
Proof.
  pose proof (stored_upload_is_replayed Visit.world Visit.empty
                (Upload.mkFile "a.jpg" "uploads/a.jpg") (Some "key-1"%string)
                "image-1" "a.jpg" "d751713988987e9331980363e24189ce" []
                "Image uploaded and processed successfully" Visit.stored None
                ltac:(vm_compute; reflexivity) ltac:(constructor)
                Visit.world Visit.again) as [H _].
  rewrite (H ltac:(reflexivity)). reflexivity.
Defined.

Section ConsistentTables.

Lemma post_cases (world : Upload.World) (store : Upload.Store) (request : Upload.Request) :
  snd (fst (Upload.post world store request)) = store
  \/ exists upload,
       Upload.imageByFileHash store (Upload.generateFileHash world (Upload.filepath upload))
         = None
       /\ snd (fst (Upload.post world store request))
          = Upload.mkStore
              (Upload.images store
               ++ [Upload.mkImageRow (Upload.uuid world) (Upload.filename upload)
                     (Upload.filepath upload)
                     (Current.generateDetectionHash
                        (Current.detectPPE (Upload.source world) (Upload.filepath upload)))
                     (Upload.generateFileHash world (Upload.filepath upload))
                     (Upload.idempotencyKey request)])
              (Upload.detections store
               ++ List.map (fun detection =>
                              Upload.mkDetectionRow (Upload.uuid world) (label detection)
                                (confidence detection) (bbox detection))
                    (Current.detectPPE (Upload.source world) (Upload.filepath upload))).
Proof.
  unfold Upload.post. destruct (Upload.file request) as [upload|]; [|left; reflexivity].
  cbv zeta.
  destruct (match Upload.givenKey request with
            | Some key => Upload.imageByKey store key
            | None => None
            end) as [existing|]; [left; reflexivity|].
  destruct (Upload.imageByFileHash store _) as [existing|] eqn:Ehash; [left; reflexivity|].
  right. exists upload. split; [exact Ehash|reflexivity].
Qed.

Lemma detectionsOf_other (rows extra : list Upload.DetectionRow) (imageId : string) :
  Forall (fun row => Upload.row_image_id row <> imageId) extra ->
  List.filter (fun row => bool_decide (Upload.row_image_id row = imageId)) (rows ++ extra)
  = List.filter (fun row => bool_decide (Upload.row_image_id row = imageId)) rows.
Proof.
  intros H. rewrite List.filter_app, (filter_none _ extra), app_nil_r; [reflexivity|].
  eapply List.Forall_impl; [|exact H].
  intros row Hrow. apply bool_decide_eq_false. exact Hrow.
Qed.

End ConsistentTables.

(** X25.  The upload handler keeps its tables consistent: if image
    identifiers and file hashes are unique, every detection row belongs to
    an image row and every stored detection hash is the hash of the stored
    detections, then the same holds after any request that is given a fresh
    identifier.  A request removes no image row and adds at most one. *)
Theorem uploads_keep_tables_consistent (world : Upload.World) (store : Upload.Store)
    (request : Upload.Request) :
  consistent store ->
  ~ In (Upload.uuid world) (List.map Upload.row_id (Upload.images store)) ->
  consistent (snd (fst (Upload.post world store request)))
  /\ (exists added,
        Upload.images (snd (fst (Upload.post world store request)))
        = Upload.images store ++ added
        /\ (List.length added <= 1)%nat).
Proof.
  intros (Hids & Hhashes & Hrows & Hstored) Hfresh.
  destruct (post_cases world store request) as [->|(upload & Hnone & ->)].
  { split; [repeat split; assumption|]. exists []. rewrite app_nil_r. split; [reflexivity|].
    simpl. lia. }
  split; [|eexists; split; [reflexivity|simpl; lia]].
  set (detected := Current.detectPPE (Upload.source world) (Upload.filepath upload)).
  assert (Hold : Forall (fun row => Upload.row_image_id row <> Upload.uuid world)
                   (Upload.detections store)).
  { eapply List.Forall_impl; [|exact Hrows].
    intros row Hin E. apply Hfresh. rewrite <- E. exact Hin. }
  unfold consistent. cbn [Upload.images Upload.detections].
  rewrite !List.map_app. cbn [List.map Upload.row_id Upload.row_file_hash].
  split; [|split; [|split]].
  - apply NoDup_app. split; [exact Hids|]. split; [|apply NoDup_singleton].
    intros x Hx Hx'. apply list_elem_of_singleton in Hx'. subst x.
    apply Hfresh, list_elem_of_In, Hx.
  - apply NoDup_app. split; [exact Hhashes|]. split; [|apply NoDup_singleton].
    intros x Hx Hx'. apply list_elem_of_singleton in Hx'. subst x.
    apply list_elem_of_In, in_map_iff in Hx as (row & Hrow & Hin).
    unfold Upload.imageByFileHash in Hnone.
    pose proof (List.find_none _ _ Hnone row Hin) as Hf.
    apply bool_decide_eq_false in Hf. contradiction.
  - apply List.Forall_app. split.
    + eapply List.Forall_impl; [|exact Hrows].
      intros row Hin. apply in_or_app. left. exact Hin.
    + apply List.Forall_forall. intros row Hrow.
      apply in_map_iff in Hrow as (d & <- & _).
      apply in_or_app. right. left. reflexivity.
  - apply List.Forall_app. split.
    + rewrite List.Forall_forall in Hstored. apply List.Forall_forall. intros image Himage.
      rewrite (Hstored image Himage). unfold Upload.detectionsOf. cbn [Upload.detections].
      rewrite detectionsOf_other; [reflexivity|].
      apply List.Forall_forall. intros row Hrow.
      apply in_map_iff in Hrow as (d & <- & _). cbn [Upload.row_image_id].
      intros E. apply Hfresh. rewrite E. apply in_map, Himage.
    + constructor; [|constructor].
      cbn [Upload.row_detections_hash Upload.row_id]. unfold Upload.detectionsOf.
      cbn [Upload.detections]. rewrite inserted_rows_of by exact Hold.
      symmetry. apply stored_hash.
Qed.

(** X25, witness: the first upload to an empty server. *)
Lemma uploads_keep_tables_consistent_witness : consistent Visit.stored.
Proof.
  apply (uploads_keep_tables_consistent Visit.world Visit.empty Visit.first).
  - unfold consistent. simpl. repeat split; constructor.
  - simpl. tauto.
Defined.

(** ** The size of a window *)

Section Windows.

Lemma flat_map_length_le {A B : Type} (f : A -> list B) (k : nat) (l : list A) :
  (forall a, In a l -> (List.length (f a) <= k)%nat) ->
  (List.length (flat_map f l) <= List.length l * k)%nat.
Proof.
  induction l as [|a l IH]; intros H; simpl; [lia|].
  rewrite List.length_app.
  pose proof (H a (or_introl eq_refl)).
  assert (List.length (flat_map f l) <= List.length l * k)%nat
    by (apply IH; intros b Hb; apply H; right; exact Hb).
  lia.
Qed.

Lemma flat_map_length_eq {A B : Type} (f : A -> list B) (k : nat) (l : list A) :
  (forall a, In a l -> List.length (f a) = k) ->
  List.length (flat_map f l) = (List.length l * k)%nat.
Proof.
  induction l as [|a l IH]; intros H; simpl; [reflexivity|].
  rewrite List.length_app, (H a (or_introl eq_refl)), IH; [reflexivity|].
  intros b Hb. apply H. right. exact Hb.
Qed.

End Windows.

(** X27.  A window handed to a scorer of [detection.js] holds at most one
    pixel for every position of the window that lies in the image; it holds
    exactly one for each of them when the byte array holds four bytes for
    every pixel of the image. *)
Theorem window_pixel_count (data : list Z) (width height x y w h : Z) :
  (0 <= x)%Z -> (0 <= y)%Z ->
  let columns := Z.to_nat (Z.min (x + w) width - x) in
  let rows := Z.to_nat (Z.min (y + h) height - y) in
  (List.length (Current.extractImageRegion data width height x y w h) <= rows * columns)%nat
  /\ (Z.of_nat (List.length data) = (4 * width * height)%Z ->
      List.length (Current.extractImageRegion data width height x y w h)
      = (rows * columns)%nat).
Proof.
  intros Hx Hy. cbv zeta. unfold Current.extractImageRegion. cbv zeta. split.
  - rewrite <- (forRange_unit_length y), <- (forRange_unit_length x).
    apply flat_map_length_le. intros py _.
    replace (List.length (Js.forRange x (Z.min (x + w) width) 1))
      with (List.length (Js.forRange x (Z.min (x + w) width) 1) * 1)%nat by lia.
    apply flat_map_length_le. intros px _.
    destruct (_ <? _)%Z; simpl; lia.
  - intros Hlen.
    rewrite <- (forRange_unit_length y), <- (forRange_unit_length x).
    apply flat_map_length_eq. intros py Hpy. apply forRange_bounds in Hpy; [|lia].
    replace (List.length (Js.forRange x (Z.min (x + w) width) 1))
      with (List.length (Js.forRange x (Z.min (x + w) width) 1) * 1)%nat by lia.
    apply flat_map_length_eq. intros px Hpx. apply forRange_bounds in Hpx; [|lia].
    assert (Hin : ((py * width + px) * 4 + 3 <? Z.of_nat (List.length data))%Z = true).
    { apply Z.ltb_lt. rewrite Hlen. nia. }
    rewrite Hin. reflexivity.
Qed.

(** X27, witness: the 32 x 32 window at the corner of the 129 x 65 wall. *)
Lemma window_pixel_count_witness :
  (List.length (Current.extractImageRegion Sample.wall 129 65 0 0 32 32) <= 32 * 32)%nat.
Proof.
  apply (window_pixel_count Sample.wall 129 65 0 0 32 32); lia.
Defined.

(** ** Surfaces in a helmet colour *)

Section FlatSurfaces.

Lemma helmet_colours_are_lit (c : Rgb.t) :
  Current.matchHelmetColor c <> None -> (30 < Rgb.r c + Rgb.g c + Rgb.b c)%Z.
Proof.
  unfold Current.matchHelmetColor, Current.PPE_COLORS_helmet. cbn [List.find snd].
  assert (lit : forall range,
             (30 < fst (range_r range) + fst (range_g range) + fst (range_b range))%Z ->
             Current.isColorInRange c range = true ->
             (30 < Rgb.r c + Rgb.g c + Rgb.b c)%Z).
  { intros range Hmin H. unfold Current.isColorInRange in H.
    repeat (apply andb_true_iff in H; destruct H as [H ?]).
    repeat match goal with E : (_ <=? _)%Z = true |- _ => apply Z.leb_le in E end.
    lia. }
  repeat match goal with
  | |- context [if Current.isColorInRange c ?range then _ else _] =>
      let E := fresh "E" in
      destruct (Current.isColorInRange c range) eqn:E;
      [intros _; eapply lit; [|exact E]; simpl; lia|]
  end.
  intros H. exfalso. apply H. reflexivity.
Qed.

Lemma filter_length_map {A B : Type} (f : A -> B) (keep : B -> bool) (l : list A) :
  List.length (List.filter (fun a => keep (f a)) l)
  = List.length (List.filter keep (List.map f l)).
Proof.
  induction l as [|a l IH]; [reflexivity|]. cbn [List.map List.filter].
  destruct (keep (f a)); cbn [List.length]; rewrite IH; reflexivity.
Qed.

Lemma slice_map {A B : Type} (f : A -> B) (l : list A) (start stop : Z) :
  List.map f (Js.slice l start stop) = Js.slice (List.map f l) start stop.
Proof. unfold Js.slice. rewrite List.skipn_map, List.firstn_map. reflexivity. Qed.

(** [analyzeShape] reads of a pixel only whether it is dark. *)
Lemma analyzeShape_mask (ps qs : list Px.t) (blockSize : Z) :
  List.map (fun p => (30 <? Current.channelSum p)%Z) ps
  = List.map (fun p => (30 <? Current.channelSum p)%Z) qs ->
  Current.analyzeShape ps blockSize = Current.analyzeShape qs blockSize.
Proof.
  intros Hmask.
  assert (Hlen : List.length ps = List.length qs).
  { rewrite <- (List.length_map (fun p => (30 <? Current.channelSum p)%Z) ps), Hmask.
    apply List.length_map. }
  assert (Hfull : List.length (List.filter (fun p => (30 <? Current.channelSum p)%Z) ps)
                  = List.length (List.filter (fun p => (30 <? Current.channelSum p)%Z) qs)).
  { rewrite (filter_length_map (fun p => (30 <? Current.channelSum p)%Z) (fun b => b) ps).
    rewrite (filter_length_map (fun p => (30 <? Current.channelSum p)%Z) (fun b => b) qs).
    rewrite Hmask. reflexivity. }
  assert (Hcentre : forall start stop,
            List.length (List.filter (fun p => (30 <? Current.channelSum p)%Z)
                           (Js.slice ps start stop))
            = List.length (List.filter (fun p => (30 <? Current.channelSum p)%Z)
                             (Js.slice qs start stop))).
  { intros start stop.
    rewrite (filter_length_map (fun p => (30 <? Current.channelSum p)%Z) (fun b => b)
               (Js.slice ps start stop)).
    rewrite (filter_length_map (fun p => (30 <? Current.channelSum p)%Z) (fun b => b)
               (Js.slice qs start stop)).
    rewrite !slice_map, Hmask. reflexivity. }
  assert (Hslice : forall start stop,
            List.length (Js.slice ps start stop) = List.length (Js.slice qs start stop)).
  { intros start stop.
    rewrite <- (List.length_map (fun p => (30 <? Current.channelSum p)%Z)
                  (Js.slice ps start stop)).
    rewrite <- (List.length_map (fun p => (30 <? Current.channelSum p)%Z)
                  (Js.slice qs start stop)).
    rewrite !slice_map, Hmask. reflexivity. }
  unfold Current.analyzeShape. cbv zeta.
  rewrite Hlen, Hfull, Hcentre, Hslice. reflexivity.
Qed.

(** The 32 pixels wide lit windows of 2 to 32 rows pass the shape gates. *)
Lemma lit_windows_pass :
  forallb (fun rows =>
             let shape := Current.analyzeShape
                            (List.repeat (Px.mk 255 255 255 255) (rows * 32)) 32 in
             Double.ltb' (Double.ofQ 0.6) (Current.roundness shape)
             && Double.ltb' (Double.ofQ 0.6) (Current.uniformity shape))
          (seq 2 31) = true.
Proof. vm_compute. reflexivity. Qed.

(** The shape of a lit window of one colour. *)
Lemma shape_of_lit_surface (p : Px.t) (rows : nat) :
  (2 <= rows <= 32)%nat -> (30 < Current.channelSum p)%Z ->
  Double.ltb' (Double.ofQ 0.6)
              (Current.roundness (Current.analyzeShape (List.repeat p (rows * 32)) 32)) = true
  /\ Double.ltb' (Double.ofQ 0.6)
                 (Current.uniformity (Current.analyzeShape (List.repeat p (rows * 32)) 32))
     = true.
Proof.
  intros Hrows Hlit.
  rewrite (analyzeShape_mask (List.repeat p (rows * 32))
             (List.repeat (Px.mk 255 255 255 255) (rows * 32)) 32).
  - pose proof lit_windows_pass as Hpass.
    rewrite forallb_forall in Hpass. specialize (Hpass rows).
    cbv zeta in Hpass. apply andb_true_iff. apply Hpass.
    apply List.in_seq. lia.
  - rewrite !List.map_repeat. f_equal. apply Z.ltb_lt in Hlit. rewrite Hlit. reflexivity.
Qed.

End FlatSurfaces.

(** X28.  [detection.js] reports a helmet on every image of a single colour
    that lies in one of its helmet ranges, provided the image is more than
    32 pixels wide and at least 2 pixels high: a flat surface in a helmet
    colour passes the colour, shape and coverage tests of the helmet
    scorer. *)
Theorem flat_helmet_colour_is_reported (width height : Z) (p : Px.t) :
  (32 < width)%Z -> (2 <= height)%Z ->
  Current.matchHelmetColor (Rgb.mk (Px.r p) (Px.g p) (Px.b p)) <> None ->
  someLabel helmet
    (Current.detectFromPixels (Sample.uniformImage width height p) width height) = true.
Proof.
  intros Hw Hh Hcolour.
  unfold someLabel, Current.detectFromPixels. rewrite assembly_keeps_label.
  apply existsb_exists.
  set (scanned :=
    flat_map (fun y =>
      flat_map (fun x =>
        let region :=
          Current.extractImageRegion (Sample.uniformImage width height p) width height
            x y 32 32 in
        let helmetAnalysis := Current.analyzeHelmetRegion region 32 in
        if Current.isHelmet helmetAnalysis
           && Double.ltb' (Double.ofQ 0.7) (Current.helmetConfidence helmetAnalysis) then
          let refinedBounds :=
            Current.refineHelmetBounds (Sample.uniformImage width height p) width height
              x y 32 in
          [mkDetection helmet (Double.toQ (Current.helmetConfidence helmetAnalysis))
             (Current.helmetColor helmetAnalysis)
             (mkBBox (bbox_x refinedBounds / width) (bbox_y refinedBounds / height)
                     (bbox_width refinedBounds / width)
                     (bbox_height refinedBounds / height))]
        else [])
        (Js.forRange 0 (width - 32) 16))
      (Js.forRange 0 (Js.floor (height * 0.5)) 16)).
  assert (Hscan : Current.detectHelmets (Sample.uniformImage width height p) width height
                  = Current.mergeOverlappingDetections scanned 0.3) by reflexivity.
  assert (Hlabels : Forall (fun d => label d = helmet /\ 0.7 < confidence d) scanned).
  { apply List.Forall_forall. intros d Hd. unfold scanned in Hd.
    apply in_flat_map in Hd as (y & _ & Hd). apply in_flat_map in Hd as (x & _ & Hd).
    cbv zeta in Hd.
    destruct (Current.isHelmet _ && Double.ltb' (Double.ofQ 0.7) _) eqn:E; [|destruct Hd].
    destruct Hd as [<-|[]]. apply andb_true_iff in E as [E _].
    split; [reflexivity|apply accepted_helmet_confidence, E]. }
  assert (Hsome : scanned <> []).
  { assert (Hrange : forall stop, (0 < stop)%Z -> In 0%Z (Js.forRange 0 stop 16)).
    { intros stop Hstop. unfold Js.forRange.
      destruct (stop <=? 0)%Z eqn:E; [apply Z.leb_le in E; lia|].
      apply in_map_iff. exists 0%nat. split; [reflexivity|].
      apply List.in_seq. split; [lia|].
      assert (0 < (stop - 0 + 16 - 1) / 16)%Z by (apply Z.div_str_pos; lia). lia. }
    assert (Hfloor : (0 < Js.floor (height * 0.5))%Z).
    { unfold Js.floor. assert (H1 : (Qfloor 1 <= Qfloor (inject_Z height * 0.5))%Z).
      { apply Qfloor_resp_le.
        assert (2 <= inject_Z height)
          by (change 2 with (inject_Z 2); rewrite <- Zle_Qle; exact Hh). lra. }
      change (Qfloor 1) with 1%Z in H1. lia. }
    intros Hnil.
    assert (Hin : In (mkDetection helmet
                        (Double.toQ
                           (Current.helmetConfidence
                              (Current.analyzeHelmetRegion
                                 (Current.extractImageRegion
                                    (Sample.uniformImage width height p) width height
                                    0 0 32 32)
                                 32)))
                        (Current.helmetColor
                           (Current.analyzeHelmetRegion
                              (Current.extractImageRegion
                                 (Sample.uniformImage width height p) width height 0 0 32 32)
                              32))
                        (mkBBox
                           (bbox_x (Current.refineHelmetBounds
                                      (Sample.uniformImage width height p) width height 0 0 32)
                            / width)
                           (bbox_y (Current.refineHelmetBounds
                                      (Sample.uniformImage width height p) width height 0 0 32)
                            / height)
                           (bbox_width (Current.refineHelmetBounds
                                          (Sample.uniformImage width height p) width height
                                          0 0 32) / width)
                           (bbox_height (Current.refineHelmetBounds
                                           (Sample.uniformImage width height p) width height
                                           0 0 32) / height)))
                     scanned); [|rewrite Hnil in Hin; destruct Hin].
    unfold scanned. apply in_flat_map. exists 0%Z. split; [apply Hrange, Hfloor|].
    apply in_flat_map. exists 0%Z. split; [apply Hrange; lia|].
    cbv zeta.
    assert (Haccept :
      Current.isHelmet
        (Current.analyzeHelmetRegion
           (Current.extractImageRegion (Sample.uniformImage width height p) width height
              0 0 32 32) 32) = true).
    { rewrite extract_uniform by lia.
      replace (Z.to_nat (Z.min (0 + 32) height - 0) * Z.to_nat (Z.min (0 + 32) width - 0))%nat
        with (Z.to_nat (Z.min 32 height) * 32)%nat by lia.
      set (rows := Z.to_nat (Z.min 32 height)).
      assert (Hrows : (2 <= rows <= 32)%nat) by (unfold rows; lia).
      destruct (shape_of_lit_surface p rows Hrows) as [Hr Hc].
      { apply (helmet_colours_are_lit _ Hcolour). }
      destruct (rows * 32)%nat as [|m] eqn:En; [lia|].
      change (List.repeat p (S m)) with (p :: List.repeat p m) in *.
      apply helmet_window_sufficient; try assumption.
      change (p :: List.repeat p m) with (List.repeat p (S m)).
      rewrite dominant_of_uniform. exact Hcolour. }
    rewrite Haccept, (proj1 (accepted_helmet_confidence _ _ Haccept)). cbn [andb].
    left. reflexivity. }
  destruct scanned as [|first others] eqn:Escanned; [contradiction|].
  pose proof (merge_nonempty first others 0.3) as Hmerged.
  destruct (Current.mergeOverlappingDetections (first :: others) 0.3) as [|m ms] eqn:Em;
    [contradiction|].
  assert (Hm : In m (first :: others)).
  { apply (merge_In (first :: others) 0.3). rewrite Em. left. reflexivity. }
  rewrite List.Forall_forall in Hlabels. destruct (Hlabels m Hm) as [Hl Hc].
  exists m. split.
  - apply in_or_app. right. apply in_or_app. left. rewrite Hscan. left. reflexivity.
  - apply andb_true_iff. split; [apply bool_decide_eq_true, Hl|apply ltb_spec; lra].
Qed.

(** X28, witness: a safety-yellow image of 640 x 480 pixels. *)
Lemma flat_helmet_colour_is_reported_witness :
  someLabel helmet
    (Current.detectFromPixels (Sample.uniformImage 640 480 (Px.mk 250 220 30 255)) 640 480)
  = true.
Proof.
  apply flat_helmet_colour_is_reported; [lia|lia|discriminate].
Defined.

(** ** The loop of [analyzePattern] *)

Section PatternLoop.

Lemma rowsFrom_enough (turns more : nat) (pixels : list Px.t) (pixelsPerRow i : Double.t) :
  loopEnds turns (Double.ofZ (Z.of_nat (List.length pixels))) pixelsPerRow i = true ->
  Current.rowsFrom (turns + more) pixels pixelsPerRow i
  = Current.rowsFrom turns pixels pixelsPerRow i.
Proof.
  revert i. induction turns as [|turns IH]; intros i H.
  - cbn [loopEnds] in H. apply negb_true_iff in H.
    destruct more as [|more]; [reflexivity|].
    cbn [Nat.add Current.rowsFrom]. rewrite H. reflexivity.
  - cbn [loopEnds] in H. cbn [Nat.add Current.rowsFrom].
    destruct (Double.ltb' i _); [|reflexivity].
    cbv zeta. rewrite (IH _ H). reflexivity.
Qed.

Lemma loops_end :
  forallb (fun n => loopEnds n (Double.ofZ (Z.of_nat n))
                             (Double.sqrt' (Double.ofZ (Z.of_nat n))) (Double.ofZ 0))
          (seq 1 2304) = true.
Proof. vm_compute. reflexivity. Qed.

(** On a window of at most 48 x 48 pixels the rows of [analyzePattern] are
    all the rows of the loop: more turns add none. *)
Lemma patternRows_complete (pixels : list Px.t) (more : nat) :
  (List.length pixels <= 2304)%nat ->
  Current.rowsFrom (List.length pixels + more) pixels
    (Double.sqrt' (Double.ofZ (Z.of_nat (List.length pixels)))) (Double.ofZ 0)
  = Current.patternRows pixels.
Proof.
  intros Hn. unfold Current.patternRows.
  destruct pixels as [|p ps] eqn:E.
  - destruct more; reflexivity.
  - rewrite <- E in *. apply rowsFrom_enough.
    pose proof loops_end as Hl. rewrite forallb_forall in Hl.
    apply Hl. apply List.in_seq. subst pixels. cbn [List.length] in *. lia.
Qed.

End PatternLoop.

(** ** What the analysis reads *)

Section Colours.

Lemma bitIdentical_sameColours data1 data2 : bitIdentical data1 data2 -> sameColours data1 data2.
Proof.
  intros [Hlen Hbytes]. split; [exact Hlen|]. intros pixel channel _.
  destruct (Nat.lt_ge_cases (4 * pixel + channel) (List.length data1)) as [Hin|Hout].
  - apply Hbytes, Hin.
  - rewrite !nth_overflow by lia. reflexivity.
Qed.

Lemma map_of_colours {B : Type} (f : Px.t -> B) (g : Z * Z * Z -> B) (ps qs : list Px.t) :
  (forall p, f p = g (colourOf p)) ->
  List.map colourOf ps = List.map colourOf qs -> List.map f ps = List.map f qs.
Proof.
  intros Hf H.
  rewrite (List.map_ext f (fun p => g (colourOf p)) Hf ps).
  rewrite (List.map_ext f (fun p => g (colourOf p)) Hf qs).
  rewrite <- !(List.map_map colourOf g), H. reflexivity.
Qed.

Lemma totalOver_map (f : Px.t -> Z) (ps qs : list Px.t) :
  List.map f ps = List.map f qs -> Current.totalOver f ps = Current.totalOver f qs.
Proof.
  unfold Current.totalOver. generalize 0%Z. revert qs.
  induction ps as [|p ps IH]; intros [|q qs] acc H; try discriminate H; [reflexivity|].
  cbn [List.map] in H. injection H as Hp H. cbn [fold_left]. rewrite Hp. apply IH, H.
Qed.

Lemma sumOver_map (f : Px.t -> Double.t) (ps qs : list Px.t) :
  List.map f ps = List.map f qs -> Current.sumOver f ps = Current.sumOver f qs.
Proof.
  unfold Current.sumOver. generalize (Double.ofZ 0). revert qs.
  induction ps as [|p ps IH]; intros [|q qs] acc H; try discriminate H; [reflexivity|].
  cbn [List.map] in H. injection H as Hp H. cbn [fold_left]. rewrite Hp. apply IH, H.
Qed.

Lemma colours_length (ps qs : list Px.t) :
  List.map colourOf ps = List.map colourOf qs -> List.length ps = List.length qs.
Proof.
  intros H. rewrite <- (List.length_map colourOf ps), H. apply List.length_map.
Qed.

Lemma colours_slice (ps qs : list Px.t) (start stop : Z) :
  List.map colourOf ps = List.map colourOf qs ->
  List.map colourOf (Js.slice ps start stop) = List.map colourOf (Js.slice qs start stop).
Proof. intros H. rewrite !slice_map, H. reflexivity. Qed.

Lemma colours_filter (keep : Px.t -> bool) (g : Z * Z * Z -> bool) (ps qs : list Px.t) :
  (forall p, keep p = g (colourOf p)) ->
  List.map colourOf ps = List.map colourOf qs ->
  List.length (List.filter keep ps) = List.length (List.filter keep qs).
Proof.
  intros Hk H.
  rewrite (List.filter_ext keep (fun p => g (colourOf p)) Hk ps).
  rewrite (List.filter_ext keep (fun p => g (colourOf p)) Hk qs).
  rewrite !(filter_length_map colourOf g), H. reflexivity.
Qed.

Variables (ps qs : list Px.t) (blockSize : Z).
Hypothesis Hsame : List.map colourOf ps = List.map colourOf qs.

Lemma analyzeColors_colours : Current.analyzeColors ps = Current.analyzeColors qs.
Proof.
  pose proof (colours_length ps qs Hsame) as Hlen.
  pose proof (totalOver_map Px.r ps qs
                (map_of_colours Px.r (fun c => fst (fst c)) ps qs (fun p => eq_refl) Hsame))
    as Hr.
  pose proof (totalOver_map Px.g ps qs
                (map_of_colours Px.g (fun c => snd (fst c)) ps qs (fun p => eq_refl) Hsame))
    as Hg.
  pose proof (totalOver_map Px.b ps qs
                (map_of_colours Px.b (fun c => snd c) ps qs (fun p => eq_refl) Hsame))
    as Hb.
  pose proof (sumOver_map Current.pixelBrightness ps qs
                (map_of_colours Current.pixelBrightness
                   (fun c => Double.div' (Double.ofZ (fst (fst c) + snd (fst c) + snd c))
                                         (Double.ofZ 3))
                   ps qs (fun p => eq_refl) Hsame))
    as Hs.
  unfold Current.analyzeColors.
  destruct ps as [|p ps'], qs as [|q qs']; try discriminate Hlen; [reflexivity|].
  cbv zeta. rewrite Hr, Hg, Hb, Hs, Hlen. reflexivity.
Qed.

Lemma analyzeShape_colours :
  Current.analyzeShape ps blockSize = Current.analyzeShape qs blockSize.
Proof.
  apply analyzeShape_mask.
  apply (map_of_colours _ (fun c => (30 <? fst (fst c) + snd (fst c) + snd c)%Z));
    [reflexivity|exact Hsame].
Qed.

Lemma rowsFrom_colours turns pixelsPerRow i :
  Current.rowsFrom turns ps pixelsPerRow i = Current.rowsFrom turns qs pixelsPerRow i.
Proof.
  pose proof (colours_length ps qs Hsame) as Hlen.
  revert i. induction turns as [|turns IH]; intros i; [reflexivity|].
  cbn [Current.rowsFrom]. rewrite Hlen.
  destruct (Double.ltb' i _); [|reflexivity].
  cbv zeta. rewrite IH. f_equal.
  pose proof (colours_slice ps qs (Double.floor' i)
                (Double.floor' (Double.add' i pixelsPerRow)) Hsame) as Hrow.
  rewrite (colours_length _ _ Hrow). f_equal.
  apply sumOver_map.
  apply (map_of_colours Current.pixelBrightness
           (fun c => Double.div' (Double.ofZ (fst (fst c) + snd (fst c) + snd c))
                                 (Double.ofZ 3)));
    [reflexivity|exact Hrow].
Qed.

Lemma analyzePattern_colours :
  Current.analyzePattern ps blockSize = Current.analyzePattern qs blockSize.
Proof.
  unfold Current.analyzePattern, Current.patternRows.
  rewrite rowsFrom_colours, (colours_length ps qs Hsame). reflexivity.
Qed.

Lemma analyzeHelmetRegion_colours :
  Current.analyzeHelmetRegion ps blockSize = Current.analyzeHelmetRegion qs blockSize.
Proof.
  pose proof (colours_length ps qs Hsame) as Hlen.
  pose proof analyzeColors_colours as Hc. pose proof analyzeShape_colours as Hs.
  unfold Current.analyzeHelmetRegion.
  destruct ps as [|p ps'], qs as [|q qs']; try discriminate Hlen; [reflexivity|].
  rewrite Hc, Hs. reflexivity.
Qed.

Lemma analyzeVestRegion_colours :
  Current.analyzeVestRegion ps blockSize = Current.analyzeVestRegion qs blockSize.
Proof.
  pose proof (colours_length ps qs Hsame) as Hlen.
  pose proof analyzeColors_colours as Hc. pose proof analyzePattern_colours as Hp.
  unfold Current.analyzeVestRegion.
  destruct ps as [|p ps'], qs as [|q qs']; try discriminate Hlen; [reflexivity|].
  rewrite Hc, Hp. reflexivity.
Qed.

Lemma analyzeSkinTone_colours : Current.analyzeSkinTone ps = Current.analyzeSkinTone qs.
Proof.
  pose proof (colours_length ps qs Hsame) as Hlen.
  pose proof (colours_filter Current.isSkinPixel
                (fun c => let '(r, g, b) := c in
                          (95 <? r)%Z && (40 <? g)%Z && (20 <? b)%Z
                          && (g <? r)%Z && (b <? r)%Z && (15 <? r - g)%Z)
                ps qs (fun p => eq_refl) Hsame) as Hskin.
  unfold Current.analyzeSkinTone.
  destruct ps as [|p ps'], qs as [|q qs']; try discriminate Hlen; [reflexivity|].
  cbv zeta. rewrite Hskin, Hlen. reflexivity.
Qed.

Lemma analyzeUniformity_colours : Current.analyzeUniformity ps = Current.analyzeUniformity qs.
Proof.
  pose proof (colours_length ps qs Hsame) as Hlen.
  pose proof analyzeColors_colours as Hc.
  unfold Current.analyzeUniformity.
  destruct ps as [|p ps'], qs as [|q qs']; try discriminate Hlen; [reflexivity|].
  cbv zeta. rewrite Hc, Hlen.
  set (avg := Current.dominant (Current.analyzeColors (q :: qs'))).
  rewrite (totalOver_map _ (p :: ps') (q :: qs')); [reflexivity|].
  apply (map_of_colours _
           (fun c => (Z.abs (fst (fst c) - Rgb.r avg) + Z.abs (snd (fst c) - Rgb.g avg)
                      + Z.abs (snd c - Rgb.b avg))%Z));
    [reflexivity|exact Hsame].
Qed.

End Colours.

Section ColourFrame.

Variables (data1 data2 : list Z) (width height : Z).
Hypothesis Hsame : sameColours data1 data2.

Lemma colour_bytes (t : Z) (channel : Z) :
  (0 <= channel < 3)%Z ->
  Js.byteAt data1 (t * 4 + channel) = Js.byteAt data2 (t * 4 + channel).
Proof.
  intros Hc. destruct Hsame as [_ Hbytes]. unfold Js.byteAt.
  destruct (Z_le_gt_dec 0 t) as [Ht|Ht].
  - replace (Z.to_nat (t * 4 + channel)) with (4 * Z.to_nat t + Z.to_nat channel)%nat by lia.
    apply Hbytes. lia.
  - replace (Z.to_nat (t * 4 + channel)) with (4 * 0 + 0)%nat by lia.
    apply Hbytes. lia.
Qed.

Lemma map_flat_map_ext {A B C : Type} (f : B -> C) (g1 g2 : A -> list B) (l : list A) :
  (forall a, List.map f (g1 a) = List.map f (g2 a)) ->
  List.map f (flat_map g1 l) = List.map f (flat_map g2 l).
Proof.
  intros H. induction l as [|a l IH]; [reflexivity|].
  cbn [flat_map]. rewrite !List.map_app, H, IH. reflexivity.
Qed.

Lemma extractImageRegion_colours (x y w h : Z) :
  List.map colourOf (Current.extractImageRegion data1 width height x y w h)
  = List.map colourOf (Current.extractImageRegion data2 width height x y w h).
Proof.
  unfold Current.extractImageRegion. cbv zeta.
  apply map_flat_map_ext. intros py. apply map_flat_map_ext. intros px.
  destruct Hsame as [Hlen _]. rewrite Hlen.
  destruct (_ <? _)%Z; [|reflexivity].
  cbn [List.map]. unfold colourOf. cbn [Px.r Px.g Px.b].
  pose proof (colour_bytes (py * width + px) 0 ltac:(lia)) as H0.
  rewrite Z.add_0_r in H0.
  rewrite H0, (colour_bytes (py * width + px) 1), (colour_bytes (py * width + px) 2) by lia.
  reflexivity.
Qed.

Lemma detectPerson_colours :
  Current.detectPerson data1 width height = Current.detectPerson data2 width height.
Proof.
  unfold Current.detectPerson, Current.findPersonRegions. cbv zeta. f_equal.
  apply List.flat_map_ext. intros y. apply List.flat_map_ext. intros x.
  rewrite (analyzeSkinTone_colours _ _ (extractImageRegion_colours x y 64 64)). reflexivity.
Qed.

Lemma detectHelmets_colours :
  Current.detectHelmets data1 width height = Current.detectHelmets data2 width height.
Proof.
  unfold Current.detectHelmets. cbv zeta. f_equal.
  apply List.flat_map_ext. intros y. apply List.flat_map_ext. intros x.
  rewrite (analyzeHelmetRegion_colours _ _ 32 (extractImageRegion_colours x y 32 32)).
  reflexivity.
Qed.

Lemma detectVests_colours :
  Current.detectVests data1 width height = Current.detectVests data2 width height.
Proof.
  unfold Current.detectVests. cbv zeta. f_equal.
  apply List.flat_map_ext. intros y. apply List.flat_map_ext. intros x.
  rewrite (analyzeVestRegion_colours _ _ 48 (extractImageRegion_colours x y 48 48)).
  reflexivity.
Qed.

Lemma detectFullPPE_colours :
  Current.detectFullPPE data1 width height = Current.detectFullPPE data2 width height.
Proof.
  unfold Current.detectFullPPE, Current.findFullBodyPPE. cbv zeta. f_equal.
  apply List.flat_map_ext. intros y. apply List.flat_map_ext. intros x.
  rewrite (analyzeUniformity_colours _ _ (extractImageRegion_colours x y 96 96)).
  reflexivity.
Qed.

Lemma detectFromPixels_colours :
  Current.detectFromPixels data1 width height = Current.detectFromPixels data2 width height.
Proof.
  unfold Current.detectFromPixels.
  rewrite detectPerson_colours, detectHelmets_colours, detectVests_colours,
    detectFullPPE_colours. reflexivity.
Qed.

End ColourFrame.

(** C6.  The analysis is a function of the image dimensions and of the
    colour bytes of the pixel buffer; it reads neither the name of the file,
    nor anything else of the decoder, nor the alpha bytes.  So two runs,
    through any two decoders and on any two files, whose buffers are
    bit-identical (or just agree on every red, green and blue byte) for the
    same dimensions return the same analysis: the same detections, element
    for element, and the same hash. *)
Theorem analysis_is_deterministic (source1 source2 : PixelSource)
    (imagePath1 imagePath2 : string) (width height : Z) (data1 data2 : list Z) :
  getImageInfo source1 imagePath1 = Some (width, height) ->
  getImageInfo source2 imagePath2 = Some (width, height) ->
  getImageData source1 imagePath1 width height = Some data1 ->
  getImageData source2 imagePath2 width height = Some data2 ->
  bitIdentical data1 data2 \/ sameColours data1 data2 ->
  Current.detectFromPixels data1 width height = Current.detectFromPixels data2 width height
  /\ Current.analyzeImageForPPE source1 imagePath1
     = Current.analyzeImageForPPE source2 imagePath2
  /\ Current.detectPPE source1 imagePath1 = Current.detectPPE source2 imagePath2
  /\ Current.generateDetectionHash (Current.detectPPE source1 imagePath1)
     = Current.generateDetectionHash (Current.detectPPE source2 imagePath2).
Proof.
  intros Hinfo1 Hinfo2 Hdata1 Hdata2 Hsame.
  assert (Hcolours : sameColours data1 data2).
  { destruct Hsame as [H|H]; [apply bitIdentical_sameColours, H|exact H]. }
  pose proof (detectFromPixels_colours data1 data2 width height Hcolours) as Hd.
  assert (Ha : Current.analyzeImageForPPE source1 imagePath1
               = Current.analyzeImageForPPE source2 imagePath2).
  { unfold Current.analyzeImageForPPE, Current.detectPPEObjects.
    rewrite Hinfo1, Hinfo2, Hdata1, Hdata2, Hd. reflexivity. }
  split; [exact Hd|]. split; [exact Ha|].
  unfold Current.detectPPE. rewrite Ha. split; reflexivity.
Qed.

(** The statement above on two 1 x 1 images that differ in the alpha byte
    and in the file name. *)
Lemma analysis_is_deterministic_witness :
  Current.detectPPE Sample.dotPhoto "uploads/a.png"
  = Current.detectPPE Sample.clearDotPhoto "uploads/helmet.png"
  /\ Current.generateDetectionHash (Current.detectPPE Sample.dotPhoto "uploads/a.png")
     = Current.generateDetectionHash
         (Current.detectPPE Sample.clearDotPhoto "uploads/helmet.png").
Proof.
  apply (analysis_is_deterministic Sample.dotPhoto Sample.clearDotPhoto
           "uploads/a.png" "uploads/helmet.png" 1 1 Sample.dot Sample.clearDot);
    try reflexivity.
  right. split; [reflexivity|].
  intros [|pixel] channel Hc.
  - destruct channel as [|[|[|channel]]]; [reflexivity|reflexivity|reflexivity|lia].
  - rewrite !nth_overflow by (simpl; lia). reflexivity.
Defined.

(** ** Checks of the primitives on known values *)

Section KnownValues.

(** The MD5 test suite of RFC 1321, and a message of two blocks. *)
Example md5_of_empty : Md5.md5hex "" = "d41d8cd98f00b204e9800998ecf8427e"%string.
Proof. vm_compute. reflexivity. Qed.

Example md5_of_abc : Md5.md5hex "abc" = "900150983cd24fb0d6963f7d28e17f72"%string.
Proof. vm_compute. reflexivity. Qed.

Example md5_of_digits :
  Md5.md5hex
    "12345678901234567890123456789012345678901234567890123456789012345678901234567890"
  = "57edf4a22be3c955ac49da2e2107b67a"%string.
Proof. vm_compute. reflexivity. Qed.

Example toFixed_values :
  Js.toFixed 2 0.755 = "0.76"%string
  /\ Js.toFixed 2 0.8 = "0.80"%string
  /\ Js.toFixed 3 (1 # 3) = "0.333"%string
  /\ Js.toFixed 3 12.3456 = "12.346"%string
  /\ Js.toFixed 2 (- (1 # 1000)) = "-0.00"%string.
Proof. repeat split; vm_compute; reflexivity. Qed.

Example round_half_up : Js.round (5 # 2) = 3%Z /\ Js.round (- (5 # 2)) = (-2)%Z.
Proof. split; vm_compute; reflexivity. Qed.

Example forRange_values :
  Js.forRange 0 33 16 = [0; 16; 32]%Z /\ Js.forRange 0 32 16 = [0; 16]%Z
  /\ Js.forRange 13 52 24 = [13; 37]%Z /\ Js.forRange 0 (-31) 48 = [].
Proof. repeat split; vm_compute; reflexivity. Qed.

(** Sums, products and quotients of doubles. *)
Example double_arithmetic :
  Double.add 0.1 0.2 = Double.round 0.30000000000000004
  /\ Double.add (Double.add 0.4 0.2) 0.1 = Double.round 0.7000000000000001
  /\ Double.add (Double.add 0.3 0.25) 0.15 = Double.round 0.7000000000000001
  /\ Double.add 0.4 0.3 = Double.round 0.7
  /\ Double.ltb 0.7 0.7000000000000001 = true
  /\ Double.mul 90 0.7 = Double.round 62.99999999999999
  /\ Double.floor' (Double.mul' (Double.ofZ 90) (Double.ofQ 0.7)) = 62%Z
  /\ Double.div 24 640 = Double.round 0.0375
  /\ Double.round 0.0375 < 0.0375
  /\ Double.toQ (Double.sqrt' (Double.ofZ 2304)) == 48
  /\ Double.toQ (Double.ofQ 0.5) == 0.5.
Proof. repeat split; vm_compute; reflexivity. Qed.

(** The double nearest to a rational: ties go to the even mantissa, small
    numbers are subnormal, large ones infinite. *)
Example double_of_rational :
  Double.ofQ (1 # 3) = S754_finite false 6004799503160661 (-54)
  /\ Double.ofQ 0.1 = S754_finite false 7205759403792794 (-56)
  /\ Double.ofQ (- (5 # 7)) = S754_finite true 6433713753386423 (-53)
  /\ Double.ofZ 9007199254740993 = S754_finite false 4503599627370496 1
  /\ Double.ofQ (Qmake 1 (2 ^ 1074)) = S754_finite false 1 (-1074)
  /\ Double.ofQ (Qmake 3 (2 ^ 1075)) = S754_finite false 2 (-1074)
  /\ Double.ofQ (Qmake 1 (2 ^ 1075)) = S754_zero false
  /\ Double.ofZ (2 ^ 1024 - 2 ^ 971) = S754_finite false 9007199254740991 971
  /\ Double.ofZ (2 ^ 1024 - 2 ^ 970) = S754_infinity false.
Proof. repeat split; vm_compute; reflexivity. Qed.

(** The overlap of a box with itself is 1 up to rounding, and NaN when its
    area is rounded to zero. *)
Example overlap_of_a_box_with_itself :
  calculateOverlap (mkBBox 0.1 0.7 0.2 0.1) (mkBBox 0.1 0.7 0.2 0.1)
  = Double.ofQ 0.9999999999999997
  /\ calculateOverlap (mkBBox 0.58 0.61 0.84 0.49) (mkBBox 0.58 0.61 0.84 0.49)
     = Double.ofQ 1.0000000000000004
  /\ calculateOverlap (mkBBox 0 0 (Qmake 1 (10 ^ 200)) (Qmake 1 (10 ^ 200)))
                      (mkBBox 0 0 (Qmake 1 (10 ^ 200)) (Qmake 1 (10 ^ 200)))
     = S754_nan.
Proof. repeat split; vm_compute; reflexivity. Qed.

(** Operations on infinities and NaN. *)
Example double_exceptions :
  Double.div' (Double.ofZ 0) (Double.ofZ 0) = S754_nan
  /\ Double.div' (Double.ofZ 1) (Double.ofZ 0) = S754_infinity false
  /\ Double.ltb' (Double.ofZ 0) S754_nan = false
  /\ Double.ltb' S754_nan (Double.ofZ 0) = false
  /\ Double.max' (Double.ofZ 1) S754_nan = S754_nan
  /\ Double.max' (S754_zero true) (S754_zero false) = S754_zero false
  /\ Double.min' (S754_zero false) (S754_zero true) = S754_zero true.
Proof. repeat split; vm_compute; reflexivity. Qed.

(** A window whose centre slice ends at position 62, not 63: the centre is
    sparser than the whole, and the window is rejected with the confidence
    0.5 (colour and edge density). *)
Example patchy_window :
  List.length Sample.patchy = 90%nat
  /\ Current.roundness (Current.analyzeShape Sample.patchy 32) = Double.ofQ 0.4
  /\ Current.analyzeHelmetRegion Sample.patchy 32
     = Current.mkHelmetAnalysis false (Double.ofQ 0.5) (Some "green"%string).
Proof. repeat split; vm_compute; reflexivity. Qed.

(** Windows that the rounding of a sum decides.  The gates of [hollow]
    (colour, uniformity, edge density) have weights of sum 0.7, added to
    0.7000000000000001: the window is accepted.  The brightness of
    [striped] is 0.6 as a ratio and 0.6000000000000001 as accumulated: with
    its colour and its one stripe the window is accepted. *)
Example windows_at_the_threshold :
  Current.analyzeHelmetRegion Sample.hollow 32
  = Current.mkHelmetAnalysis true (Double.ofQ 0.7000000000000001) (Some "yellow"%string)
  /\ Current.roundness (Current.analyzeShape Sample.hollow 32) = Double.ofQ 0.4
  /\ inject_Z (Current.totalOver Current.channelSum Sample.striped) / 3 / 9 / 255 == 0.6
  /\ Current.brightness (Current.analyzeColors Sample.striped)
     = Double.ofQ 0.6000000000000001
  /\ Current.stripeCount (Current.analyzePattern Sample.striped 48) = 1%nat
  /\ Current.analyzeVestRegion Sample.striped 48
     = Current.mkVestAnalysis true (Double.ofQ 0.7000000000000001)
         (Some "high-vis"%string).
Proof. repeat split; vm_compute; reflexivity. Qed.

(** The hash of the empty set is the digest of the text "[]". *)
Example hash_of_empty_set :
  Current.generateDetectionHash [] = "d751713988987e9331980363e24189ce"%string.
Proof. vm_compute. reflexivity. Qed.

(** The hash reads the doubles: 24 / 640 is a double below 0.0375 and is
    written 0.037.  The digests are those of the texts that
    [JSON.stringify] writes for the two sets. *)
Example hash_of_detections :
  Current.hashData Sample.corner
  = Current.mkHashData "helmet" "0.90" "0.037" "0.000" "1.000" "0.300"
  /\ Js.toFixed 3 (24 # 640) = "0.038"%string
  /\ Current.generateDetectionHash [Sample.corner] = "9de54ad272ecc7d0fb23d4f743bd6b4f"%string
  /\ List.map Current.hashData Sample.crew
     = [ Current.mkHashData "person" "0.76" "0.001" "0.100" "0.500" "0.250";
         Current.mkHashData "vest" "0.80" "0.333" "0.200" "0.500" "0.125" ]
  /\ Current.generateDetectionHash Sample.crew = "7be6c149b36ed696f8018e6ed35aea76"%string.
Proof. repeat split; vm_compute; reflexivity. Qed.

(** The earlier Merger on the three chained helmets: one box, the union of
    the three, with the confidence of the best raised by 0.02. *)
Example legacy_merger_unions :
  Legacy.mergeOverlappingDetections [Sample.left; Sample.middle; Sample.right] 0.3
  = [mkDetection helmet (Qmin 0.98 (0.9 + 0.02)) None
       (mkBBox 0 0 (Qmax (Qmax (0.2 + 0.4) (0.4 + 0.4)) (0 + 0.4) - 0)
               (Qmax (Qmax (0 + 0.4) (0 + 0.4)) (0 + 0.4) - 0))].
Proof. vm_compute. reflexivity. Qed.

(** The earlier hash reads the label, the confidence and the corner of the
    box only: boxes of different sizes hash alike. *)
Example legacy_hash_ignores_size :
  Legacy.generateDetectionHash [Sample.whole] = Legacy.generateDetectionHash [Sample.strip']
  /\ Current.generateDetectionHash [Sample.whole]
     <> Current.generateDetectionHash [Sample.strip'].
Proof. split; [vm_compute; reflexivity|]. vm_compute. intros H. discriminate H. Qed.

End KnownValues.
